(** * Quiz backend core: session engine, scoring engine, ranking cache

    A shallow embedding of the three core modules of the quiz server
    ([quiz-session-module.tsx], [scoring-module.tsx], [ranking-module.tsx])
    over a model of the key-value store they share, followed by the
    properties of the specification that were checked against it.

    Modelling conventions.
    - JavaScript numbers that hold counters, scores, indices and epoch
      milliseconds are integers ([Z]); the sums the code takes of the
      counters of a profile, which a caller can set, are rounded as
      sums of doubles are ([Number_add]), and the quotients it takes are
      IEEE-754 doubles ([float], Rocq's primitive binary64).
    - An ISO-8601 timestamp string ([new Date().toISOString()]) is
      represented by the epoch milliseconds it denotes, which is what
      [new Date(s).getTime()] gives back.
    - The store maps string keys to the text written under them.  A text
      produced by [JSON.stringify] is represented by the record it was
      built from ([JSON.parse] of it gives the record back); a text that
      was stored raw (a session id, a timestamp) is a [VStr]. *)

From Stdlib Require Import ZArith Floats String Ascii Sorted Permutation.
From stdpp Require Import gmap strings list fin_maps pretty.

Local Set Warnings "-register-all".
Local Open Scope string_scope.
Local Open Scope Z_scope.

(** ** Data model ([types.tsx]) *)

Module Question.
Record t := mk {
  id : string;
  question : string;
  options : list string;
  correctAnswer : string;
  team : string;
  createdBy : string;
  createdAt : string
}.
End Question.

Module Answer.
Record t := mk {
  questionId : string;
  answer : string;
  correct : bool;
  points : Z
}.
End Answer.

Inductive status := active | completed.

Module QuizSession.
Record t := mk {
  sessionId : string;
  userId : string;
  quizId : string;
  team : string;
  questions : list Question.t;
  currentQuestion : Z;
  score : Z;
  answers : list Answer.t;
  startedAt : Z;
  status : status;
  completedAt : option Z
}.
End QuizSession.

Module UserProfile.
Record t := mk {
  id : string;
  email : string;
  name : string;
  role : string;
  totalScore : Z;
  gamesPlayed : Z
}.
End UserProfile.

Module RankingEntry.
Record t := mk {
  position : Z;
  userId : string;
  name : string;
  totalScore : Z;
  gamesPlayed : Z;
  average : string
}.
End RankingEntry.

Module Quiz.
Record t := mk {
  id : string;
  name : string;
  description : option string;
  team : string;
  questionIds : list string;
  createdBy : string;
  createdAt : string;
  timeLimit : option Z
}.
End Quiz.

Module FastestEntry.
Record t := mk {
  userId : string;
  name : string;
  quizId : string;
  durationMs : Z;
  score : Z;
  completedAt : Z
}.
End FastestEntry.

(** The ranking-history record [finishQuiz] writes under
    [ranking:<epochMs>:<userId>]. *)
Module HistoryRecord.
Record t := mk {
  userId : string;
  sessionId : string;
  score : Z;
  completedAt : option Z
}.
End HistoryRecord.

(** What a key of the store holds. *)
Inductive value :=
  | VStr (s : string)
  | VQuestion (q : Question.t)
  | VQuiz (q : Quiz.t)
  | VSession (s : QuizSession.t)
  | VProfile (p : UserProfile.t)
  | VFastest (e : FastestEntry.t)
  | VRanking (r : list RankingEntry.t)
  | VHistory (h : HistoryRecord.t).

Abbreviation store := (gmap string value).

(** A plain JavaScript value, for the one response whose set of fields
    is itself the subject of a property. *)
Inductive jsval :=
  | JStr (s : string)
  | JNum (n : Z)
  | JArr (items : list jsval)
  | JObj (fields : list (string * jsval)).

(** ** Outcomes and the store monad

    Every operation is an [async] function over the store: it returns a
    value or throws, and the writes it made before throwing stay. *)

Inductive exn :=
  | Error (message : string)
  | TypeError (message : string)
  | UnexpectedShape.

Inductive outcome (A : Type) :=
  | Ok (a : A)
  | Throw (e : exn).
Arguments Ok {A} a.
Arguments Throw {A} e.

Definition M (A : Type) : Type := store → outcome A * store.

Definition ret {A} (a : A) : M A := λ st, (Ok a, st).

Definition throw {A} (e : exn) : M A := λ st, (Throw e, st).

Definition bind {A B} (c : M A) (k : A → M B) : M B :=
  λ st, match c st with
        | (Ok a, st') => k a st'
        | (Throw e, st') => (Throw e, st')
        end.

Notation "'let*' x := c 'in' k" := (bind c (λ x, k))
  (at level 10, x name, c at level 100, k at level 200,
   format "'[v' 'let*'  x  :=  c  'in'  '/' k ']'").
Notation "'do*' c 'in' k" := (bind c (λ _, k))
  (at level 10, c at level 100, k at level 200,
   format "'[v' 'do*'  c  'in'  '/' k ']'").

(** The store after an operation, whatever its outcome. *)
Definition exec {A} (c : M A) (st : store) : store := (c st).2.

(** ** The key-value store client ([kv_store.tsx]) *)

Module kv.

(** Modelled from the spec: [kv_store.tsx] is not among the sources;
    section 2 describes it as a string-keyed store with
    get/set/delete/multi-get/prefix-scan and no atomicity across
    keys.  [get] gives the text under a key, or nothing. *)
Definition get (key : string) : M (option value) :=
  λ st, (Ok (st !! key), st).

(** Modelled from the spec: [set] writes one key (last write wins). *)
Definition set (key : string) (v : value) : M unit :=
  λ st, (Ok (), <[key := v]> st).

(** Modelled from the spec: [del] removes one key. *)
Definition del (key : string) : M unit :=
  λ st, (Ok (), delete key st).

(** Modelled from the spec: [mget] is the multi-get; it gives the
    texts of the keys that exist, in the order of the request. *)
Definition mget (keys : list string) : M (list value) :=
  λ st, (Ok (omap (λ k, st !! k) keys), st).

(** Modelled from the spec: the entries whose key starts with
    [prefix], in the store's enumeration order. *)
Definition scan (prefix : string) (st : store) : list (string * value) :=
  map_to_list (filter (λ e, String.prefix prefix e.1 = true) st).

(** Modelled from the spec: [getByPrefix] is the prefix scan; it
    gives the texts found, without their keys. *)
Definition getByPrefix (prefix : string) : M (list value) :=
  λ st, (Ok ((scan prefix st).*2), st).

(** Modelled from the spec: the keys of the prefix scan. *)
Definition getKeysByPrefix (prefix : string) : M (list string) :=
  λ st, (Ok ((scan prefix st).*1), st).

(** Modelled from the spec: [mdel] is the bulk delete. *)
Definition mdel (keys : list string) : M unit :=
  λ st, (Ok (), foldr delete st keys).

End kv.

(** ** JavaScript built-ins the modules rely on *)

(** [!str] on what [kv.get] returned: nothing and the empty string are
    falsy; every other text is truthy. *)
Definition truthy (o : option value) : option value :=
  match o with
  | Some (VStr "") => None
  | other => other
  end.

(** [JSON.parse] of a stored text, read at the type the caller
    declares.  A text written for another kind of record, or a raw
    string, has an unexpected shape. *)
Definition JSON_parse {A} (as_ : value → option A) (v : value) : M A :=
  match as_ v with
  | Some a => ret a
  | None => throw UnexpectedShape
  end.

Definition as_question (v : value) : option Question.t :=
  match v with VQuestion q => Some q | _ => None end.
Definition as_quiz (v : value) : option Quiz.t :=
  match v with VQuiz q => Some q | _ => None end.
Definition as_session (v : value) : option QuizSession.t :=
  match v with VSession s => Some s | _ => None end.
Definition as_profile (v : value) : option UserProfile.t :=
  match v with VProfile p => Some p | _ => None end.
Definition as_fastest (v : value) : option FastestEntry.t :=
  match v with VFastest e => Some e | _ => None end.
Definition as_ranking (v : value) : option (list RankingEntry.t) :=
  match v with VRanking r => Some r | _ => None end.

(** [array[i]] for a number [i]: [undefined] outside the array. *)
Definition index {A} (l : list A) (i : Z) : option A :=
  if i <? 0 then None else l !! Z.to_nat i.

(** [array.length]. *)
Definition len {A} (l : list A) : Z := Z.of_nat (length l).

(** [array.slice(0, end)]: a negative [end] counts from the back. *)
Definition slice0 {A} (l : list A) (end_ : Z) : list A :=
  let final := if end_ <? 0 then Z.max (len l + end_) 0
               else Z.min end_ (len l) in
  take (Z.to_nat final) l.

(** [array.sort(compare)]: a stable sort; [x] goes before [y] when
    [compare x y <= 0] and [x] came first. *)
Fixpoint sort_insert {A} (compare : A → A → Z) (x : A) (l : list A) : list A :=
  match l with
  | [] => [x]
  | y :: l' => if compare x y <=? 0 then x :: y :: l'
               else y :: sort_insert compare x l'
  end.

Fixpoint sort {A} (compare : A → A → Z) (l : list A) : list A :=
  match l with
  | [] => []
  | x :: l' => sort_insert compare x (sort compare l')
  end.

(** [n.toString()] and [`${n}`] for an integer [n]. *)
Definition toString (n : Z) : string := pretty n.

(** [parseInt(text)]: leading white space, an optional sign, an
    optional [0x], then the longest run of digits; no digit gives [NaN],
    here [None]. *)
Definition is_white_space (c : ascii) : bool :=
  let n := Z.of_N (N_of_ascii c) in
  ((9 <=? n) && (n <=? 13)) || (n =? 32).

Fixpoint trim_start (s : string) : string :=
  match s with
  | String c rest => if is_white_space c then trim_start rest else s
  | EmptyString => s
  end.

Definition digit_value (c : ascii) : option Z :=
  let n := Z.of_N (N_of_ascii c) in
  if (48 <=? n) && (n <=? 57) then Some (n - 48)
  else if (97 <=? n) && (n <=? 122) then Some (n - 87)
  else if (65 <=? n) && (n <=? 90) then Some (n - 55)
  else None.

Fixpoint digits (radix : Z) (acc : option Z) (s : string) : option Z :=
  match s with
  | String c rest =>
      match digit_value c with
      | Some d => if d <? radix
                  then digits radix (Some (default 0 acc * radix + d)) rest
                  else acc
      | None => acc
      end
  | EmptyString => acc
  end.

Definition parseInt (text : string) : option Z :=
  let s := trim_start text in
  let '(negative, s) :=
    match s with
    | String "-" rest => (true, rest)
    | String "+" rest => (false, rest)
    | _ => (false, s)
    end in
  let '(radix, s) :=
    match s with
    | String "0" (String "x" rest) => (16, rest)
    | String "0" (String "X" rest) => (16, rest)
    | _ => (10, s)
    end in
  (λ n, if negative : bool then - n else n) <$> digits radix None s.

(** The double nearest to an integer (exact up to 2^53). *)
Definition Z2F (z : Z) : float :=
  SF2Prim (binary_normalize prec emax z 0 false).

(** The integer a double holds, for a double that holds one.  An
    infinity is given as ±2^1024, which [Z2F] takes back to it. *)
Definition F2Z (x : float) : Z :=
  match Prim2SF x with
  | S754_finite s m e =>
      let magnitude := if 0 <=? e then Z.pos m * 2 ^ e
                       else Z.pos m `div` 2 ^ (- e) in
      if s then - magnitude else magnitude
  | S754_infinity s => if s then - 2 ^ 1024 else 2 ^ 1024
  | _ => 0
  end.

(** [Number.MAX_SAFE_INTEGER], 2^53 - 1, and [Number.isSafeInteger]:
    up to it every integer is a double and a sum of integers that
    stays within it is exact. *)
Definition MAX_SAFE_INTEGER : Z := 9007199254740991.

Definition isSafeInteger (n : Z) : bool := Z.abs n <=? MAX_SAFE_INTEGER.

(** [a + b] and [a += b] on numbers that hold integers.  The operands
    are doubles and so is the sum: exact within the safe integers,
    otherwise the double nearest to the sum of the two doubles (ties to
    even), so that 2^53 + 1 is 2^53. *)
Definition Number_add (a b : Z) : Z :=
  if isSafeInteger a && isSafeInteger b && isSafeInteger (a + b)
  then a + b
  else F2Z (Z2F a + Z2F b).

(** The nearest integer to [±m·2^e] with [e < 0], the one towards
    +infinity when two are equally near: floor(x + 1/2). *)
Definition nearest_ties_up (s : bool) (m : positive) (e : Z) : Z :=
  let d := 2 ^ (- e) in
  (2 * (if s then Z.neg m else Z.pos m) + d) `div` (2 * d).

(** [Math.round(x)]: NaN, the infinities, the zeros and the integers
    are returned as they are; other values go to the nearest integer,
    ties towards +infinity, and a negative value that rounds to zero
    gives -0. *)
Definition Math_round (x : float) : float :=
  match Prim2SF x with
  | S754_finite s m e =>
      if 0 <=? e then x
      else let n := nearest_ties_up s m e in
           if n =? 0 then (if s then PrimFloat.neg_zero else PrimFloat.zero) else Z2F n
  | _ => x
  end.

(** The nearest integer to [m·2^e·10], the larger one on a tie: the
    [n] of [Number.prototype.toFixed] for one fraction digit. *)
Definition tenths (m : positive) (e : Z) : Z :=
  if 0 <=? e then Z.pos m * 2 ^ e * 10
  else let d := 2 ^ (- e) in (2 * 10 * Z.pos m + d) `div` (2 * d).

(** [Number::toString] for an integer double [N] of at least 10^21,
    as [toFixed] uses it: the decimal with the fewest significant
    digits that reads back as the same double (the nearest to [N] when
    two of that length do, the even one on a tie), its first digit, a
    point and the other digits if there are any, then [e+] and the
    decimal exponent.  [shortest_decimal] tries [k] = 1, 2, ...
    significant digits: the two decimals of [k] digits around [N]. *)
Fixpoint shortest_decimal (fuel : nat) (k length N : Z) : Z :=
  match fuel with
  | O => N
  | S fuel' =>
      let scale := 10 ^ (length - k) in
      let low := N `div` scale * scale in
      let high := low + scale in
      let reads_back (v : Z) := (Z2F v =? Z2F N)%float in
      match reads_back low, reads_back high with
      | true, true =>
          if N - low <? high - N then low
          else if high - N <? N - low then high
          else if Z.even (low `div` scale) then low else high
      | true, false => low
      | false, true => high
      | false, false => shortest_decimal fuel' (k + 1) length N
      end
  end.

Fixpoint drop_trailing_zeros (s : string) : string :=
  match s with
  | EmptyString => EmptyString
  | String c rest =>
      match drop_trailing_zeros rest with
      | EmptyString => if Ascii.eqb c "0" then EmptyString
                       else String c EmptyString
      | rest' => String c rest'
      end
  end.

(** The digits before the exponent: the first digit and, if other
    digits are left once the trailing zeros are dropped, a point and
    those. *)
Definition mantissa_text (digits : string) : string :=
  match drop_trailing_zeros digits with
  | String first EmptyString => String first EmptyString
  | String first others => String first EmptyString +:+ "." +:+ others
  | EmptyString => "0"
  end.

Definition exponent_text (N : Z) : string :=
  let length := Z.of_nat (String.length (toString N)) in
  let digits := toString (shortest_decimal 17 1 length N) in
  mantissa_text digits +:+ "e+"
    +:+ toString (Z.of_nat (String.length digits) - 1).

(** [x.toFixed(1)].  NaN gives [NaN]; a magnitude of at least 10^21
    (the infinities too) gives the sign and [Number::toString] of the
    magnitude, in exponent notation; below 10^21 the result is in fixed
    notation: the sign, the integer part of [n/10], a point, the last
    digit of [n], for [n] the integer nearest to ten times the
    magnitude. *)
Definition toFixed1 (x : float) : string :=
  match Prim2SF x with
  | S754_nan => "NaN"
  | S754_infinity s => if s then "-Infinity" else "Infinity"
  | S754_zero _ => "0.0"
  | S754_finite s m e =>
      let sign := if s then "-" else "" in
      if (0 <=? e) && (10 ^ 21 <=? Z.pos m * 2 ^ e)
      then sign +:+ exponent_text (Z.pos m * 2 ^ e)
      else
        let n := tenths m e in
        sign +:+ toString (n `div` 10) +:+ "." +:+ toString (n `mod` 10)
  end.

(** [`user:${userId}:active_session`], [`user_profile:${userId}`],
    [`fastest:${quizId}`]. *)
Definition active_session_key (userId : string) : string :=
  "user:" +:+ userId +:+ ":active_session".
Definition user_profile_key (userId : string) : string :=
  "user_profile:" +:+ userId.
Definition fastest_key (quizId : string) : string :=
  "fastest:" +:+ quizId.

(** ** Session engine ([quiz-session-module.tsx]) *)

Module StartSessionResult.
Record t := mk {
  sessionId : string;
  totalQuestions : Z;
  quizId : string;
  timeLimit : Z
}.
End StartSessionResult.

Module CurrentQuestionResult.
Record t := mk {
  question : jsval;
  currentQuestion : Z;
  totalQuestions : Z;
  score : Z
}.
End CurrentQuestionResult.

Module SubmitAnswerResult.
Record t := mk {
  correct : bool;
  correctAnswer : string;
  points : Z;
  totalScore : Z;
  hasMoreQuestions : bool
}.
End SubmitAnswerResult.

(** Arrays are objects on a heap; [shuffleArray] receives a reference
    and returns a reference. *)
Section shuffle.
Context {T : Type}.

(** [[a[i], a[j]] = [a[j], a[i]]]: both reads, then the write at [i],
    then the write at [j].  The loop only calls it with [i] below the
    length and [j <= i]. *)
Definition swap (i j : nat) (a : list T) : list T :=
  match a !! i, a !! j with
  | Some ai, Some aj => <[j := ai]> (<[i := aj]> a)
  | _, _ => a
  end.

(** The loop [for (let i = shuffled.length - 1; i > 0; i--)], entered
    at [i]; [random i] is the [j] that
    [Math.floor(Math.random() * (i + 1))] gives in the iteration at
    [i]. *)
Fixpoint shuffle_loop (random : nat → nat) (shuffled : nat) (i : nat)
    (h : gmap nat (list T)) : gmap nat (list T) :=
  match i with
  | O => h
  | S i' => shuffle_loop random shuffled i'
              (alter (swap i (random i)) shuffled h)
  end.

Definition shuffleArray (random : nat → nat) (array : nat)
    (h : gmap nat (list T)) : nat * gmap nat (list T) :=
  let contents := default [] (h !! array) in
  let shuffled := fresh (dom h) in
  let h := <[shuffled := contents]> h in
  (shuffled, shuffle_loop random shuffled (length contents - 1)%nat h).

(** [this.shuffleArray(parsedQuestions)] where the argument is a list
    nobody else refers to: the contents of the array returned. *)
Definition shuffled_copy (random : nat → nat) (l : list T) : list T :=
  let '(shuffled, h) := shuffleArray random 0%nat {[ 0%nat := l ]} in
  default [] (h !! shuffled).
End shuffle.

Definition JSON_parse_all {A} (as_ : value → option A) (vs : list value)
    : M (list A) :=
  match mapM as_ vs with
  | Some l => ret l
  | None => throw UnexpectedShape
  end.

(** [!team || q.team === team || q.team === 'general']. *)
Definition team_matches (team : option string) (q : Question.t) : bool :=
  match team with
  | None => true
  | Some t => (t =? "")%string || (Question.team q =? t)%string
              || (Question.team q =? "general")%string
  end.

(** [a || b] on strings. *)
Definition or_string (a : option string) (b : string) : string :=
  match a with
  | Some (String c s) => String c s
  | _ => b
  end.

(** [startSession(userId, quizId, team?)].  [now] is what [Date.now()]
    reads, [started] what [new Date()] reads. *)
Definition startSession (userId quizId : string) (team : option string)
    (now started : Z) (random : nat → nat) : M StartSessionResult.t :=
  if (quizId =? "")%string then throw (Error "Quiz is required") else
  let* quizStr := kv.get quizId in
  match truthy quizStr with
  | None => throw (Error "Quiz not found")
  | Some quizStr =>
    let* quiz := JSON_parse as_quiz quizStr in
    if len (Quiz.questionIds quiz) =? 0
    then throw (Error "No questions available for this quiz") else
    let* questions := kv.mget (Quiz.questionIds quiz) in
    let* parsed := JSON_parse_all as_question questions in
    let parsedQuestions := filter (λ q, team_matches team q = true) parsed in
    if len parsedQuestions =? 0
    then throw (Error "No questions available for this team") else
    let shuffledQuestions := shuffled_copy random parsedQuestions in
    let sessionId :=
      "session:" +:+ userId +:+ ":" +:+ quizId +:+ ":" +:+ toString now in
    let sessionData := {|
      QuizSession.sessionId := sessionId;
      QuizSession.userId := userId;
      QuizSession.quizId := quizId;
      QuizSession.team := or_string team (or_string (Some (Quiz.team quiz)) "general");
      QuizSession.questions := shuffledQuestions;
      QuizSession.currentQuestion := 0;
      QuizSession.score := 0;
      QuizSession.answers := [];
      QuizSession.startedAt := started;
      QuizSession.status := active;
      QuizSession.completedAt := None
    |} in
    do* kv.set sessionId (VSession sessionData) in
    do* kv.set (active_session_key userId) (VStr sessionId) in
    ret {|
      StartSessionResult.sessionId := sessionId;
      StartSessionResult.totalQuestions := len shuffledQuestions;
      StartSessionResult.quizId := quizId;
      StartSessionResult.timeLimit :=
        match Quiz.timeLimit quiz with
        | None | Some 0 => 30
        | Some limit => limit
        end
    |}
  end.

(** The session id read from the active-session pointer.  The pointer
    is written raw; a JSON text under it is outside what the core
    writes there. *)
Definition raw_string (v : value) : M string :=
  match v with
  | VStr s => ret s
  | _ => throw UnexpectedShape
  end.

(** [getCurrentQuestion(userId)]. *)
Definition getCurrentQuestion (userId : string) : M CurrentQuestionResult.t :=
  let* sessionId := kv.get (active_session_key userId) in
  match truthy sessionId with
  | None => throw (Error "No active quiz session")
  | Some sessionId =>
    let* sessionId := raw_string sessionId in
    let* sessionDataStr := kv.get sessionId in
    match truthy sessionDataStr with
    | None => throw (Error "Session not found")
    | Some sessionDataStr =>
      let* sessionData := JSON_parse as_session sessionDataStr in
      match QuizSession.status sessionData with
      | completed => throw (Error "Quiz session is not active")
      | active =>
        match index (QuizSession.questions sessionData)
                    (QuizSession.currentQuestion sessionData) with
        | None => throw (Error "No more questions")
        | Some currentQuestion =>
          ret {|
            CurrentQuestionResult.question := JObj [
              ("id", JStr (Question.id currentQuestion));
              ("question", JStr (Question.question currentQuestion));
              ("options", JArr (JStr <$> Question.options currentQuestion))
            ];
            CurrentQuestionResult.currentQuestion :=
              QuizSession.currentQuestion sessionData + 1;
            CurrentQuestionResult.totalQuestions :=
              len (QuizSession.questions sessionData);
            CurrentQuestionResult.score := QuizSession.score sessionData
          |}
        end
      end
    end
  end.

(** [submitAnswer(userId, answer)].  Reading [correctAnswer] of an
    [undefined] current question throws a [TypeError]. *)
Definition submitAnswer (userId answer : string) : M SubmitAnswerResult.t :=
  let* sessionId := kv.get (active_session_key userId) in
  match truthy sessionId with
  | None => throw (Error "No active quiz session")
  | Some sessionId =>
    let* sessionId := raw_string sessionId in
    let* sessionDataStr := kv.get sessionId in
    match truthy sessionDataStr with
    | None => throw (Error "Session not found")
    | Some sessionDataStr =>
      let* sessionData := JSON_parse as_session sessionDataStr in
      match index (QuizSession.questions sessionData)
                  (QuizSession.currentQuestion sessionData) with
      | None =>
          throw (TypeError
            "Cannot read properties of undefined (reading 'correctAnswer')")
      | Some currentQuestion =>
        let isCorrect := (answer =? Question.correctAnswer currentQuestion)%string in
        let pointsEarned := if isCorrect then 100 else 0 in
        let sessionData := {|
          QuizSession.sessionId := QuizSession.sessionId sessionData;
          QuizSession.userId := QuizSession.userId sessionData;
          QuizSession.quizId := QuizSession.quizId sessionData;
          QuizSession.team := QuizSession.team sessionData;
          QuizSession.questions := QuizSession.questions sessionData;
          QuizSession.currentQuestion :=
            QuizSession.currentQuestion sessionData + 1;
          QuizSession.score := QuizSession.score sessionData + pointsEarned;
          QuizSession.answers := QuizSession.answers sessionData ++ [ {|
            Answer.questionId := Question.id currentQuestion;
            Answer.answer := answer;
            Answer.correct := isCorrect;
            Answer.points := pointsEarned
          |} ];
          QuizSession.startedAt := QuizSession.startedAt sessionData;
          QuizSession.status := QuizSession.status sessionData;
          QuizSession.completedAt := QuizSession.completedAt sessionData
        |} in
        let hasMoreQuestions :=
          QuizSession.currentQuestion sessionData
            <? len (QuizSession.questions sessionData) in
        do* kv.set sessionId (VSession sessionData) in
        ret {|
          SubmitAnswerResult.correct := isCorrect;
          SubmitAnswerResult.correctAnswer :=
            Question.correctAnswer currentQuestion;
          SubmitAnswerResult.points := pointsEarned;
          SubmitAnswerResult.totalScore := QuizSession.score sessionData;
          SubmitAnswerResult.hasMoreQuestions := hasMoreQuestions
        |}
      end
    end
  end.

(** [getSession(sessionId)]. *)
Definition getSession (sessionId : string) : M QuizSession.t :=
  let* sessionDataStr := kv.get sessionId in
  match truthy sessionDataStr with
  | None => throw (Error "Session not found")
  | Some sessionDataStr => JSON_parse as_session sessionDataStr
  end.

(** [hasActiveSession(userId)]. *)
Definition hasActiveSession (userId : string) : M bool :=
  let* sessionId := kv.get (active_session_key userId) in
  ret (bool_decide (is_Some (truthy sessionId))).

(** ** Scoring engine ([scoring-module.tsx]) *)

Module FinishQuizResult.
Record t := mk {
  finalScore : Z;
  totalQuestions : Z;
  correctAnswers : Z;
  durationMs : Z
}.
End FinishQuizResult.

Module UserStats.
Record t := mk {
  totalScore : Z;
  gamesPlayed : Z;
  averageScore : float
}.
End UserStats.

(** [updateUserScore(userId, scoreToAdd)]. *)
Definition updateUserScore (userId : string) (scoreToAdd : Z) : M unit :=
  let* userProfileStr := kv.get (user_profile_key userId) in
  match truthy userProfileStr with
  | Some userProfileStr =>
    let* userProfile := JSON_parse as_profile userProfileStr in
    let userProfile := {|
      UserProfile.id := UserProfile.id userProfile;
      UserProfile.email := UserProfile.email userProfile;
      UserProfile.name := UserProfile.name userProfile;
      UserProfile.role := UserProfile.role userProfile;
      UserProfile.totalScore :=
        Number_add (UserProfile.totalScore userProfile) scoreToAdd;
      UserProfile.gamesPlayed :=
        Number_add (UserProfile.gamesPlayed userProfile) 1
    |} in
    kv.set (user_profile_key userId) (VProfile userProfile)
  | None => ret ()
  end.

(** [completedAt ? new Date(completedAt).getTime()
                   - new Date(startedAt).getTime() : 0]. *)
Definition duration (sessionData : QuizSession.t) : Z :=
  match QuizSession.completedAt sessionData with
  | Some completedAt => completedAt - QuizSession.startedAt sessionData
  | None => 0
  end.

(** [trackFastestPlayer(sessionData)]; [today] is what [new Date()]
    reads when the session has no completion time. *)
Definition trackFastestPlayer (sessionData : QuizSession.t) (today : Z)
    : M unit :=
  let durationMs := duration sessionData in
  let* profileStr := kv.get (user_profile_key (QuizSession.userId sessionData)) in
  match truthy profileStr with
  | None => ret ()
  | Some profileStr =>
    let* profile := JSON_parse as_profile profileStr in
    let entry := {|
      FastestEntry.userId := QuizSession.userId sessionData;
      FastestEntry.name := UserProfile.name profile;
      FastestEntry.quizId := QuizSession.quizId sessionData;
      FastestEntry.durationMs := durationMs;
      FastestEntry.score := QuizSession.score sessionData;
      FastestEntry.completedAt :=
        default today (QuizSession.completedAt sessionData)
    |} in
    let key := fastest_key (QuizSession.quizId sessionData) in
    let* currentStr := kv.get key in
    match truthy currentStr with
    | None => kv.set key (VFastest entry)
    | Some currentStr =>
      let* current := JSON_parse as_fastest currentStr in
      let isFaster :=
        (0 <? durationMs)
        && ((FastestEntry.durationMs current =? 0)
            || (durationMs <? FastestEntry.durationMs current)) in
      let isHigherScore :=
        FastestEntry.score current <? QuizSession.score sessionData in
      if isFaster || isHigherScore
      then kv.set key (VFastest entry)
      else ret ()
    end
  end.

(** [finishQuiz(userId)].  The clock is read three times: [finished]
    for [completedAt], [today] inside [trackFastestPlayer], [now] for
    the key of the history record. *)
Definition finishQuiz (userId : string) (finished today now : Z)
    : M FinishQuizResult.t :=
  let* sessionId := kv.get (active_session_key userId) in
  match truthy sessionId with
  | None => throw (Error "No active quiz session")
  | Some sessionId =>
    let* sessionId := raw_string sessionId in
    let* sessionDataStr := kv.get sessionId in
    match truthy sessionDataStr with
    | None => throw (Error "Session not found")
    | Some sessionDataStr =>
      let* sessionData := JSON_parse as_session sessionDataStr in
      let sessionData := {|
        QuizSession.sessionId := QuizSession.sessionId sessionData;
        QuizSession.userId := QuizSession.userId sessionData;
        QuizSession.quizId := QuizSession.quizId sessionData;
        QuizSession.team := QuizSession.team sessionData;
        QuizSession.questions := QuizSession.questions sessionData;
        QuizSession.currentQuestion := QuizSession.currentQuestion sessionData;
        QuizSession.score := QuizSession.score sessionData;
        QuizSession.answers := QuizSession.answers sessionData;
        QuizSession.startedAt := QuizSession.startedAt sessionData;
        QuizSession.status := completed;
        QuizSession.completedAt := Some finished
      |} in
      do* kv.set sessionId (VSession sessionData) in
      do* kv.del (active_session_key userId) in
      do* updateUserScore userId (QuizSession.score sessionData) in
      do* trackFastestPlayer sessionData today in
      let rankingKey := "ranking:" +:+ toString now +:+ ":" +:+ userId in
      do* kv.set rankingKey (VHistory {|
        HistoryRecord.userId := userId;
        HistoryRecord.sessionId := sessionId;
        HistoryRecord.score := QuizSession.score sessionData;
        HistoryRecord.completedAt := QuizSession.completedAt sessionData
      |}) in
      let correctAnswers :=
        len (filter (λ a, Answer.correct a = true)
                    (QuizSession.answers sessionData)) in
      ret {|
        FinishQuizResult.finalScore := QuizSession.score sessionData;
        FinishQuizResult.totalQuestions := len (QuizSession.questions sessionData);
        FinishQuizResult.correctAnswers := correctAnswers;
        FinishQuizResult.durationMs := duration sessionData
      |}
    end
  end.

(** [getUserStats(userId)]. *)
Definition getUserStats (userId : string) : M UserStats.t :=
  let* userProfileStr := kv.get (user_profile_key userId) in
  match truthy userProfileStr with
  | None =>
    ret {|
      UserStats.totalScore := 0;
      UserStats.gamesPlayed := 0;
      UserStats.averageScore := 0%float
    |}
  | Some userProfileStr =>
    let* userProfile := JSON_parse as_profile userProfileStr in
    let averageScore :=
      if 0 <? UserProfile.gamesPlayed userProfile
      then (Z2F (UserProfile.totalScore userProfile)
            / Z2F (UserProfile.gamesPlayed userProfile))%float
      else 0%float in
    ret {|
      UserStats.totalScore := UserProfile.totalScore userProfile;
      UserStats.gamesPlayed := UserProfile.gamesPlayed userProfile;
      UserStats.averageScore := (Math_round (averageScore * 10) / 10)%float
    |}
  end.

(** [getSessionScore(sessionId)]. *)
Definition getSessionScore (sessionId : string) : M Z :=
  let* sessionDataStr := kv.get sessionId in
  match truthy sessionDataStr with
  | None => throw (Error "Session not found")
  | Some sessionDataStr =>
    let* sessionData := JSON_parse as_session sessionDataStr in
    ret (QuizSession.score sessionData)
  end.

(** [getFastestByQuiz(quizId)]. *)
Definition getFastestByQuiz (quizId : string) : M (option FastestEntry.t) :=
  let* currentStr := kv.get (fastest_key quizId) in
  match truthy currentStr with
  | Some currentStr => let* e := JSON_parse as_fastest currentStr in ret (Some e)
  | None => ret None
  end.

(** [resetAllFastest()]. *)
Definition resetAllFastest : M unit :=
  let* keys := kv.getKeysByPrefix "fastest:" in
  if 0 <? len keys then kv.mdel keys else ret ().

(** ** Ranking cache ([ranking-module.tsx]) *)

Module RankingStats.
Record t := mk {
  totalPlayers : Z;
  averageScore : float;
  highestScore : Z
}.
End RankingStats.

Definition CACHE_KEY : string := "ranking:cache".
Definition CACHE_TTL_MS : Z := 30000.
Definition CACHE_TIMESTAMP_KEY : string := "ranking:cache:timestamp".

(** The [(profile, index) => ({...})] of [calculateRanking]. *)
Definition ranking_entry (index : nat) (profile : UserProfile.t)
    : RankingEntry.t := {|
  RankingEntry.position := Z.of_nat index + 1;
  RankingEntry.userId := UserProfile.id profile;
  RankingEntry.name := UserProfile.name profile;
  RankingEntry.totalScore := UserProfile.totalScore profile;
  RankingEntry.gamesPlayed := UserProfile.gamesPlayed profile;
  RankingEntry.average :=
    if 0 <? UserProfile.gamesPlayed profile
    then toFixed1 (Z2F (UserProfile.totalScore profile)
                   / Z2F (UserProfile.gamesPlayed profile))
    else "0.0"
|}.

(** The [(a, b) => b.totalScore - a.totalScore] of [calculateRanking]. *)
Definition by_score_descending (a b : UserProfile.t) : Z :=
  UserProfile.totalScore b - UserProfile.totalScore a.

(** [calculateRanking()]. *)
Definition calculateRanking : M (list RankingEntry.t) :=
  let* allKeys := kv.getByPrefix "user_profile:" in
  let* parsed := JSON_parse_all as_profile allKeys in
  let profiles := filter (λ profile, 0 < UserProfile.gamesPlayed profile) parsed in
  let profiles := sort by_score_descending profiles in
  let ranking := imap ranking_entry profiles in
  ret ranking.

(** [parseInt(timestampStr)] on a stored text: a JSON text of a record
    or of an array starts with a brace or a bracket, which gives NaN. *)
Definition parseInt_text (v : value) : option Z :=
  match v with
  | VStr s => parseInt s
  | _ => None
  end.

(** [getRankingFromCache()]; [now] is what [Date.now()] reads.  A
    comparison with NaN is false. *)
Definition getRankingFromCache (now : Z) : M (option (list RankingEntry.t)) :=
  let* cachedRankingStr := kv.get CACHE_KEY in
  let* timestampStr := kv.get CACHE_TIMESTAMP_KEY in
  match truthy cachedRankingStr, truthy timestampStr with
  | Some cachedRankingStr, Some timestampStr =>
    let timestamp := parseInt_text timestampStr in
    let expired :=
      match timestamp with
      | Some timestamp => CACHE_TTL_MS <? now - timestamp
      | None => false
      end in
    if expired then ret None
    else let* ranking := JSON_parse as_ranking cachedRankingStr in
         ret (Some ranking)
  | _, _ => ret None
  end.

(** [cacheRanking(ranking)]; [now] is what [Date.now()] reads. *)
Definition cacheRanking (ranking : list RankingEntry.t) (now : Z) : M unit :=
  do* kv.set CACHE_KEY (VRanking ranking) in
  kv.set CACHE_TIMESTAMP_KEY (VStr (toString now)).

(** [invalidateCache()]. *)
Definition invalidateCache : M unit :=
  do* kv.del CACHE_KEY in
  kv.del CACHE_TIMESTAMP_KEY.

(** [getGlobalRanking()]; the clock is read at [now] by
    [getRankingFromCache] and at [later] by [cacheRanking].  An array,
    even an empty one, is truthy. *)
Definition getGlobalRanking (now later : Z) : M (list RankingEntry.t) :=
  let* cachedRanking := getRankingFromCache now in
  match cachedRanking with
  | Some cachedRanking => ret cachedRanking
  | None =>
    let* ranking := calculateRanking in
    do* cacheRanking ranking later in
    ret ranking
  end.

(** [getUserPosition(userId)]. *)
Definition getUserPosition (userId : string) (now later : Z) : M (option Z) :=
  let* ranking := getGlobalRanking now later in
  let entry := find (λ r, (RankingEntry.userId r =? userId)%string) ranking in
  ret (RankingEntry.position <$> entry).

(** [getTopPlayers(limit = 10)]. *)
Definition getTopPlayers (limit : option Z) (now later : Z)
    : M (list RankingEntry.t) :=
  let limit := default 10 limit in
  let* ranking := getGlobalRanking now later in
  ret (slice0 ranking limit).

(** [getRankingStats()]. *)
Definition getRankingStats (now later : Z) : M RankingStats.t :=
  let* ranking := getGlobalRanking now later in
  if len ranking =? 0 then
    ret {|
      RankingStats.totalPlayers := 0;
      RankingStats.averageScore := 0%float;
      RankingStats.highestScore := 0
    |}
  else
    let totalScore :=
      foldl (λ sum entry, Number_add sum (RankingEntry.totalScore entry))
        0 ranking in
    let averageScore := (Z2F totalScore / Z2F (len ranking))%float in
    let highestScore :=
      match ranking with
      | first :: _ => RankingEntry.totalScore first
      | [] => 0
      end in
    ret {|
      RankingStats.totalPlayers := len ranking;
      RankingStats.averageScore := (Math_round (averageScore * 10) / 10)%float;
      RankingStats.highestScore := highestScore
    |}.

(** The body of the [for (const profile of profiles)] loop of
    [resetAllRankings]. *)
Definition reset_profile (profile : UserProfile.t) : M unit :=
  let updatedProfile := {|
    UserProfile.id := UserProfile.id profile;
    UserProfile.email := UserProfile.email profile;
    UserProfile.name := UserProfile.name profile;
    UserProfile.role := UserProfile.role profile;
    UserProfile.totalScore := 0;
    UserProfile.gamesPlayed := 0
  |} in
  kv.set (user_profile_key (UserProfile.id profile)) (VProfile updatedProfile).

Fixpoint for_each {A} (l : list A) (body : A → M unit) : M unit :=
  match l with
  | [] => ret ()
  | x :: l' => do* body x in for_each l' body
  end.

(** [resetAllRankings()]. *)
Definition resetAllRankings : M unit :=
  let* allKeys := kv.getByPrefix "user_profile:" in
  let* profiles := JSON_parse_all as_profile allKeys in
  do* for_each profiles reset_profile in
  invalidateCache.

(** ** The operations of the core, as one type

    The public methods of the three modules, then their private
    helpers that touch the store. *)

Inductive operation :=
  | StartSession (userId quizId : string) (team : option string)
      (now started : Z) (random : nat → nat)
  | GetCurrentQuestion (userId : string)
  | SubmitAnswer (userId answer : string)
  | GetSession (sessionId : string)
  | HasActiveSession (userId : string)
  | FinishQuiz (userId : string) (finished today now : Z)
  | UpdateUserScore (userId : string) (scoreToAdd : Z)
  | GetUserStats (userId : string)
  | GetSessionScore (sessionId : string)
  | GetFastestByQuiz (quizId : string)
  | ResetAllFastest
  | GetGlobalRanking (now later : Z)
  | InvalidateCache
  | GetUserPosition (userId : string) (now later : Z)
  | GetTopPlayers (limit : option Z) (now later : Z)
  | GetRankingStats (now later : Z)
  | ResetAllRankings
  | TrackFastestPlayer (sessionData : QuizSession.t) (today : Z)
  | CalculateRanking
  | GetRankingFromCache (now : Z)
  | CacheRanking (ranking : list RankingEntry.t) (now : Z).

(** The store an operation leaves behind. *)
Definition run (o : operation) (st : store) : store :=
  match o with
  | StartSession userId quizId team now started random =>
      exec (startSession userId quizId team now started random) st
  | GetCurrentQuestion userId => exec (getCurrentQuestion userId) st
  | SubmitAnswer userId answer => exec (submitAnswer userId answer) st
  | GetSession sessionId => exec (getSession sessionId) st
  | HasActiveSession userId => exec (hasActiveSession userId) st
  | FinishQuiz userId finished today now =>
      exec (finishQuiz userId finished today now) st
  | UpdateUserScore userId scoreToAdd =>
      exec (updateUserScore userId scoreToAdd) st
  | GetUserStats userId => exec (getUserStats userId) st
  | GetSessionScore sessionId => exec (getSessionScore sessionId) st
  | GetFastestByQuiz quizId => exec (getFastestByQuiz quizId) st
  | ResetAllFastest => exec resetAllFastest st
  | GetGlobalRanking now later => exec (getGlobalRanking now later) st
  | InvalidateCache => exec invalidateCache st
  | GetUserPosition userId now later =>
      exec (getUserPosition userId now later) st
  | GetTopPlayers limit now later => exec (getTopPlayers limit now later) st
  | GetRankingStats now later => exec (getRankingStats now later) st
  | ResetAllRankings => exec resetAllRankings st
  | TrackFastestPlayer sessionData today =>
      exec (trackFastestPlayer sessionData today) st
  | CalculateRanking => exec calculateRanking st
  | GetRankingFromCache now => exec (getRankingFromCache now) st
  | CacheRanking ranking now => exec (cacheRanking ranking now) st
  end.

(** ** Notions used to state the properties *)

(** The field names of an object. *)
Definition field_names (v : jsval) : list string :=
  match v with
  | JObj fields => fields.*1
  | _ => []
  end.

(** The store in which every stored question has its correct answer
    replaced by [secret q]. *)
Definition replace_answer (secret : Question.t → string) (q : Question.t)
    : Question.t := {|
  Question.id := Question.id q;
  Question.question := Question.question q;
  Question.options := Question.options q;
  Question.correctAnswer := secret q;
  Question.team := Question.team q;
  Question.createdBy := Question.createdBy q;
  Question.createdAt := Question.createdAt q
|}.

Definition replace_answers (secret : Question.t → string) (v : value) : value :=
  match v with
  | VQuestion q => VQuestion (replace_answer secret q)
  | VSession s => VSession {|
      QuizSession.sessionId := QuizSession.sessionId s;
      QuizSession.userId := QuizSession.userId s;
      QuizSession.quizId := QuizSession.quizId s;
      QuizSession.team := QuizSession.team s;
      QuizSession.questions := replace_answer secret <$> QuizSession.questions s;
      QuizSession.currentQuestion := QuizSession.currentQuestion s;
      QuizSession.score := QuizSession.score s;
      QuizSession.answers := QuizSession.answers s;
      QuizSession.startedAt := QuizSession.startedAt s;
      QuizSession.status := QuizSession.status s;
      QuizSession.completedAt := QuizSession.completedAt s
    |}
  | other => other
  end.

(** The session [submitAnswer] writes back: one more answer, the
    points added, the index advanced by one. *)
Definition answered (s : QuizSession.t) (record : Answer.t) : QuizSession.t := {|
  QuizSession.sessionId := QuizSession.sessionId s;
  QuizSession.userId := QuizSession.userId s;
  QuizSession.quizId := QuizSession.quizId s;
  QuizSession.team := QuizSession.team s;
  QuizSession.questions := QuizSession.questions s;
  QuizSession.currentQuestion := QuizSession.currentQuestion s + 1;
  QuizSession.score := QuizSession.score s + Answer.points record;
  QuizSession.answers := QuizSession.answers s ++ [record];
  QuizSession.startedAt := QuizSession.startedAt s;
  QuizSession.status := QuizSession.status s;
  QuizSession.completedAt := QuizSession.completedAt s
|}.

(** A profile after one more game that scored [delta]. *)
Definition add_game (delta : Z) (p : UserProfile.t) : UserProfile.t := {|
  UserProfile.id := UserProfile.id p;
  UserProfile.email := UserProfile.email p;
  UserProfile.name := UserProfile.name p;
  UserProfile.role := UserProfile.role p;
  UserProfile.totalScore := UserProfile.totalScore p + delta;
  UserProfile.gamesPlayed := UserProfile.gamesPlayed p + 1
|}.

(** The profile [updateUserScore] writes back: both counters after the
    [+=] of the code. *)
Definition scored (delta : Z) (p : UserProfile.t) : UserProfile.t := {|
  UserProfile.id := UserProfile.id p;
  UserProfile.email := UserProfile.email p;
  UserProfile.name := UserProfile.name p;
  UserProfile.role := UserProfile.role p;
  UserProfile.totalScore := Number_add (UserProfile.totalScore p) delta;
  UserProfile.gamesPlayed := Number_add (UserProfile.gamesPlayed p) 1
|}.

(** A safe integer, and a game whose score can be added to a profile
    within the safe integers: the counters, the score and both sums are
    safe. *)
Definition safe_integer (n : Z) : Prop := Z.abs n ≤ MAX_SAFE_INTEGER.

Definition safe_game (delta : Z) (p : UserProfile.t) : Prop :=
  safe_integer (UserProfile.totalScore p)
  ∧ safe_integer delta
  ∧ safe_integer (UserProfile.totalScore p + delta)
  ∧ safe_integer (UserProfile.gamesPlayed p)
  ∧ safe_integer (UserProfile.gamesPlayed p + 1).

(** How an operation, run on [st], may change the profile [p] stored
    for [userId] into [p']: [updateUserScore] changes the profile of
    its user only, alone or inside [finishQuiz], where the score is
    that of the session the user's pointer leads to, and within the
    safe integers it adds the score and one game;
    [resetAllRankings] zeroes both counters; nothing else touches a
    profile. *)
Definition profile_change (o : operation) (st : store) (userId : string)
    (p p' : UserProfile.t) : Prop :=
  match o with
  | UpdateUserScore user scoreToAdd =>
      p' = p
      ∨ (user = userId
         ∧ (safe_game scoreToAdd p → p' = add_game scoreToAdd p))
  | FinishQuiz user _ _ _ =>
      p' = p
      ∨ ∃ (sessionId : string) (s : QuizSession.t),
          user = userId
          ∧ st !! active_session_key user = Some (VStr sessionId)
          ∧ st !! sessionId = Some (VSession s)
          ∧ (safe_game (QuizSession.score s) p →
             p' = add_game (QuizSession.score s) p)
  | ResetAllRankings =>
      p' = p ∨ (UserProfile.totalScore p' = 0 ∧ UserProfile.gamesPlayed p' = 0)
  | _ => p' = p
  end.

(** The candidate entry [trackFastestPlayer] builds for a session of a
    user whose profile is [profile]. *)
Definition candidate (sessionData : QuizSession.t) (profile : UserProfile.t)
    (today : Z) : FastestEntry.t := {|
  FastestEntry.userId := QuizSession.userId sessionData;
  FastestEntry.name := UserProfile.name profile;
  FastestEntry.quizId := QuizSession.quizId sessionData;
  FastestEntry.durationMs := duration sessionData;
  FastestEntry.score := QuizSession.score sessionData;
  FastestEntry.completedAt :=
    default today (QuizSession.completedAt sessionData)
|}.

(** "Faster" and "strictly higher score", in the words of section 4.2. *)
Definition faster (entry current : FastestEntry.t) : Prop :=
  0 < FastestEntry.durationMs entry
  ∧ (FastestEntry.durationMs current = 0
     ∨ FastestEntry.durationMs entry < FastestEntry.durationMs current).

Definition higher_score (entry current : FastestEntry.t) : Prop :=
  FastestEntry.score current < FastestEntry.score entry.

(** "totalScore / gamesPlayed rounded to one decimal place, half away
    from zero at the tenths digit", in the words of section 4.2: the
    double nearest to [n/10], for [n] the integer nearest to
    [10·totalScore/gamesPlayed], the one away from zero on a tie. *)
Definition average_half_away (totalScore gamesPlayed : Z) : float :=
  let n := Z.sgn totalScore
           * ((2 * 10 * Z.abs totalScore + gamesPlayed) `div` (2 * gamesPlayed)) in
  (Z2F n / 10)%float.



(** Every profile stored in [st] is still stored in [st'], under the
    same key, changed as [R] allows for its user. *)
Definition evolves (R : string → UserProfile.t → UserProfile.t → Prop)
    (st st' : store) : Prop :=
  ∀ (userId : string) (p : UserProfile.t),
    st !! user_profile_key userId = Some (VProfile p) →
    ∃ p' : UserProfile.t,
      st' !! user_profile_key userId = Some (VProfile p') ∧ R userId p p'.

(** Every profile stored in [st] is stored unchanged in [st']. *)
Definition kept (st st' : store) : Prop := evolves (λ _ p p', p' = p) st st'.

(** A key that is not the key of any profile. *)
Definition foreign (key : string) : Prop :=
  ∀ userId : string, key ≠ user_profile_key userId.

(** The index at which [swap i j] puts what was at index [k]. *)
Definition transpose (i j k : nat) : nat :=
  if decide (k = i) then j else if decide (k = j) then i else k.

(** ** Sample data *)

Definition cup_question : Question.t := {|
  Question.id := "question:1";
  Question.question := "Which country won the 2002 World Cup?";
  Question.options := ["Brazil"; "Germany"; "Italy"; "France"];
  Question.correctAnswer := "Brazil";
  Question.team := "general";
  Question.createdBy := "admin";
  Question.createdAt := "2024-01-01T00:00:00.000Z"
|}.

Definition club_question : Question.t := {|
  Question.id := "question:2";
  Question.question := "Which club plays at the Maracana?";
  Question.options := ["Santos"; "Flamengo"; "Gremio"; "Bahia"];
  Question.correctAnswer := "Flamengo";
  Question.team := "flamengo";
  Question.createdBy := "admin";
  Question.createdAt := "2024-01-02T00:00:00.000Z"
|}.

Definition sample_session (userId : string) (currentQuestion score : Z)
    (status : status) (completedAt : option Z) : QuizSession.t := {|
  QuizSession.sessionId := "session:" +:+ userId +:+ ":quiz:1:1000";
  QuizSession.userId := userId;
  QuizSession.quizId := "quiz:1";
  QuizSession.team := "general";
  QuizSession.questions := [cup_question; club_question];
  QuizSession.currentQuestion := currentQuestion;
  QuizSession.score := score;
  QuizSession.answers := [];
  QuizSession.startedAt := 1000;
  QuizSession.status := status;
  QuizSession.completedAt := completedAt
|}.

Definition sample_profile (id : string) (totalScore gamesPlayed : Z)
    : UserProfile.t := {|
  UserProfile.id := id;
  UserProfile.email := id +:+ "@example.org";
  UserProfile.name := id;
  UserProfile.role := "player";
  UserProfile.totalScore := totalScore;
  UserProfile.gamesPlayed := gamesPlayed
|}.

(** A store with one quiz of two questions and the profile of [ana],
    who has not started it. *)
Definition quiz_store : store :=
  <["quiz:1" := VQuiz {|
      Quiz.id := "quiz:1"; Quiz.name := "World football";
      Quiz.description := None; Quiz.team := "general";
      Quiz.questionIds := ["question:1"; "question:2"];
      Quiz.createdBy := "admin";
      Quiz.createdAt := "2024-01-03T00:00:00.000Z";
      Quiz.timeLimit := None |}]>
  (<["question:1" := VQuestion cup_question]>
  (<["question:2" := VQuestion club_question]>
  (<[user_profile_key "ana" := VProfile (sample_profile "ana" 300 2)]> ∅))).

(** A store in which [ana] is in the middle of a quiz. *)
Definition playing_store : store :=
  <[active_session_key "ana" := VStr "session:ana:quiz:1:1000"]>
  (<["session:ana:quiz:1:1000" := VSession (sample_session "ana" 0 0 active None)]>
  (<[user_profile_key "ana" := VProfile (sample_profile "ana" 300 2)]> ∅)).

(** A store in which the pointer of [bia] leads to a session already
    marked completed: [finishQuiz] after its first write and before its
    delete of the pointer. *)
Definition stale_store : store :=
  <[active_session_key "bia" := VStr "session:bia:quiz:1:1000"]>
  (<["session:bia:quiz:1:1000" :=
       VSession (sample_session "bia" 0 0 completed (Some 9000))]> ∅).

(** A store in which [caio] has answered both questions and has not
    finished yet. *)
Definition exhausted_store : store :=
  <[active_session_key "caio" := VStr "session:caio:quiz:1:1000"]>
  (<["session:caio:quiz:1:1000" :=
       VSession (sample_session "caio" 2 100 active None)]> ∅).

(** Three players with games and one without. *)
Definition league_store : store :=
  <[user_profile_key "ana" := VProfile (sample_profile "ana" 300 2)]>
  (<[user_profile_key "bia" := VProfile (sample_profile "bia" 500 6)]>
  (<[user_profile_key "caio" := VProfile (sample_profile "caio" 100 1)]>
  (<[user_profile_key "duda" := VProfile (sample_profile "duda" 0 0)]> ∅))).


(** The ranking of [league_store]. *)
Definition league_ranking : list RankingEntry.t := [
  {| RankingEntry.position := 1; RankingEntry.userId := "bia";
     RankingEntry.name := "bia"; RankingEntry.totalScore := 500;
     RankingEntry.gamesPlayed := 6; RankingEntry.average := "83.3" |};
  {| RankingEntry.position := 2; RankingEntry.userId := "ana";
     RankingEntry.name := "ana"; RankingEntry.totalScore := 300;
     RankingEntry.gamesPlayed := 2; RankingEntry.average := "150.0" |};
  {| RankingEntry.position := 3; RankingEntry.userId := "caio";
     RankingEntry.name := "caio"; RankingEntry.totalScore := 100;
     RankingEntry.gamesPlayed := 1; RankingEntry.average := "100.0" |}
].

(** [league_store] with a ranking cached at time 50000. *)
Definition cached_store : store :=
  <[CACHE_KEY := VRanking league_ranking]>
  (<[CACHE_TIMESTAMP_KEY := VStr "50000"]> league_store).

(** A profile whose total went below zero (the profile update of the
    auth module merges any fields it is given). *)
Definition debtor_store : store :=
  <[user_profile_key "edu" := VProfile (sample_profile "edu" (-1) 4)]> ∅.

(** A finished session of a user without a profile. *)
Definition orphan_session : QuizSession.t :=
  sample_session "gil" 2 200 completed (Some 6000).

(** The fastest record of scenario C, and a slower, better run. *)
Definition record_store : store :=
  <[fastest_key "quiz:1" := VFastest {|
      FastestEntry.userId := "bia"; FastestEntry.name := "bia";
      FastestEntry.quizId := "quiz:1"; FastestEntry.durationMs := 5000;
      FastestEntry.score := 100; FastestEntry.completedAt := 6000 |}]>
  league_store.

Definition slow_session : QuizSession.t :=
  sample_session "ana" 2 150 completed (Some 9000).

(** ** Notions used by the further properties *)

(** A decimal digit character. *)
Definition is_digit (c : ascii) : Prop :=
  ∃ d : N, (d < 10)%N ∧ c = pretty_N_char d.

(** The session [startSession] writes for a quiz and the questions it
    drew. *)
Definition new_session (userId quizId : string) (team : option string)
    (quiz : Quiz.t) (questions : list Question.t) (now started : Z)
    : QuizSession.t := {|
  QuizSession.sessionId :=
    "session:" +:+ userId +:+ ":" +:+ quizId +:+ ":" +:+ toString now;
  QuizSession.userId := userId;
  QuizSession.quizId := quizId;
  QuizSession.team := or_string team (or_string (Some (Quiz.team quiz)) "general");
  QuizSession.questions := questions;
  QuizSession.currentQuestion := 0;
  QuizSession.score := 0;
  QuizSession.answers := [];
  QuizSession.startedAt := started;
  QuizSession.status := active;
  QuizSession.completedAt := None
|}.

(** The session [finishQuiz] writes back: marked completed, with its
    completion time. *)
Definition finished_session (s : QuizSession.t) (finished : Z)
    : QuizSession.t := {|
  QuizSession.sessionId := QuizSession.sessionId s;
  QuizSession.userId := QuizSession.userId s;
  QuizSession.quizId := QuizSession.quizId s;
  QuizSession.team := QuizSession.team s;
  QuizSession.questions := QuizSession.questions s;
  QuizSession.currentQuestion := QuizSession.currentQuestion s;
  QuizSession.score := QuizSession.score s;
  QuizSession.answers := QuizSession.answers s;
  QuizSession.startedAt := QuizSession.startedAt s;
  QuizSession.status := completed;
  QuizSession.completedAt := Some finished
|}.

(** The number of answers marked correct. *)
Definition correct_answers (s : QuizSession.t) : Z :=
  len (filter (λ a, Answer.correct a = true) (QuizSession.answers s)).

(** A session whose counters agree with its recorded answers: one
    answer per question passed, none past the end, 100 points per
    correct answer. *)
Definition consistent (s : QuizSession.t) : Prop :=
  QuizSession.currentQuestion s = len (QuizSession.answers s)
  ∧ QuizSession.currentQuestion s ≤ len (QuizSession.questions s)
  ∧ QuizSession.score s = 100 * correct_answers s.

(** The key layout the modules write: a profile under every
    [user_profile:] key, a fastest entry under every [fastest:] key. *)
Definition well_keyed (st : store) : Prop :=
  ∀ (key : string) (v : value),
    st !! key = Some v →
    (String.prefix "user_profile:" key = true → ∃ p, v = VProfile p)
    ∧ (String.prefix "fastest:" key = true → ∃ e, v = VFastest e).

(** The operations whose body has no [kv.set], [kv.del] or [kv.mdel]
    and calls no operation that has one. *)
Definition is_query (o : operation) : bool :=
  match o with
  | GetCurrentQuestion _ | GetSession _ | HasActiveSession _
  | GetUserStats _ | GetSessionScore _ | GetFastestByQuiz _
  | CalculateRanking | GetRankingFromCache _ => true
  | _ => false
  end.

(** The operations that read the ranking through [getGlobalRanking]. *)
Definition is_ranking_query (o : operation) : bool :=
  match o with
  | GetGlobalRanking _ _ | GetUserPosition _ _ _ | GetTopPlayers _ _ _
  | GetRankingStats _ _ => true
  | _ => false
  end.

(** Every profile is stored under the key made from its own id, as the
    modules write it. *)
Definition keyed_by_id (st : store) : Prop :=
  ∀ (key : string) (p : UserProfile.t),
    st !! key = Some (VProfile p) →
    String.prefix "user_profile:" key = true →
    key = user_profile_key (UserProfile.id p).

(** ** Route handlers of [index.ts] that call the core

    The bodies of the handlers once the caller is authenticated (and,
    for the reset, is an administrator).  What a handler's [catch]
    turns into an error response is a [Throw] here. *)

(** [POST /quiz/finish]: [finishQuiz], then [invalidateCache]. *)
Definition quiz_finish (userId : string) (finished today now : Z)
    : M FinishQuizResult.t :=
  let* result := finishQuiz userId finished today now in
  do* invalidateCache in
  ret result.

(** [POST /ranking/reset]: [resetAllRankings], then [resetAllFastest]. *)
Definition ranking_reset : M unit :=
  do* resetAllRankings in
  resetAllFastest.

(** [parseInt(c.req.param('limit')) || 10]: NaN and 0 are falsy. *)
Definition top_limit (param : string) : Z :=
  match parseInt param with
  | Some 0 | None => 10
  | Some limit => limit
  end.

(** [GET /ranking/top/:limit]. *)
Definition ranking_top (param : string) (now later : Z)
    : M (list RankingEntry.t) :=
  let limit := top_limit param in
  getTopPlayers (Some limit) now later.

(** * Properties *)

(** ** Helper facts *)

(** Closes an equation between closed terms by evaluating both sides. *)
Ltac by_compute :=
  match goal with
  | |- ?lhs = ?rhs => vm_cast_no_check (@eq_refl _ rhs)
  end.

Lemma truthy_nonempty (s : string) : s ≠ "" → truthy (Some (VStr s)) = Some (VStr s).
Proof. by destruct s. Qed.



(** ** Session engine *)



Lemma getCurrentQuestion_ok (st : store) (userId sessionId : string)
    (s : QuizSession.t) (q : Question.t) :
  st !! active_session_key userId = Some (VStr sessionId) →
  sessionId ≠ "" →
  st !! sessionId = Some (VSession s) →
  QuizSession.status s = active →
  index (QuizSession.questions s) (QuizSession.currentQuestion s) = Some q →
  getCurrentQuestion userId st =
    (Ok {|
       CurrentQuestionResult.question := JObj [
         ("id", JStr (Question.id q));
         ("question", JStr (Question.question q));
         ("options", JArr (JStr <$> Question.options q))
       ];
       CurrentQuestionResult.currentQuestion := QuizSession.currentQuestion s + 1;
       CurrentQuestionResult.totalQuestions := len (QuizSession.questions s);
       CurrentQuestionResult.score := QuizSession.score s
     |}, st).
Proof.
  intros Hptr Hne Hrec Hactive Hq.
  unfold getCurrentQuestion, bind, kv.get, raw_string, JSON_parse, ret.
  rewrite Hptr, (truthy_nonempty _ Hne), Hrec. simpl.
  by rewrite Hactive, Hq.
Qed.

Lemma truthy_Some (o : option value) (v : value) :
  truthy o = Some v → o = Some v ∧ v ≠ VStr "".
Proof.
  destruct o as [[[|c s]| | | | | | |]|]; simpl; intros; by simplify_eq.
Qed.

Lemma getCurrentQuestion_inv (st st' : store) (userId : string)
    (r : CurrentQuestionResult.t) :
  getCurrentQuestion userId st = (Ok r, st') →
  ∃ sessionId s q,
    st !! active_session_key userId = Some (VStr sessionId)
    ∧ sessionId ≠ ""
    ∧ st !! sessionId = Some (VSession s)
    ∧ QuizSession.status s = active
    ∧ index (QuizSession.questions s) (QuizSession.currentQuestion s) = Some q.
Proof.
  unfold getCurrentQuestion, bind, kv.get, raw_string, JSON_parse, ret, throw.
  destruct (truthy (st !! active_session_key userId)) as [v|] eqn:Hptr;
    [|done].
  apply truthy_Some in Hptr as [Hptr Hne].
  destruct v as [sessionId| | | | | | |]; try done.
  destruct (truthy (st !! sessionId)) as [v|] eqn:Hrec; [|done].
  apply truthy_Some in Hrec as [Hrec _].
  destruct v as [|? |? |s |? |? |? |?]; try done. simpl.
  destruct (QuizSession.status s) eqn:Hactive; [|done].
  destruct (index _ _) as [q|] eqn:Hq; [|done].
  intros _. exists sessionId, s, q. repeat split; try done.
  by intros ->.
Qed.

Lemma index_fmap {A B} (f : A → B) (l : list A) (i : Z) :
  index (f <$> l) i = f <$> index l i.
Proof. unfold index. destruct (i <? 0); [done | apply list_lookup_fmap]. Qed.

(** C2. Whenever [getCurrentQuestion] succeeds, the question object it
    returns has exactly the fields id, question and options, so no
    correctAnswer field; and the whole response stays the same when the
    correct answers stored with the questions are replaced by anything
    else, so it carries nothing read from that field. *)
Theorem getCurrentQuestion_never_reveals_answer
    (st st' : store) (userId : string) (r : CurrentQuestionResult.t) :
  getCurrentQuestion userId st = (Ok r, st') →
  field_names (CurrentQuestionResult.question r) = ["id"; "question"; "options"]
  ∧ ("correctAnswer" ∉ field_names (CurrentQuestionResult.question r))
  ∧ (∀ secret : Question.t → string,
        getCurrentQuestion userId (replace_answers secret <$> st)
        = (Ok r, replace_answers secret <$> st')).
Proof.
  intros Hok.
  destruct (getCurrentQuestion_inv _ _ _ _ Hok)
    as (sessionId & s & q & Hptr & Hne & Hrec & Hactive & Hq).
  rewrite (getCurrentQuestion_ok _ _ _ _ _ Hptr Hne Hrec Hactive Hq) in Hok.
  injection Hok as <- <-. simpl.
  split; [done|]. split.
  { intros Hin. repeat (apply elem_of_cons in Hin as [Hin|Hin]; [done|]).
    by apply elem_of_nil in Hin. }
  intros secret.
  rewrite (getCurrentQuestion_ok _ userId sessionId
             match replace_answers secret (VSession s) with
             | VSession s' => s'
             | _ => s
             end (replace_answer secret q)); simpl; try done.
  - unfold len. by rewrite length_fmap.
  - by rewrite lookup_fmap, Hptr.
  - by rewrite lookup_fmap, Hrec.
  - by rewrite index_fmap, Hq.
Qed.


Lemma getCurrentQuestion_never_reveals_answer_witness :
  field_names (JObj [
      ("id", JStr "question:1");
      ("question", JStr "Which country won the 2002 World Cup?");
      ("options", JArr (JStr <$> ["Brazil"; "Germany"; "Italy"; "France"]))
    ]) = ["id"; "question"; "options"].
Proof.
  refine (proj1 (getCurrentQuestion_never_reveals_answer playing_store
                   playing_store "ana"
                   {| CurrentQuestionResult.question := JObj [
                        ("id", JStr "question:1");
                        ("question", JStr "Which country won the 2002 World Cup?");
                        ("options", JArr (JStr <$> ["Brazil"; "Germany"; "Italy"; "France"]))
                      ];
                      CurrentQuestionResult.currentQuestion := 1;
                      CurrentQuestionResult.totalQuestions := 2;
                      CurrentQuestionResult.score := 0 |} _)).
  by_compute.
Defined.

(** C3, at the failing input.  With the pointer of a user leading to a
    session whose status is completed, [getCurrentQuestion] fails and
    leaves the store alone, while [submitAnswer] succeeds, scores the
    answer and overwrites the session record. *)
Theorem submitAnswer_accepts_completed_session :
  getCurrentQuestion "bia" stale_store
    = (Throw (Error "Quiz session is not active"), stale_store)
  ∧ submitAnswer "bia" "Brazil" stale_store
    = (Ok {|
         SubmitAnswerResult.correct := true;
         SubmitAnswerResult.correctAnswer := "Brazil";
         SubmitAnswerResult.points := 100;
         SubmitAnswerResult.totalScore := 100;
         SubmitAnswerResult.hasMoreQuestions := true
       |},
       <["session:bia:quiz:1:1000" :=
           VSession (answered (sample_session "bia" 0 0 completed (Some 9000)) {|
             Answer.questionId := "question:1";
             Answer.answer := "Brazil";
             Answer.correct := true;
             Answer.points := 100 |})]> stale_store)
  ∧ exec (submitAnswer "bia" "Brazil") stale_store ≠ stale_store.
Proof.
  split; [by_compute|]. split; [by_compute|].
  intros Heq.
  pose (index_of := λ st : store,
    QuizSession.currentQuestion
      <$> (st !! "session:bia:quiz:1:1000" ≫= as_session)).
  assert (index_of (exec (submitAnswer "bia" "Brazil") stale_store) = Some 1)
    as Hafter by (by_compute).
  assert (index_of stale_store = Some 0) as Hbefore by (by_compute).
  rewrite Heq, Hbefore in Hafter. discriminate.
Qed.

(** Past the end of the questions both operations fail and leave the
    store alone, [submitAnswer] with a [TypeError] where
    [getCurrentQuestion] reports that no question is left. *)
Lemma submitAnswer_past_the_end :
  getCurrentQuestion "caio" exhausted_store
    = (Throw (Error "No more questions"), exhausted_store)
  ∧ submitAnswer "caio" "Brazil" exhausted_store
    = (Throw (TypeError
         "Cannot read properties of undefined (reading 'correctAnswer')"),
       exhausted_store).
Proof. split; by_compute. Qed.

(** Without a pointer, or with a pointer to a missing record, both
    operations fail alike and leave the store alone. *)
Lemma lookup_failures_agree (st : store) (userId : string) :
  (truthy (st !! active_session_key userId) = None →
     getCurrentQuestion userId st = (Throw (Error "No active quiz session"), st)
     ∧ ∀ answer, submitAnswer userId answer st
                 = (Throw (Error "No active quiz session"), st))
  ∧ (∀ sessionId,
       st !! active_session_key userId = Some (VStr sessionId) →
       sessionId ≠ "" →
       truthy (st !! sessionId) = None →
       getCurrentQuestion userId st = (Throw (Error "Session not found"), st)
       ∧ ∀ answer, submitAnswer userId answer st
                   = (Throw (Error "Session not found"), st)).
Proof.
  split.
  - intros Hnone.
    unfold getCurrentQuestion, submitAnswer, bind, kv.get, throw.
    by rewrite Hnone.
  - intros sessionId Hptr Hne Hnone.
    unfold getCurrentQuestion, submitAnswer, bind, kv.get, raw_string, ret, throw.
    rewrite Hptr, (truthy_nonempty _ Hne). simpl. by rewrite Hnone.
Qed.

(** ** Who changes a profile *)

Lemma kept_refl (st : store) : kept st st.
Proof. intros u p Hp. by exists p. Qed.

Lemma kept_then (R : string → UserProfile.t → UserProfile.t → Prop)
    (st1 st2 st3 : store) :
  kept st1 st2 → evolves R st2 st3 → evolves R st1 st3.
Proof.
  intros H12 H23 u p Hp.
  destruct (H12 u p Hp) as (p' & Hp' & ->). by apply H23.
Qed.

Lemma then_kept (R : string → UserProfile.t → UserProfile.t → Prop)
    (st1 st2 st3 : store) :
  evolves R st1 st2 → kept st2 st3 → evolves R st1 st3.
Proof.
  intros H12 H23 u p Hp.
  destruct (H12 u p Hp) as (p' & Hp' & HR).
  destruct (H23 u p' Hp') as (p'' & Hp'' & ->). by exists p'.
Qed.

Lemma evolves_weaken (R R' : string → UserProfile.t → UserProfile.t → Prop)
    (st st' : store) :
  (∀ u p p', st !! user_profile_key u = Some (VProfile p) → R u p p' → R' u p p') →
  evolves R st st' → evolves R' st st'.
Proof.
  intros HR H u p Hp. destruct (H u p Hp) as (p' & Hp' & Hpp').
  exists p'. eauto.
Qed.

Lemma kept_insert_foreign (st : store) (key : string) (v : value) :
  foreign key → kept st (<[key := v]> st).
Proof.
  intros Hkey u p Hp. exists p. split; [|done].
  by rewrite lookup_insert_ne.
Qed.

Lemma kept_insert_over (st : store) (key : string) (v : value) :
  (∀ p, st !! key ≠ Some (VProfile p)) → kept st (<[key := v]> st).
Proof.
  intros Hkey u p Hp. exists p. split; [|done].
  rewrite lookup_insert_ne; [done|]. intros ->. by eapply Hkey.
Qed.

Lemma kept_delete_foreign (st : store) (key : string) :
  foreign key → kept st (delete key st).
Proof.
  intros Hkey u p Hp. exists p. split; [|done].
  by rewrite lookup_delete_ne.
Qed.

Lemma foreign_active_session_key (userId : string) :
  foreign (active_session_key userId).
Proof. intros u H. by repeat (injection H as H). Qed.

Lemma foreign_fastest_key (quizId : string) : foreign (fastest_key quizId).
Proof. intros u H. discriminate H. Qed.

Lemma foreign_session_id (rest : string) : foreign ("session:" +:+ rest).
Proof. intros u H. discriminate H. Qed.

Lemma foreign_ranking_key (rest : string) : foreign ("ranking:" +:+ rest).
Proof. intros u H. discriminate H. Qed.

Lemma foreign_CACHE_KEY : foreign CACHE_KEY.
Proof. apply (foreign_ranking_key "cache"). Qed.

Lemma foreign_CACHE_TIMESTAMP_KEY : foreign CACHE_TIMESTAMP_KEY.
Proof. apply (foreign_ranking_key "cache:timestamp"). Qed.

Lemma foreign_prefix_fastest (key : string) :
  String.prefix "fastest:" key = true → foreign key.
Proof. intros Hprefix u ->. discriminate. Qed.

Lemma user_profile_key_inj (u u' : string) :
  user_profile_key u = user_profile_key u' → u = u'.
Proof. intros H. by repeat (injection H as H). Qed.

Create HintDb profiles.

Global Hint Resolve kept_refl kept_insert_foreign kept_delete_foreign
  foreign_active_session_key foreign_fastest_key foreign_session_id
  foreign_ranking_key foreign_CACHE_KEY foreign_CACHE_TIMESTAMP_KEY : profiles.

(** Writes and deletes under foreign keys, one after the other. *)
Ltac frame_writes :=
  repeat first
    [ apply kept_refl
    | eapply kept_then;
      [| first [apply kept_insert_foreign | apply kept_delete_foreign];
         solve [auto with profiles] ] ].

Lemma exec_bind {A B} (c : M A) (k : A → M B) (st : store) :
  exec (bind c k) st
  = match c st with
    | (Ok a, st') => exec (k a) st'
    | (Throw _, st') => st'
    end.
Proof. unfold exec, bind. by destruct (c st) as [[a|e] st']. Qed.

Lemma exec_bind_ret {A B} (c : M A) (f : A → B) (st : store) :
  exec (bind c (λ a, ret (f a))) st = exec c st.
Proof. rewrite exec_bind. unfold exec, ret. by destruct (c st) as [[a|e] st']. Qed.

(** The operations that only read. *)
Lemma getCurrentQuestion_reads (userId : string) (st : store) :
  exec (getCurrentQuestion userId) st = st.
Proof.
  unfold exec, getCurrentQuestion, bind, kv.get, raw_string, JSON_parse, ret, throw.
  by repeat (case_match; simplify_eq/=).
Qed.

Lemma getSession_reads (sessionId : string) (st : store) :
  exec (getSession sessionId) st = st.
Proof.
  unfold exec, getSession, bind, kv.get, JSON_parse, ret, throw.
  by repeat (case_match; simplify_eq/=).
Qed.

Lemma hasActiveSession_reads (userId : string) (st : store) :
  exec (hasActiveSession userId) st = st.
Proof. reflexivity. Qed.

Lemma getUserStats_reads (userId : string) (st : store) :
  exec (getUserStats userId) st = st.
Proof.
  unfold exec, getUserStats, bind, kv.get, JSON_parse, ret, throw.
  by repeat (case_match; simplify_eq/=).
Qed.

Lemma getSessionScore_reads (sessionId : string) (st : store) :
  exec (getSessionScore sessionId) st = st.
Proof.
  unfold exec, getSessionScore, bind, kv.get, JSON_parse, ret, throw.
  by repeat (case_match; simplify_eq/=).
Qed.

Lemma getFastestByQuiz_reads (quizId : string) (st : store) :
  exec (getFastestByQuiz quizId) st = st.
Proof.
  unfold exec, getFastestByQuiz, bind, kv.get, JSON_parse, ret, throw.
  by repeat (case_match; simplify_eq/=).
Qed.

Lemma calculateRanking_reads (st : store) : exec calculateRanking st = st.
Proof.
  unfold exec, calculateRanking, bind, kv.getByPrefix, JSON_parse_all, ret, throw.
  by repeat (case_match; simplify_eq/=).
Qed.

Lemma getRankingFromCache_reads (now : Z) (st : store) :
  exec (getRankingFromCache now) st = st.
Proof.
  unfold exec, getRankingFromCache, bind, kv.get, JSON_parse, ret, throw.
  by repeat (case_match; simplify_eq/=).
Qed.

(** The operations that write under keys of their own. *)
Lemma startSession_keeps_profiles (userId quizId : string)
    (team : option string) (now started : Z) (random : nat → nat) (st : store) :
  kept st (exec (startSession userId quizId team now started random) st).
Proof.
  unfold exec, startSession, bind, kv.get, kv.mget, kv.set, JSON_parse,
    JSON_parse_all, ret, throw.
  repeat (case_match; simplify_eq/=); auto with profiles.
  all: frame_writes.
Qed.

Lemma submitAnswer_keeps_profiles (userId answer : string) (st : store) :
  kept st (exec (submitAnswer userId answer) st).
Proof.
  unfold exec, submitAnswer, bind, kv.get, kv.set, raw_string, JSON_parse,
    ret, throw.
  repeat (case_match; simplify_eq/=); auto with profiles.
  all: apply kept_insert_over; intros p Hp.
  all: match goal with
       | H : truthy (?m !! ?k) = Some _, Hp : ?m !! ?k = Some _ |- _ =>
           rewrite Hp in H; simplify_eq/=
       end.
Qed.

Lemma cacheRanking_keeps_profiles (ranking : list RankingEntry.t) (now : Z)
    (st : store) :
  kept st (exec (cacheRanking ranking now) st).
Proof. unfold exec, cacheRanking, bind, kv.set. simpl. frame_writes. Qed.

Lemma invalidateCache_keeps_profiles (st : store) :
  kept st (exec invalidateCache st).
Proof. unfold exec, invalidateCache, bind, kv.del. simpl. frame_writes. Qed.

Lemma getGlobalRanking_keeps_profiles (now later : Z) (st : store) :
  kept st (exec (getGlobalRanking now later) st).
Proof.
  unfold getGlobalRanking. rewrite exec_bind.
  pose proof (getRankingFromCache_reads now st) as Hcache.
  unfold exec in Hcache.
  destruct (getRankingFromCache now st) as [[[cached|]|e] st1];
    simpl in Hcache; subst st1; try apply kept_refl.
  rewrite exec_bind.
  pose proof (calculateRanking_reads st) as Hcomputed.
  unfold exec in Hcomputed.
  destruct (calculateRanking st) as [[ranking|e] st1];
    simpl in Hcomputed; subst st1; [|apply kept_refl].
  rewrite exec_bind_ret. apply cacheRanking_keeps_profiles.
Qed.

Lemma getRankingStats_keeps_profiles (now later : Z) (st : store) :
  kept st (exec (getRankingStats now later) st).
Proof.
  unfold getRankingStats. rewrite exec_bind.
  pose proof (getGlobalRanking_keeps_profiles now later st) as Hkeeps.
  unfold exec in Hkeeps |- *.
  destruct (getGlobalRanking now later st) as [[ranking|e] st']; [|done].
  by destruct (len ranking =? 0).
Qed.

Lemma foldr_delete_keeps_profiles (keys : list string) (st : store) :
  Forall foreign keys → kept st (foldr delete st keys).
Proof.
  induction 1 as [|key keys Hkey _ IH]; simpl; [apply kept_refl|].
  eapply kept_then; [exact IH | by apply kept_delete_foreign].
Qed.

Lemma scan_keys_prefixed (prefix : string) (st : store) :
  Forall (λ key, String.prefix prefix key = true) (kv.scan prefix st).*1.
Proof.
  apply Forall_fmap, Forall_forall. intros [key v] Hin. simpl.
  unfold kv.scan in Hin. apply elem_of_map_to_list in Hin.
  by apply map_lookup_filter_Some in Hin as [_ Hprefix].
Qed.

Lemma resetAllFastest_keeps_profiles (st : store) :
  kept st (exec resetAllFastest st).
Proof.
  unfold exec, resetAllFastest, bind, kv.getKeysByPrefix, kv.mdel, ret. simpl.
  case_match; simpl; [|apply kept_refl].
  apply foldr_delete_keeps_profiles.
  eapply Forall_impl; [apply scan_keys_prefixed|].
  apply foreign_prefix_fastest.
Qed.

Lemma trackFastestPlayer_keeps_profiles (sessionData : QuizSession.t)
    (today : Z) (st : store) :
  kept st (exec (trackFastestPlayer sessionData today) st).
Proof.
  unfold exec, trackFastestPlayer, bind, kv.get, kv.set, JSON_parse, ret, throw.
  repeat (case_match; simplify_eq/=); auto with profiles.
Qed.

(** Within the safe integers the [+=] of the code is the sum. *)
Lemma Number_add_safe (a b : Z) :
  safe_integer a → safe_integer b → safe_integer (a + b) →
  Number_add a b = a + b.
Proof.
  unfold safe_integer, Number_add, isSafeInteger. intros Ha Hb Hsum.
  apply Z.leb_le in Ha, Hb, Hsum. by rewrite Ha, Hb, Hsum.
Qed.

Lemma scored_safe (delta : Z) (p : UserProfile.t) :
  safe_game delta p → scored delta p = add_game delta p.
Proof.
  intros (Htotal & Hdelta & Hsum & Hgames & Hnext).
  unfold scored, add_game.
  by rewrite !Number_add_safe.
Qed.

(** The two operations that write profiles. *)
Lemma updateUserScore_adds_game (userId : string) (scoreToAdd : Z) (st : store) :
  evolves (λ u p p', p' = p ∨ (userId = u ∧ p' = scored scoreToAdd p)) st
    (exec (updateUserScore userId scoreToAdd) st).
Proof.
  unfold exec, updateUserScore, bind, kv.get, kv.set, JSON_parse, ret, throw.
  destruct (truthy (st !! user_profile_key userId)) as [v|] eqn:Hv; simpl;
    [|intros u p Hp; exists p; auto].
  apply truthy_Some in Hv as [Hv _].
  destruct (as_profile v) as [profile|] eqn:Hprofile; simpl;
    [|intros u p Hp; exists p; auto].
  destruct v; simplify_eq/=.
  intros u p Hp.
  destruct (decide (u = userId)) as [->|Hne].
  - rewrite Hv in Hp. simplify_eq. eexists. split; [apply lookup_insert_eq|].
    by right.
  - exists p. split; [|by left].
    rewrite lookup_insert_ne; [done|].
    intros Heq. by apply user_profile_key_inj in Heq.
Qed.

Lemma for_each_reset_zeroes (profiles : list UserProfile.t) (st : store) :
  evolves (λ _ p p', p' = p ∨ (UserProfile.totalScore p' = 0
                               ∧ UserProfile.gamesPlayed p' = 0))
    st (exec (for_each profiles reset_profile) st)
  ∧ ∃ st', for_each profiles reset_profile st = (Ok (), st').
Proof.
  revert st. induction profiles as [|q profiles IH]; intros st; simpl.
  - split; [|by eexists]. intros u p Hp. exists p. auto.
  - rewrite exec_bind. unfold bind, reset_profile at 1 3, kv.set. simpl.
    destruct (IH (<[user_profile_key (UserProfile.id q) :=
                      VProfile {|
                        UserProfile.id := UserProfile.id q;
                        UserProfile.email := UserProfile.email q;
                        UserProfile.name := UserProfile.name q;
                        UserProfile.role := UserProfile.role q;
                        UserProfile.totalScore := 0;
                        UserProfile.gamesPlayed := 0 |}]> st))
      as [Hrest [st' Hok]].
    split; [|rewrite Hok; by eexists].
    intros u p Hp.
    destruct (decide (user_profile_key (UserProfile.id q) = user_profile_key u))
      as [Heq|Hne].
    + destruct (Hrest u _ ltac:(rewrite Heq; apply lookup_insert_eq))
        as (p' & Hp' & [-> | Hzero]).
      * eexists. split; [exact Hp'|]. right. done.
      * exists p'. auto.
    + destruct (Hrest u p ltac:(by rewrite lookup_insert_ne))
        as (p' & Hp' & Hchange).
      exists p'. auto.
Qed.

Lemma resetAllRankings_zeroes (st : store) :
  evolves (λ _ p p', p' = p ∨ (UserProfile.totalScore p' = 0
                               ∧ UserProfile.gamesPlayed p' = 0))
    st (exec resetAllRankings st).
Proof.
  unfold resetAllRankings. rewrite exec_bind.
  unfold kv.getByPrefix at 1. rewrite exec_bind.
  unfold JSON_parse_all. destruct (mapM _ _) as [profiles|]; simpl;
    [|intros u p Hp; exists p; auto].
  rewrite exec_bind.
  destruct (for_each_reset_zeroes profiles st) as [Hloop [st' Hok]].
  unfold exec in Hloop. rewrite Hok in *. simpl in Hloop.
  eapply then_kept; [exact Hloop|].
  apply invalidateCache_keeps_profiles.
Qed.

Lemma finishQuiz_adds_game (userId : string) (finished today now : Z)
    (st : store) :
  evolves (profile_change (FinishQuiz userId finished today now) st) st
    (exec (finishQuiz userId finished today now) st).
Proof.
  unfold finishQuiz. rewrite exec_bind. unfold kv.get at 1.
  destruct (truthy (st !! active_session_key userId)) as [v|] eqn:Hv;
    [|intros u p Hp; exists p; simpl; auto].
  apply truthy_Some in Hv as [Hv _].
  rewrite exec_bind.
  destruct v as [sessionId| | | | | | |]; simpl;
    try (intros u p' Hp; exists p'; simpl; by auto).
  rewrite exec_bind. unfold kv.get at 1.
  destruct (truthy (st !! sessionId)) as [v|] eqn:Hsession;
    [|intros u p Hp; exists p; simpl; auto].
  apply truthy_Some in Hsession as [Hsession _].
  rewrite exec_bind. unfold JSON_parse.
  destruct v as [| | |s| | | |]; simpl;
    try (intros u p' Hp; exists p'; simpl; by auto).
  rewrite exec_bind. unfold kv.set at 1.
  rewrite exec_bind. unfold kv.del at 1.
  rewrite exec_bind.
  set (st2 := delete (active_session_key userId) (<[sessionId := _]> st)).
  assert (kept st st2) as Hst2.
  { eapply kept_then;
      [|apply kept_delete_foreign; auto with profiles].
    apply kept_insert_over. intros p Hp. congruence. }
  assert (∀ st3, evolves (λ u p p', p' = p ∨ (userId = u
                             ∧ p' = scored (QuizSession.score s) p)) st2 st3 →
                 evolves (profile_change (FinishQuiz userId finished today now) st)
                   st st3) as Hchange.
  { intros st3 Hst3. eapply kept_then; [exact Hst2|].
    eapply evolves_weaken; [|exact Hst3].
    intros u p p' _ [-> | [-> ->]]; simpl; [by left|].
    right. exists sessionId, s. repeat split; try done.
    intros Hsafe. by apply scored_safe. }
  pose proof (updateUserScore_adds_game userId (QuizSession.score s) st2)
    as Hupdate.
  unfold exec in Hupdate.
  destruct (updateUserScore userId (QuizSession.score s) st2)
    as [[ok | e] st3] eqn:Hst3; simpl in Hupdate; [|by apply Hchange].
  rewrite exec_bind.
  match goal with
  | |- context [trackFastestPlayer ?session today st3] =>
      pose proof (trackFastestPlayer_keeps_profiles session today st3) as Htrack;
      unfold exec in Htrack;
      destruct (trackFastestPlayer session today st3) as [[ok2 | e2] st4]
  end; simpl in Htrack.
  - rewrite exec_bind. unfold kv.set, ret, exec. simpl.
    eapply then_kept; [by apply Hchange|].
    eapply kept_then; [exact Htrack|].
    apply kept_insert_foreign. auto with profiles.
  - eapply then_kept; [by apply Hchange | exact Htrack].
Qed.

Lemma profile_change_refl (o : operation) (st : store) (userId : string)
    (p : UserProfile.t) :
  profile_change o st userId p p.
Proof. destruct o; simpl; auto. Qed.

(** C4, as amended.  Across every operation of the core a stored
    profile stays stored, and it changes only in two ways:
    [updateUserScore], called directly or by [finishQuiz] with the
    score of the finished session, changes the profile of its user
    only, and when the counters, the score and both sums are safe
    integers it adds that score to totalScore and 1 to gamesPlayed;
    [resetAllRankings] sets both to 0.  Every other operation leaves
    the profile as it was. *)
Theorem profile_changes_only_by_score_update_or_reset
    (o : operation) (st : store) (userId : string) (p : UserProfile.t) :
  st !! user_profile_key userId = Some (VProfile p) →
  ∃ p' : UserProfile.t,
    run o st !! user_profile_key userId = Some (VProfile p')
    ∧ profile_change o st userId p p'.
Proof.
  revert userId p. change (evolves (profile_change o st) st (run o st)).
  assert (∀ st', kept st st' → evolves (profile_change o st) st st') as Hkept.
  { intros st'. apply evolves_weaken. intros u p p' _ ->.
    apply profile_change_refl. }
  destruct o; unfold run;
    rewrite ?getCurrentQuestion_reads, ?getSession_reads,
      ?hasActiveSession_reads, ?getUserStats_reads, ?getSessionScore_reads,
      ?getFastestByQuiz_reads, ?calculateRanking_reads,
      ?getRankingFromCache_reads;
    try (apply Hkept, kept_refl).
  - apply Hkept, startSession_keeps_profiles.
  - apply Hkept, submitAnswer_keeps_profiles.
  - apply finishQuiz_adds_game.
  - eapply evolves_weaken;
      [|exact (updateUserScore_adds_game userId scoreToAdd st)].
    intros u p p' _ [-> | [-> ->]]; simpl; [by left|].
    right. split; [done|]. intros Hsafe. by apply scored_safe.
  - apply Hkept, resetAllFastest_keeps_profiles.
  - apply Hkept, getGlobalRanking_keeps_profiles.
  - apply Hkept, invalidateCache_keeps_profiles.
  - apply Hkept. unfold getUserPosition. rewrite exec_bind_ret.
    apply getGlobalRanking_keeps_profiles.
  - apply Hkept. unfold getTopPlayers. rewrite exec_bind_ret.
    apply getGlobalRanking_keeps_profiles.
  - apply Hkept, getRankingStats_keeps_profiles.
  - exact (resetAllRankings_zeroes st).
  - apply Hkept, trackFastestPlayer_keeps_profiles.
  - apply Hkept, cacheRanking_keeps_profiles.
Qed.

Lemma profile_changes_only_by_score_update_or_reset_witness :
  ∃ p' : UserProfile.t,
    run (FinishQuiz "ana" 9000 9000 9001) playing_store !! user_profile_key "ana"
      = Some (VProfile p')
    ∧ profile_change (FinishQuiz "ana" 9000 9000 9001) playing_store "ana"
        (sample_profile "ana" 300 2) p'.
Proof.
  apply (profile_changes_only_by_score_update_or_reset
           (FinishQuiz "ana" 9000 9000 9001) playing_store "ana"
           (sample_profile "ana" 300 2)).
  by_compute.
Defined.

(** C4 as stated fails on [resetAllRankings]: it is not
    [updateUserScore], and it takes a profile with 500 points over 6
    games down to 0 points over 0 games. *)
Lemma resetAllRankings_lowers_counters :
  league_store !! user_profile_key "bia"
    = Some (VProfile (sample_profile "bia" 500 6))
  ∧ run ResetAllRankings league_store !! user_profile_key "bia"
    = Some (VProfile (sample_profile "bia" 0 0))
  ∧ UserProfile.totalScore (sample_profile "bia" 0 0)
    < UserProfile.totalScore (sample_profile "bia" 500 6)
  ∧ UserProfile.gamesPlayed (sample_profile "bia" 0 0)
    < UserProfile.gamesPlayed (sample_profile "bia" 500 6).
Proof.
  split; [by_compute|]. split; [by_compute|].
  simpl. lia.
Qed.

(** Beyond the safe integers the [+=] of the code rounds: at 2^53 one
    more game leaves gamesPlayed as it is, while 100 more points still
    show in totalScore.  The integers read back from the sums of the
    doubles. *)
Example Number_add_beyond_safe_integers :
  Number_add 9007199254740992 1 = 9007199254740992
  ∧ Number_add 9007199254740992 100 = 9007199254741092
  ∧ Z2F (Number_add 9007199254740992 1)
    = (Z2F 9007199254740992 + Z2F 1)%float
  ∧ Z2F (Number_add 300 200) = (Z2F 300 + Z2F 200)%float
  ∧ run (UpdateUserScore "ida" 100)
        (<[user_profile_key "ida" :=
             VProfile (sample_profile "ida" 0 9007199254740992)]> ∅)
      !! user_profile_key "ida"
    = Some (VProfile (sample_profile "ida" 100 9007199254740992)).
Proof. repeat split; by_compute. Qed.

(** Finishing a quiz adds its score and one game to the profile. *)
Example finishQuiz_adds_one_game :
  run (FinishQuiz "ana" 9000 9000 9001)
      (exec (submitAnswer "ana" "Brazil") playing_store)
    !! user_profile_key "ana"
  = Some (VProfile (sample_profile "ana" 400 3)).
Proof. by_compute. Qed.

(** C5, as amended.  When the profile of the session's user is stored,
    [trackFastestPlayer] stores the candidate entry if the quiz has no
    stored entry; if it has one, it replaces it exactly when the
    candidate is faster (a positive duration, and the stored duration
    is 0 or longer) or has a strictly higher score, and otherwise
    leaves the store as it was.  When the user has no stored profile
    it stores nothing. *)
Theorem trackFastestPlayer_replaces_record
    (st : store) (sessionData : QuizSession.t) (today : Z) :
  let key := fastest_key (QuizSession.quizId sessionData) in
  (∀ profile : UserProfile.t,
     st !! user_profile_key (QuizSession.userId sessionData)
       = Some (VProfile profile) →
     let entry := candidate sessionData profile today in
     (st !! key = None →
        trackFastestPlayer sessionData today st
        = (Ok (), <[key := VFastest entry]> st))
     ∧ (∀ current : FastestEntry.t,
          st !! key = Some (VFastest current) →
          (faster entry current ∨ higher_score entry current →
             trackFastestPlayer sessionData today st
             = (Ok (), <[key := VFastest entry]> st))
          ∧ (¬ (faster entry current ∨ higher_score entry current) →
             trackFastestPlayer sessionData today st = (Ok (), st))))
  ∧ (st !! user_profile_key (QuizSession.userId sessionData) = None →
       trackFastestPlayer sessionData today st = (Ok (), st)).
Proof.
  intros key. split.
  - intros profile Hprofile entry.
    unfold trackFastestPlayer, bind, kv.get, kv.set, JSON_parse, ret.
    rewrite Hprofile. simpl. fold key.
    change {| FastestEntry.userId := QuizSession.userId sessionData;
              FastestEntry.name := UserProfile.name profile;
              FastestEntry.quizId := QuizSession.quizId sessionData;
              FastestEntry.durationMs := duration sessionData;
              FastestEntry.score := QuizSession.score sessionData;
              FastestEntry.completedAt :=
                default today (QuizSession.completedAt sessionData) |}
      with entry.
    split.
    + intros Hnone. by rewrite Hnone.
    + intros current Hcurrent. rewrite Hcurrent. simpl.
      unfold faster, higher_score. simpl.
      destruct (Z.ltb_spec 0 (duration sessionData));
        destruct (Z.eqb_spec (FastestEntry.durationMs current) 0);
        destruct (Z.ltb_spec (duration sessionData)
                             (FastestEntry.durationMs current));
        destruct (Z.ltb_spec (FastestEntry.score current)
                             (QuizSession.score sessionData));
        simpl; split; intros Hcond; try done; exfalso; lia.
  - intros Hnone. unfold trackFastestPlayer, bind, kv.get, ret.
    by rewrite Hnone.
Qed.

Lemma trackFastestPlayer_replaces_record_witness :
  trackFastestPlayer slow_session 0 record_store
  = (Ok (), <[fastest_key "quiz:1" :=
                VFastest (candidate slow_session (sample_profile "ana" 300 2) 0)]>
              record_store)
  ∧ trackFastestPlayer orphan_session 0 record_store = (Ok (), record_store).
Proof.
  split.
  - apply (proj2 (proj1 (trackFastestPlayer_replaces_record record_store
                           slow_session 0)
                    (sample_profile "ana" 300 2) ltac:(by_compute))
             {| FastestEntry.userId := "bia"; FastestEntry.name := "bia";
                FastestEntry.quizId := "quiz:1"; FastestEntry.durationMs := 5000;
                FastestEntry.score := 100; FastestEntry.completedAt := 6000 |}).
    + by_compute.
    + right. unfold higher_score. simpl. lia.
  - apply (proj2 (trackFastestPlayer_replaces_record record_store
                    orphan_session 0)).
    by_compute.
Defined.

(** C5 as stated fails when the user has no profile: the quiz has no
    stored entry, and after [trackFastestPlayer] on a finished session
    of that user it still has none. *)
Lemma trackFastestPlayer_without_profile :
  league_store !! user_profile_key (QuizSession.userId orphan_session) = None
  ∧ league_store !! fastest_key (QuizSession.quizId orphan_session) = None
  ∧ trackFastestPlayer orphan_session 0 league_store = (Ok (), league_store)
  ∧ exec (trackFastestPlayer orphan_session 0) league_store
      !! fastest_key (QuizSession.quizId orphan_session) = None.
Proof. repeat split; by_compute. Qed.

(** Scenario C: a stored record of 5000 ms with score 100 is
    overwritten by a run of 8000 ms with score 150. *)
Example trackFastestPlayer_scenario_C :
  duration slow_session = 8000
  ∧ exec (trackFastestPlayer slow_session 0) record_store !! fastest_key "quiz:1"
    = Some (VFastest {|
        FastestEntry.userId := "ana"; FastestEntry.name := "ana";
        FastestEntry.quizId := "quiz:1"; FastestEntry.durationMs := 8000;
        FastestEntry.score := 150; FastestEntry.completedAt := 9000 |}).
Proof. split; by_compute. Qed.

Lemma parseInt_nonempty (text : string) (n : Z) :
  parseInt text = Some n → text ≠ "".
Proof. by intros Hparse ->. Qed.

Lemma getRankingFromCache_hit (st : store) (now : Z)
    (cached : list RankingEntry.t) (text : string) (timestamp : Z) :
  st !! CACHE_KEY = Some (VRanking cached) →
  st !! CACHE_TIMESTAMP_KEY = Some (VStr text) →
  parseInt text = Some timestamp →
  now - timestamp ≤ CACHE_TTL_MS →
  getRankingFromCache now st = (Ok (Some cached), st).
Proof.
  intros Hcache Htext Hparse Hage.
  unfold getRankingFromCache, bind, kv.get, JSON_parse, ret.
  rewrite Hcache, Htext, (truthy_nonempty _ (parseInt_nonempty _ _ Hparse)).
  simpl. rewrite Hparse.
  destruct (Z.ltb_spec CACHE_TTL_MS (now - timestamp)); [lia | done].
Qed.

Lemma getRankingFromCache_miss (st : store) (now : Z) :
  st !! CACHE_KEY = None
  ∨ st !! CACHE_TIMESTAMP_KEY = None
  ∨ (∃ (text : string) (timestamp : Z),
       st !! CACHE_TIMESTAMP_KEY = Some (VStr text)
       ∧ parseInt text = Some timestamp
       ∧ CACHE_TTL_MS < now - timestamp) →
  getRankingFromCache now st = (Ok None, st).
Proof.
  unfold getRankingFromCache, bind, kv.get, JSON_parse, ret.
  intros [Hcache|[Htext|(text & timestamp & Htext & Hparse & Hage)]].
  - by rewrite Hcache.
  - rewrite Htext. simpl. by destruct (truthy _).
  - rewrite Htext, (truthy_nonempty _ (parseInt_nonempty _ _ Hparse)).
    destruct (truthy (st !! CACHE_KEY)); [|done].
    simpl. rewrite Hparse.
    destruct (Z.ltb_spec CACHE_TTL_MS (now - timestamp)); [done | lia].
Qed.

(** C6. [getGlobalRanking] returns the cached list as it is, and
    leaves the store alone, when the cache and its timestamp are
    present and the age [now - timestamp] is at most 30000 ms.  When
    the cache or the timestamp is absent, or the age is above 30000 ms,
    it returns the ranking computed from the profiles and overwrites
    the cache with it and the timestamp with the time of the write. *)
Theorem getGlobalRanking_reads_through_cache (st : store) (now later : Z) :
  (∀ (cached : list RankingEntry.t) (text : string) (timestamp : Z),
     st !! CACHE_KEY = Some (VRanking cached) →
     st !! CACHE_TIMESTAMP_KEY = Some (VStr text) →
     parseInt text = Some timestamp →
     now - timestamp ≤ 30000 →
     getGlobalRanking now later st = (Ok cached, st))
  ∧ (∀ computed : list RankingEntry.t,
       calculateRanking st = (Ok computed, st) →
       st !! CACHE_KEY = None
       ∨ st !! CACHE_TIMESTAMP_KEY = None
       ∨ (∃ (text : string) (timestamp : Z),
            st !! CACHE_TIMESTAMP_KEY = Some (VStr text)
            ∧ parseInt text = Some timestamp
            ∧ 30000 < now - timestamp) →
       getGlobalRanking now later st
       = (Ok computed,
          <[CACHE_TIMESTAMP_KEY := VStr (toString later)]>
            (<[CACHE_KEY := VRanking computed]> st))).
Proof.
  split.
  - intros cached text timestamp Hcache Htext Hparse Hage.
    unfold getGlobalRanking, bind.
    by rewrite (getRankingFromCache_hit _ _ _ _ _ Hcache Htext Hparse Hage).
  - intros computed Hcomputed Hmiss.
    unfold getGlobalRanking, bind.
    rewrite (getRankingFromCache_miss _ _ Hmiss), Hcomputed.
    reflexivity.
Qed.

Lemma getGlobalRanking_reads_through_cache_witness :
  getGlobalRanking 80000 80001 cached_store = (Ok league_ranking, cached_store)
  ∧ getGlobalRanking 80001 80002 cached_store
    = (Ok league_ranking,
       <[CACHE_TIMESTAMP_KEY := VStr "80002"]>
         (<[CACHE_KEY := VRanking league_ranking]> cached_store))
  ∧ getGlobalRanking 80000 80001 league_store
    = (Ok league_ranking,
       <[CACHE_TIMESTAMP_KEY := VStr "80001"]>
         (<[CACHE_KEY := VRanking league_ranking]> league_store)).
Proof.
  split; [|split].
  - apply (proj1 (getGlobalRanking_reads_through_cache cached_store 80000 80001)
             league_ranking "50000" 50000).
    + by_compute.
    + by_compute.
    + by_compute.
    + lia.
  - apply (proj2 (getGlobalRanking_reads_through_cache cached_store 80001 80002)
             league_ranking).
    + by_compute.
    + right. right. exists "50000", 50000.
      split; [by_compute|]. split; [by_compute | lia].
  - apply (proj2 (getGlobalRanking_reads_through_cache league_store 80000 80001)
             league_ranking).
    + by_compute.
    + left. by_compute.
Defined.

(** ** Ranking *)

Lemma sort_insert_Permutation {A} (compare : A → A → Z) (x : A) (l : list A) :
  sort_insert compare x l ≡ₚ x :: l.
Proof.
  induction l as [|y l IH]; simpl; [done|].
  destruct (compare x y <=? 0); [done|].
  rewrite IH. apply Permutation_swap.
Qed.


Lemma sort_insert_descending (x : UserProfile.t) (l : list UserProfile.t) :
  StronglySorted
    (λ a b, UserProfile.totalScore b ≤ UserProfile.totalScore a) l →
  StronglySorted
    (λ a b, UserProfile.totalScore b ≤ UserProfile.totalScore a)
    (sort_insert by_score_descending x l).
Proof.
  induction 1 as [|y l Hsorted IH Hy]; simpl.
  - repeat constructor.
  - unfold by_score_descending at 1.
    destruct (Z.leb_spec (UserProfile.totalScore y - UserProfile.totalScore x) 0)
      as [Hle|Hgt].
    + constructor; [by constructor|].
      constructor; [lia|].
      eapply Forall_impl; [exact Hy|]. simpl. intros z Hz. lia.
    + constructor; [done|].
      rewrite sort_insert_Permutation. constructor; [lia | done].
Qed.

Lemma sort_descending (l : list UserProfile.t) :
  StronglySorted
    (λ a b, UserProfile.totalScore b ≤ UserProfile.totalScore a)
    (sort by_score_descending l).
Proof.
  induction l as [|x l IH]; simpl; [constructor|].
  by apply sort_insert_descending.
Qed.










(** The ranking of the sample league: the player without games is
    absent, the others come by descending total. *)
Example calculateRanking_league :
  calculateRanking league_store = (Ok league_ranking, league_store).
Proof. by_compute. Qed.

Lemma slice0_nonnegative {A} (l : list A) (limit : Z) :
  0 ≤ limit → slice0 l limit = take (Z.to_nat limit) l.
Proof.
  intros Hlimit. unfold slice0, len.
  destruct (Z.ltb_spec limit 0); [lia|].
  destruct (Z.min_spec limit (Z.of_nat (length l))) as [[_ ->]|[Hle ->]]; [done|].
  rewrite Nat2Z.id, firstn_all. symmetry. apply take_ge. lia.
Qed.

Lemma slice0_negative {A} (l : list A) (limit : Z) :
  limit < 0 → slice0 l limit = take (length l - Z.to_nat (- limit)) l.
Proof.
  intros Hlimit. unfold slice0, len.
  destruct (Z.ltb_spec limit 0); [|lia].
  f_equal. lia.
Qed.

(** C8, as amended.  [getTopPlayers(limit)] returns the first [limit]
    entries of the ranking when [limit] is not negative: none for 0,
    all of them when [limit] reaches the length.  For a negative
    [limit] it returns the ranking without its last [-limit] entries,
    which is the empty list only when [-limit] reaches the length. *)
Theorem getTopPlayers_slices_ranking
    (st st' : store) (limit now later : Z) (ranking : list RankingEntry.t) :
  getGlobalRanking now later st = (Ok ranking, st') →
  ∃ top : list RankingEntry.t,
    getTopPlayers (Some limit) now later st = (Ok top, st')
    ∧ (0 ≤ limit → top = take (Z.to_nat limit) ranking)
    ∧ (limit = 0 → top = [])
    ∧ (len ranking ≤ limit → top = ranking)
    ∧ (limit < 0 →
         top = take (length ranking - Z.to_nat (- limit)) ranking
         ∧ (top = [] ↔ len ranking ≤ - limit)).
Proof.
  intros Hranking. exists (slice0 ranking limit).
  split; [|split; [|split; [|split]]].
  - unfold getTopPlayers, bind, ret. by rewrite Hranking.
  - apply slice0_nonnegative.
  - intros ->. by rewrite slice0_nonnegative.
  - intros Hall. unfold len in Hall.
    rewrite slice0_nonnegative by lia. apply take_ge. lia.
  - intros Hnegative. rewrite slice0_negative by done. split; [done|].
    unfold len. split.
    + intros Hempty. apply (f_equal length) in Hempty.
      rewrite length_take in Hempty. simpl in Hempty. lia.
    + intros Hshort.
      replace (length ranking - Z.to_nat (- limit))%nat with 0%nat by lia.
      done.
Qed.

Lemma getTopPlayers_slices_ranking_witness :
  ∃ top : list RankingEntry.t,
    getTopPlayers (Some 1000) 80000 80001 cached_store = (Ok top, cached_store)
    ∧ (0 ≤ 1000 → top = take (Z.to_nat 1000) league_ranking)
    ∧ (1000 = 0 → top = [])
    ∧ (len league_ranking ≤ 1000 → top = league_ranking)
    ∧ (1000 < 0 →
         top = take (length league_ranking - Z.to_nat (- 1000)) league_ranking
         ∧ (top = [] ↔ len league_ranking ≤ - 1000)).
Proof.
  apply (getTopPlayers_slices_ranking cached_store cached_store 1000 80000 80001
           league_ranking).
  by_compute.
Defined.

(** C8 as stated fails for a negative limit: on a leaderboard of three,
    [getTopPlayers(-1)] returns the first two entries, not none. *)
Lemma getTopPlayers_negative_limit_not_empty :
  -1 ≤ 0
  ∧ getTopPlayers (Some (-1)) 80000 80001 cached_store
    = (Ok (take 2 league_ranking), cached_store)
  ∧ take 2 league_ranking ≠ [].
Proof.
  split; [lia|]. split; [by_compute | discriminate].
Qed.

(** Scenario D: none for 0, all three for 1000. *)
Example getTopPlayers_scenario_D :
  getTopPlayers (Some 0) 80000 80001 cached_store = (Ok [], cached_store)
  ∧ getTopPlayers (Some 1000) 80000 80001 cached_store
    = (Ok league_ranking, cached_store).
Proof. split; by_compute. Qed.

(** ** Scoring engine *)

(** [nearest_ties_up s m e] is the integer [n] with
    [n - 1/2 <= x < n + 1/2] for [x = ±m·2^e]; the inequalities are
    multiplied by [2·2^(-e)]. *)
Lemma nearest_ties_up_spec (s : bool) (m : positive) (e : Z) :
  e < 0 →
  let d := 2 ^ (- e) in
  let v := if s then Z.neg m else Z.pos m in
  let n := nearest_ties_up s m e in
  (2 * n - 1) * d ≤ 2 * v < (2 * n + 1) * d.
Proof.
  intros He d v n.
  assert (0 < d) as Hd by (apply Z.pow_pos_nonneg; lia).
  unfold n, nearest_ties_up. fold d. fold v.
  pose proof (Z.mul_div_le (2 * v + d) (2 * d) ltac:(lia)).
  pose proof (Z.mul_succ_div_gt (2 * v + d) (2 * d) ltac:(lia)).
  lia.
Qed.

(** C9, as amended.  Without a stored profile [getUserStats] returns
    zeros and does not fail.  With a profile it returns the profile's
    totalScore and gamesPlayed; averageScore is 0 when gamesPlayed is
    not positive, and otherwise [Math.round(q * 10) / 10] for the
    quotient [q] of the two, where [Math.round] of a value that is not
    an integer is the nearest integer, the one towards +infinity when
    two are equally near. *)
Theorem getUserStats_average (st : store) (userId : string) :
  (st !! user_profile_key userId = None →
     getUserStats userId st
     = (Ok {| UserStats.totalScore := 0;
              UserStats.gamesPlayed := 0;
              UserStats.averageScore := 0%float |}, st))
  ∧ (∀ p : UserProfile.t,
       st !! user_profile_key userId = Some (VProfile p) →
       getUserStats userId st
       = (Ok {| UserStats.totalScore := UserProfile.totalScore p;
                UserStats.gamesPlayed := UserProfile.gamesPlayed p;
                UserStats.averageScore :=
                  if 0 <? UserProfile.gamesPlayed p
                  then (Math_round (Z2F (UserProfile.totalScore p)
                                    / Z2F (UserProfile.gamesPlayed p) * 10)
                        / 10)%float
                  else 0%float |}, st))
  ∧ (∀ (x : float) (s : bool) (m : positive) (e : Z),
       Prim2SF x = S754_finite s m e →
       e < 0 →
       ∃ n : Z,
         Math_round x
         = (if n =? 0 then (if s then PrimFloat.neg_zero else PrimFloat.zero)
            else Z2F n)
         ∧ (2 * n - 1) * 2 ^ (- e)
           ≤ 2 * (if s then Z.neg m else Z.pos m)
           < (2 * n + 1) * 2 ^ (- e)).
Proof.
  split; [|split].
  - intros Hnone. unfold getUserStats, bind, kv.get, ret. by rewrite Hnone.
  - intros p Hp. unfold getUserStats, bind, kv.get, JSON_parse, ret.
    rewrite Hp. simpl. by destruct (0 <? UserProfile.gamesPlayed p).
  - intros x s m e Hx He. exists (nearest_ties_up s m e). split.
    + unfold Math_round. rewrite Hx.
      destruct (Z.leb_spec 0 e); [lia | done].
    + by apply nearest_ties_up_spec.
Qed.

Lemma getUserStats_average_witness :
  getUserStats "gil" league_store
  = (Ok {| UserStats.totalScore := 0;
           UserStats.gamesPlayed := 0;
           UserStats.averageScore := 0%float |}, league_store)
  ∧ getUserStats "bia" league_store
    = (Ok {| UserStats.totalScore := 500;
             UserStats.gamesPlayed := 6;
             UserStats.averageScore := (Z2F 833 / 10)%float |}, league_store)
  ∧ getUserStats "duda" league_store
    = (Ok {| UserStats.totalScore := 0;
             UserStats.gamesPlayed := 0;
             UserStats.averageScore := 0%float |}, league_store).
Proof.
  split; [|split].
  - apply (proj1 (getUserStats_average league_store "gil")).
    by_compute.
  - apply (proj1 (proj2 (getUserStats_average league_store "bia"))
             (sample_profile "bia" 500 6)).
    by_compute.
  - apply (proj1 (proj2 (getUserStats_average league_store "duda"))
             (sample_profile "duda" 0 0)).
    by_compute.
Defined.

(** C9 as stated fails on a tie below zero: for totalScore -1 over 4
    games the quotient is -0.25; [Math.round(-2.5)] is -2, so the code
    returns -0.2, where rounding half away from zero gives -0.3. *)
Lemma getUserStats_tie_below_zero :
  getUserStats "edu" debtor_store
  = (Ok {| UserStats.totalScore := -1;
           UserStats.gamesPlayed := 4;
           UserStats.averageScore := (Z2F (-2) / 10)%float |}, debtor_store)
  ∧ average_half_away (-1) 4 = (Z2F (-3) / 10)%float
  ∧ (Z2F (-2) / 10)%float ≠ average_half_away (-1) 4.
Proof.
  split; [by_compute|]. split; [by_compute|].
  intros Heq.
  assert (Prim2SF (Z2F (-2) / 10) = S754_finite true 7205759403792794 (-55))
    as Hcode by (by_compute).
  assert (Prim2SF (average_half_away (-1) 4)
          = S754_finite true 5404319552844595 (-54))
    as Hclaim by (by_compute).
  rewrite Heq, Hclaim in Hcode. discriminate.
Qed.

(** ** The shuffle *)

Section shuffle_facts.
Context {T : Type}.
Implicit Types (a l : list T) (h : gmap nat (list T)).

Lemma swap_length i j a : length (swap i j a) = length a.
Proof.
  unfold swap. destruct (a !! i), (a !! j); try done.
  by rewrite !length_insert.
Qed.

Lemma transpose_inj i j : Inj (=) (=) (transpose i j).
Proof. intros x y. unfold transpose. repeat case_decide; congruence. Qed.

Lemma swap_lookup i j a k :
  (i < length a)%nat → (j < length a)%nat →
  a !! k = swap i j a !! transpose i j k.
Proof.
  intros Hi Hj. unfold swap, transpose.
  destruct (lookup_lt_is_Some_2 a i Hi) as [ai Hai].
  destruct (lookup_lt_is_Some_2 a j Hj) as [aj Haj].
  rewrite Hai, Haj.
  destruct (decide (k = i)) as [->|Hki].
  - rewrite list_lookup_insert_eq; [done | by rewrite length_insert].
  - destruct (decide (k = j)) as [->|Hkj].
    + rewrite list_lookup_insert_ne by done.
      by rewrite list_lookup_insert_eq.
    + by rewrite !list_lookup_insert_ne.
Qed.

Lemma swap_Permutation i j a :
  (i < length a)%nat → (j < length a)%nat → swap i j a ≡ₚ a.
Proof.
  intros Hi Hj. symmetry. apply Permutation_inj. split.
  - by rewrite swap_length.
  - exists (transpose i j). split; [apply transpose_inj|].
    intros k. by apply swap_lookup.
Qed.

(** The loop permutes the array it works on and touches no other. *)
Lemma shuffle_loop_spec random shuffled i h a :
  (∀ k, random k ≤ k)%nat →
  h !! shuffled = Some a →
  (i < length a ∨ (i = 0 ∧ a = []))%nat →
  ∃ a', shuffle_loop random shuffled i h !! shuffled = Some a'
        ∧ a' ≡ₚ a
        ∧ ∀ other, other ≠ shuffled →
            shuffle_loop random shuffled i h !! other = h !! other.
Proof.
  intros Hrandom. revert h a.
  induction i as [|i IH]; intros h a Ha Hi.
  - exists a. by simpl.
  - simpl. destruct Hi as [Hi|[? _]]; [|lia].
    pose proof (Hrandom (S i)) as Hj.
    destruct (IH (alter (swap (S i) (random (S i))) shuffled h)
                 (swap (S i) (random (S i)) a)) as (a' & Ha' & Hperm & Hother).
    + by rewrite lookup_alter_eq, Ha.
    + left. rewrite swap_length. lia.
    + exists a'. split; [done|]. split.
      * rewrite Hperm. apply swap_Permutation; lia.
      * intros other Hne. rewrite Hother by done.
        by rewrite lookup_alter_ne.
Qed.

(** C10. For every heap, every array on it and every sequence of
    random choices with [j] in [0, i] at step [i], [shuffleArray]
    returns a reference to another array, whose contents are a
    permutation of the input's (so of the same length), and leaves
    the input array, and every other array of the heap, as it was. *)
Theorem shuffleArray_permutes_a_copy random array h l :
  h !! array = Some l →
  (∀ i, random i ≤ i)%nat →
  ∃ l', (shuffleArray random array h).2 !! (shuffleArray random array h).1
          = Some l'
        ∧ l' ≡ₚ l
        ∧ length l' = length l
        ∧ (shuffleArray random array h).1 ≠ array
        ∧ (shuffleArray random array h).2 !! array = Some l
        ∧ ∀ other, other ≠ (shuffleArray random array h).1 →
            (shuffleArray random array h).2 !! other = h !! other.
Proof.
  intros Harray Hrandom. unfold shuffleArray. rewrite Harray. simpl.
  set (shuffled := fresh (dom h)).
  assert (h !! shuffled = None) as Hfresh.
  { apply not_elem_of_dom. apply is_fresh. }
  assert (shuffled ≠ array) as Hne by congruence.
  destruct (shuffle_loop_spec random shuffled (length l - 1)
              (<[shuffled := l]> h) l Hrandom) as (l' & Hl' & Hperm & Hother).
  - apply lookup_insert_eq.
  - destruct l; simpl; [right; done | left; lia].
  - exists l'. split; [done|]. split; [done|].
    split; [by rewrite Hperm|]. split; [done|]. split.
    + rewrite Hother by done. by rewrite lookup_insert_ne.
    + intros other Hneq. rewrite Hother by done.
      by rewrite lookup_insert_ne.
Qed.
End shuffle_facts.

Lemma shuffleArray_permutes_a_copy_witness :
  ∃ l', (shuffleArray (λ i, i `div` 2)%nat 7%nat {[ 7%nat := [1; 2; 3; 4] ]}).2
          !! (shuffleArray (λ i, i `div` 2)%nat 7%nat {[ 7%nat := [1; 2; 3; 4] ]}).1
          = Some l'
        ∧ l' ≡ₚ [1; 2; 3; 4]
        ∧ length l' = length [1; 2; 3; 4]
        ∧ (shuffleArray (λ i, i `div` 2)%nat 7%nat {[ 7%nat := [1; 2; 3; 4] ]}).1 ≠ 7%nat
        ∧ (shuffleArray (λ i, i `div` 2)%nat 7%nat {[ 7%nat := [1; 2; 3; 4] ]}).2 !! 7%nat
          = Some [1; 2; 3; 4]
        ∧ ∀ other,
            other ≠ (shuffleArray (λ i, i `div` 2)%nat 7%nat {[ 7%nat := [1; 2; 3; 4] ]}).1 →
            (shuffleArray (λ i, i `div` 2)%nat 7%nat {[ 7%nat := [1; 2; 3; 4] ]}).2 !! other
            = ({[ 7%nat := [1; 2; 3; 4] ]} : gmap nat (list Z)) !! other.
Proof.
  apply (shuffleArray_permutes_a_copy (λ i, i `div` 2)%nat 7%nat
           {[ 7%nat := [1; 2; 3; 4] ]} [1; 2; 3; 4]).
  - reflexivity.
  - intros i. apply Nat.Div0.div_le_upper_bound. lia.
Defined.

(** The draws 1, 1, 0 at steps 3, 2, 1 turn 1 2 3 4 into 3 1 4 2. *)
Example shuffled_copy_sample :
  shuffled_copy (λ i, i `div` 2)%nat [1; 2; 3; 4] = [3; 1; 4; 2].
Proof. by_compute. Qed.

(** ** Scenarios of section 8 *)

(** Scenario A: a quiz of two questions, no team filter; a right
    answer, a wrong answer, then the finish. *)
Example scenario_A :
  let started := startSession "ana" "quiz:1" None 1000 1000 (λ i, i) quiz_store in
  let first := submitAnswer "ana" "Brazil" started.2 in
  let second := submitAnswer "ana" "Santos" first.2 in
  let finish := finishQuiz "ana" 61000 61000 61001 second.2 in
  started.1 = Ok {|
    StartSessionResult.sessionId := "session:ana:quiz:1:1000";
    StartSessionResult.totalQuestions := 2;
    StartSessionResult.quizId := "quiz:1";
    StartSessionResult.timeLimit := 30 |}
  ∧ first.1 = Ok {|
      SubmitAnswerResult.correct := true;
      SubmitAnswerResult.correctAnswer := "Brazil";
      SubmitAnswerResult.points := 100;
      SubmitAnswerResult.totalScore := 100;
      SubmitAnswerResult.hasMoreQuestions := true |}
  ∧ second.1 = Ok {|
      SubmitAnswerResult.correct := false;
      SubmitAnswerResult.correctAnswer := "Flamengo";
      SubmitAnswerResult.points := 0;
      SubmitAnswerResult.totalScore := 100;
      SubmitAnswerResult.hasMoreQuestions := false |}
  ∧ finish.1 = Ok {|
      FinishQuizResult.finalScore := 100;
      FinishQuizResult.totalQuestions := 2;
      FinishQuizResult.correctAnswers := 1;
      FinishQuizResult.durationMs := 60000 |}
  ∧ finish.2 !! active_session_key "ana" = None
  ∧ finish.2 !! user_profile_key "ana"
    = Some (VProfile (sample_profile "ana" 400 3)).
Proof. cbv zeta. repeat split; by_compute. Qed.

(** Scenario B: a ranking computed at 80000 is served again at 90000
    although a profile changed in between, and is computed anew once
    the cache is invalidated. *)
Example scenario_B :
  let computed := getGlobalRanking 80000 80001 league_store in
  let changed := exec (updateUserScore "caio" 900) computed.2 in
  let again := getGlobalRanking 90000 90001 changed in
  let invalidated := exec invalidateCache again.2 in
  let anew := getGlobalRanking 90002 90003 invalidated in
  computed.1 = Ok league_ranking
  ∧ again.1 = Ok league_ranking
  ∧ anew.1 = Ok [
      {| RankingEntry.position := 1; RankingEntry.userId := "caio";
         RankingEntry.name := "caio"; RankingEntry.totalScore := 1000;
         RankingEntry.gamesPlayed := 2; RankingEntry.average := "500.0" |};
      {| RankingEntry.position := 2; RankingEntry.userId := "bia";
         RankingEntry.name := "bia"; RankingEntry.totalScore := 500;
         RankingEntry.gamesPlayed := 6; RankingEntry.average := "83.3" |};
      {| RankingEntry.position := 3; RankingEntry.userId := "ana";
         RankingEntry.name := "ana"; RankingEntry.totalScore := 300;
         RankingEntry.gamesPlayed := 2; RankingEntry.average := "150.0" |}
    ].
Proof. cbv zeta. repeat split; by_compute. Qed.

(** A tie above zero goes away from zero: 1 point over 4 games gives
    0.3, as rounding half away from zero does. *)
Example getUserStats_tie_above_zero :
  (getUserStats "fabi"
     (<[user_profile_key "fabi" := VProfile (sample_profile "fabi" 1 4)]> ∅)).1
  = Ok {| UserStats.totalScore := 1;
          UserStats.gamesPlayed := 4;
          UserStats.averageScore := average_half_away 1 4 |}.
Proof. by_compute. Qed.

(** [toFixed(1)] works on the double, not on the fraction: 3 points
    over 20 games is the double just below 0.15 and prints as 0.1; 1
    over 4 is exactly 0.25 and prints as 0.3. *)
Example toFixed1_samples :
  toFixed1 (Z2F 3 / Z2F 20) = "0.1"
  ∧ toFixed1 (Z2F 1 / Z2F 4) = "0.3"
  ∧ toFixed1 (Z2F 500 / Z2F 6) = "83.3"
  ∧ toFixed1 (Z2F (-1) / Z2F 4) = "-0.3".
Proof. repeat split; by_compute. Qed.

(** From 10^21 on [toFixed] answers in exponent notation, with the
    fewest digits that read back as the same double. *)
Example toFixed1_exponent_samples :
  toFixed1 (Z2F 1000000000000000000000 / Z2F 1) = "1e+21"
  ∧ toFixed1 (Z2F 1500000000000000000000 / Z2F 1) = "1.5e+21"
  ∧ toFixed1 (Z2F (2 ^ 70) / Z2F 1) = "1.1805916207174113e+21"
  ∧ toFixed1 (Z2F (- 1000000000000000000000) / Z2F 1) = "-1e+21"
  ∧ toFixed1 (Z2F 1000000000000000000000 / Z2F 3)
    = "333333333333333311488.0".
Proof. repeat split; by_compute. Qed.

(** * Further properties *)

(** ** Decimal text of a number and back *)

Lemma digit_cases (d : N) :
  (d < 10)%N →
  d = 0%N ∨ d = 1%N ∨ d = 2%N ∨ d = 3%N ∨ d = 4%N
  ∨ d = 5%N ∨ d = 6%N ∨ d = 7%N ∨ d = 8%N ∨ d = 9%N.
Proof. lia. Qed.

Lemma digit_value_digit (d : N) :
  (d < 10)%N → digit_value (pretty_N_char d) = Some (Z.of_N d).
Proof.
  intros Hd. destruct (digit_cases d Hd) as [->|[->|[->|[->|[->|[->|[->|[->|[->| ->]]]]]]]]];
    reflexivity.
Qed.

Lemma digits_of_pretty (x : N) (s : string) (acc : option Z) :
  (0 < x)%N →
  ∃ k : Z, 0 ≤ k
    ∧ digits 10 acc (pretty_N_go x s)
      = digits 10 (Some (default 0 acc * 10 ^ k + Z.of_N x)) s.
Proof.
  revert s acc. induction (N.lt_wf_0 x) as [x _ IH]. intros s acc Hx.
  rewrite pretty_N_go_step by done.
  assert (x `mod` 10 < 10)%N as Hdigit by (apply N.mod_lt; lia).
  pose proof (N.div_mod x 10 ltac:(lia)) as Hx10.
  destruct (decide (x `div` 10 = 0)%N) as [Hsmall|Hlarge].
  - rewrite Hsmall, pretty_N_go_0. simpl.
    rewrite (digit_value_digit _ Hdigit).
    destruct (Z.ltb_spec (Z.of_N (x `mod` 10)) 10); [|lia].
    exists 1. split; [lia|]. do 2 f_equal. lia.
  - destruct (IH (x `div` 10)%N ltac:(apply N.div_lt; lia)
                (String (pretty_N_char (x `mod` 10)) s) acc ltac:(lia))
      as (k & Hk & ->).
    simpl. rewrite (digit_value_digit _ Hdigit).
    destruct (Z.ltb_spec (Z.of_N (x `mod` 10)) 10); [|lia].
    exists (k + 1). split; [lia|]. do 2 f_equal.
    rewrite Z.pow_add_r by lia. simpl. lia.
Qed.

Lemma pretty_head (x : N) (s : string) :
  (0 < x)%N →
  ∃ (c : ascii) (r : string),
    pretty_N_go x s = String c r ∧ is_digit c
    ∧ (r = s ∨ ∃ c' r', r = String c' r' ∧ is_digit c').
Proof.
  revert s. induction (N.lt_wf_0 x) as [x _ IH]. intros s Hx.
  rewrite pretty_N_go_step by done.
  assert (is_digit (pretty_N_char (x `mod` 10))) as Hdigit.
  { eexists. split; [|done]. apply N.mod_lt. lia. }
  destruct (decide (x `div` 10 = 0)%N) as [Hsmall|Hlarge].
  - rewrite Hsmall, pretty_N_go_0. eauto 10.
  - assert (0 < x `div` 10)%N as Hpos by by apply N.neq_0_lt_0.
    assert (x `div` 10 < x)%N as Hless by (apply N.div_lt; lia).
    destruct (IH _ Hless (String (pretty_N_char (x `mod` 10)) s) Hpos)
      as (c & r & -> & Hc & [-> | Hr]); eauto 10.
Qed.

Lemma parseInt_digits (c : ascii) (r : string) :
  is_digit c →
  (r = "" ∨ ∃ c' r', r = String c' r' ∧ is_digit c') →
  parseInt (String c r) = digits 10 None (String c r).
Proof.
  intros (d & Hd & ->) Hr.
  assert (∀ n : Z, (λ m, if false then - m else m) <$> Some n = Some n) as _ by done.
  destruct (digit_cases d Hd) as [->|[->|[->|[->|[->|[->|[->|[->|[->| ->]]]]]]]]];
    try (unfold parseInt; simpl; by destruct (digits 10 _ r)).
  destruct Hr as [-> | (c' & r' & -> & d' & Hd' & ->)]; [reflexivity|].
  destruct (digit_cases d' Hd') as [->|[->|[->|[->|[->|[->|[->|[->|[->| ->]]]]]]]]];
    unfold parseInt; simpl; by destruct (digits 10 _ r').
Qed.

Lemma parseInt_pretty_N (x : N) :
  (0 < x)%N → parseInt (pretty_N_go x "") = Some (Z.of_N x).
Proof.
  intros Hx.
  destruct (pretty_head x "" Hx) as (c & r & Heq & Hc & Hr).
  rewrite Heq, parseInt_digits by done. rewrite <- Heq.
  destruct (digits_of_pretty x "" None Hx) as (k & Hk & ->). simpl.
  f_equal.
Qed.

Lemma parseInt_minus (c : ascii) (r : string) :
  is_digit c →
  parseInt (String "-" (String c r)) = Z.opp <$> parseInt (String c r).
Proof.
  intros (d & Hd & ->).
  destruct (digit_cases d Hd) as [->|[->|[->|[->|[->|[->|[->|[->|[->| ->]]]]]]]]];
    unfold parseInt; cbn;
    repeat (case_match; simplify_eq/=); try done;
    by destruct (digits _ _ _).
Qed.

(** [parseInt(n.toString())] is [n]. *)
Lemma parseInt_toString (n : Z) : parseInt (toString n) = Some n.
Proof.
  unfold toString, pretty, pretty_Z. destruct n as [|p|p]; [reflexivity|..].
  - unfold pretty, pretty_positive, pretty, pretty_N. simpl.
    by rewrite parseInt_pretty_N.
  - unfold pretty, pretty_positive, pretty, pretty_N. simpl.
    pose proof (parseInt_pretty_N (N.pos p) ltac:(lia)) as Hp.
    destruct (pretty_head (N.pos p) "" ltac:(lia)) as (c & r & Heq & Hc & Hr).
    rewrite Heq in Hp |- *.
    change ("-" +:+ String c r) with (String "-" (String c r)).
    by rewrite parseInt_minus, Hp.
Qed.

(** ** Ranking cache, further *)

Lemma scan_delete_other (prefix key : string) (st : store) :
  String.prefix prefix key = false →
  kv.scan prefix (delete key st) = kv.scan prefix st.
Proof.
  intros Hkey. unfold kv.scan. f_equal.
  rewrite map_filter_delete. apply delete_id.
  apply map_lookup_filter_None. right. intros v _. simpl. by rewrite Hkey.
Qed.

Lemma scan_insert_other (prefix key : string) (v : value) (st : store) :
  String.prefix prefix key = false →
  kv.scan prefix (<[key := v]> st) = kv.scan prefix st.
Proof.
  intros Hkey. unfold kv.scan. f_equal.
  apply map_filter_insert_not. intros y. simpl. by rewrite Hkey.
Qed.

Lemma calculateRanking_scan (st st' : store) :
  kv.scan "user_profile:" st' = kv.scan "user_profile:" st →
  (calculateRanking st').1 = (calculateRanking st).1.
Proof.
  intros Hscan.
  unfold calculateRanking, bind, kv.getByPrefix, JSON_parse_all, ret, throw.
  rewrite Hscan. by destruct (mapM _ _).
Qed.

Lemma calculateRanking_outcome (st : store) :
  calculateRanking st = ((calculateRanking st).1, st).
Proof.
  pose proof (calculateRanking_reads st) as Hreads. unfold exec in Hreads.
  by destruct (calculateRanking st) as [o st']; simplify_eq/=.
Qed.

Lemma cacheRanking_lookup (ranking : list RankingEntry.t) (written : Z)
    (st : store) :
  exec (cacheRanking ranking written) st !! CACHE_KEY = Some (VRanking ranking)
  ∧ exec (cacheRanking ranking written) st !! CACHE_TIMESTAMP_KEY
    = Some (VStr (toString written)).
Proof.
  unfold exec, cacheRanking, bind, kv.set. simpl. split.
  - rewrite lookup_insert_ne by done. apply lookup_insert_eq.
  - apply lookup_insert_eq.
Qed.

(** X1.  A ranking written by [cacheRanking] at time [written] is what
    [getRankingFromCache] returns at every time [now] with
    [now - written <= 30000], and is not returned any later. *)
Theorem cacheRanking_then_getRankingFromCache
    (st : store) (ranking : list RankingEntry.t) (written now : Z) :
  getRankingFromCache now (exec (cacheRanking ranking written) st)
  = (Ok (if bool_decide (now - written ≤ 30000) then Some ranking else None),
     exec (cacheRanking ranking written) st).
Proof.
  destruct (cacheRanking_lookup ranking written st) as [Hcache Htext].
  case_bool_decide as Hage.
  - by apply (getRankingFromCache_hit _ _ _ _ _ Hcache Htext
                (parseInt_toString written)).
  - apply getRankingFromCache_miss. right. right.
    exists (toString written), written.
    split; [done|]. split; [apply parseInt_toString|]. unfold CACHE_TTL_MS. lia.
Qed.

Lemma getGlobalRanking_miss (st : store) (now later : Z) :
  getRankingFromCache now st = (Ok None, st) →
  getGlobalRanking now later st
  = match (calculateRanking st).1 with
    | Ok computed => (Ok computed, exec (cacheRanking computed later) st)
    | Throw e => (Throw e, st)
    end.
Proof.
  intros Hmiss. unfold getGlobalRanking, bind. rewrite Hmiss.
  rewrite (calculateRanking_outcome st).
  by destruct (calculateRanking st).1.
Qed.

(** X2.  A ranking that [getGlobalRanking] computed, for want of a
    cached one, and cached at time [later] is returned again, and the
    store left alone, by every call at a time [now'] with
    [now' - later <= 30000], whatever else has changed in the store
    meanwhile (the profiles included) as long as the two cache keys
    have not. *)
Theorem getGlobalRanking_serves_cached_ranking
    (st st1 st2 : store) (now later now' later' : Z)
    (ranking : list RankingEntry.t) :
  st !! CACHE_KEY = None →
  getGlobalRanking now later st = (Ok ranking, st1) →
  st2 !! CACHE_KEY = st1 !! CACHE_KEY →
  st2 !! CACHE_TIMESTAMP_KEY = st1 !! CACHE_TIMESTAMP_KEY →
  now' - later ≤ 30000 →
  getGlobalRanking now' later' st2 = (Ok ranking, st2).
Proof.
  intros Hnone Hfirst Hcache Htext Hage.
  rewrite getGlobalRanking_miss in Hfirst
    by (apply getRankingFromCache_miss; by left).
  destruct (calculateRanking st).1 as [computed|e]; [|done].
  injection Hfirst as -> <-.
  destruct (cacheRanking_lookup ranking later st) as [Hcache1 Htext1].
  rewrite Hcache1 in Hcache. rewrite Htext1 in Htext.
  unfold getGlobalRanking, bind.
  by rewrite (getRankingFromCache_hit _ _ _ _ _ Hcache Htext
                (parseInt_toString later) Hage).
Qed.

Lemma getGlobalRanking_serves_cached_ranking_witness :
  getGlobalRanking 90000 90001
    (exec (updateUserScore "caio" 900)
       (exec (getGlobalRanking 80000 80001) league_store))
  = (Ok league_ranking,
     exec (updateUserScore "caio" 900)
       (exec (getGlobalRanking 80000 80001) league_store)).
Proof.
  apply (getGlobalRanking_serves_cached_ranking league_store
           (exec (getGlobalRanking 80000 80001) league_store) _
           80000 80001 90000 90001 league_ranking).
  - by_compute.
  - by_compute.
  - by_compute.
  - by_compute.
  - lia.
Defined.

(** X3.  After [invalidateCache], the next [getGlobalRanking] does not
    use any earlier cache: it returns what [calculateRanking] computes
    from the profiles and caches that, or fails as [calculateRanking]
    fails. *)
Theorem getGlobalRanking_after_invalidateCache (st : store) (now later : Z) :
  getGlobalRanking now later (exec invalidateCache st)
  = match (calculateRanking st).1 with
    | Ok computed =>
        (Ok computed,
         <[CACHE_TIMESTAMP_KEY := VStr (toString later)]>
           (<[CACHE_KEY := VRanking computed]> (exec invalidateCache st)))
    | Throw e => (Throw e, exec invalidateCache st)
    end.
Proof.
  assert (exec invalidateCache st
          = delete CACHE_TIMESTAMP_KEY (delete CACHE_KEY st)) as Hstore by done.
  rewrite getGlobalRanking_miss.
  - rewrite (calculateRanking_scan st (exec invalidateCache st)); [done|].
    rewrite Hstore. by rewrite !scan_delete_other.
  - apply getRankingFromCache_miss. left. rewrite Hstore.
    rewrite lookup_delete_ne by done. apply lookup_delete_eq.
Qed.

(** ** Session engine, further *)

Lemma shuffled_copy_Permutation {T} (random : nat → nat) (l : list T) :
  (∀ i, random i ≤ i)%nat → shuffled_copy random l ≡ₚ l.
Proof.
  intros Hrandom. unfold shuffled_copy, shuffleArray.
  rewrite lookup_singleton_eq. simpl.
  set (shuffled := fresh (dom _)).
  destruct (shuffle_loop_spec random shuffled (length l - 1)
              (<[shuffled := l]> {[ 0%nat := l ]}) l Hrandom)
    as (l' & Hl' & Hperm & _).
  - apply lookup_insert_eq.
  - destruct l; simpl; [right; done | left; lia].
  - by rewrite Hl'.
Qed.

Lemma len_zero {A} (l : list A) : (len l =? 0) = bool_decide (l = []).
Proof. unfold len. by destruct l. Qed.

(** What a successful [startSession] returns and writes. *)
Lemma startSession_ok (st : store) (userId quizId : string)
    (team : option string) (now started : Z) (random : nat → nat)
    (quiz : Quiz.t) (parsed : list Question.t) :
  quizId ≠ "" →
  st !! quizId = Some (VQuiz quiz) →
  Quiz.questionIds quiz ≠ [] →
  mapM as_question (omap (λ k, st !! k) (Quiz.questionIds quiz)) = Some parsed →
  filter (λ q, team_matches team q = true) parsed ≠ [] →
  let questions :=
    shuffled_copy random (filter (λ q, team_matches team q = true) parsed) in
  let session := new_session userId quizId team quiz questions now started in
  startSession userId quizId team now started random st
  = (Ok {|
       StartSessionResult.sessionId := QuizSession.sessionId session;
       StartSessionResult.totalQuestions := len questions;
       StartSessionResult.quizId := quizId;
       StartSessionResult.timeLimit :=
         match Quiz.timeLimit quiz with
         | None | Some 0 => 30
         | Some limit => limit
         end
     |},
     <[active_session_key userId := VStr (QuizSession.sessionId session)]>
       (<[QuizSession.sessionId session := VSession session]> st)).
Proof.
  intros HquizId Hquiz Hids Hparsed Hfiltered questions session.
  unfold startSession, bind, kv.get, kv.mget, kv.set, JSON_parse,
    JSON_parse_all, ret, throw.
  destruct (String.eqb_spec quizId "") as [|_]; [done|].
  rewrite Hquiz. simpl.
  rewrite len_zero, bool_decide_eq_false_2 by done.
  rewrite Hparsed. simpl.
  rewrite len_zero, bool_decide_eq_false_2 by done.
  reflexivity.
Qed.

(** X4.  When the quiz exists, lists at least one question, and at
    least one of its stored questions passes the team filter,
    [startSession] succeeds: it writes, under a session id made of the
    user, the quiz and the clock, an active session at index 0 with
    score 0 and no answers, whose questions are a permutation of the
    questions that passed the filter; it points the user's
    active-session key at it, touches no other key, and returns the id
    and the number of those questions. *)
Theorem startSession_creates_session (st : store) (userId quizId : string)
    (team : option string) (now started : Z) (random : nat → nat)
    (quiz : Quiz.t) (parsed : list Question.t) :
  quizId ≠ "" →
  st !! quizId = Some (VQuiz quiz) →
  Quiz.questionIds quiz ≠ [] →
  mapM as_question (omap (λ k, st !! k) (Quiz.questionIds quiz)) = Some parsed →
  filter (λ q, team_matches team q = true) parsed ≠ [] →
  (∀ i, random i ≤ i)%nat →
  ∃ (questions : list Question.t) (r : StartSessionResult.t),
    questions ≡ₚ filter (λ q, team_matches team q = true) parsed
    ∧ startSession userId quizId team now started random st
      = (Ok r,
         <[active_session_key userId := VStr (StartSessionResult.sessionId r)]>
           (<[StartSessionResult.sessionId r :=
                VSession (new_session userId quizId team quiz questions now started)]>
              st))
    ∧ StartSessionResult.sessionId r
      = "session:" +:+ userId +:+ ":" +:+ quizId +:+ ":" +:+ toString now
    ∧ StartSessionResult.totalQuestions r
      = len (filter (λ q, team_matches team q = true) parsed)
    ∧ StartSessionResult.quizId r = quizId.
Proof.
  intros HquizId Hquiz Hids Hparsed Hfiltered Hrandom.
  pose proof (shuffled_copy_Permutation random
                (filter (λ q, team_matches team q = true) parsed) Hrandom)
    as Hperm.
  rewrite (startSession_ok st userId quizId team now started random quiz parsed)
    by done.
  match goal with
  | |- context [(Ok ?r, _) = _] =>
      exists (shuffled_copy random
                (filter (λ q, team_matches team q = true) parsed)), r
  end.
  split; [exact Hperm|].
  split; [reflexivity|]. simpl.
  split; [done|]. split; [|done].
  unfold len. by rewrite Hperm.
Qed.

Lemma startSession_creates_session_witness :
  ∃ (questions : list Question.t) (r : StartSessionResult.t),
    questions ≡ₚ filter (λ q, team_matches (Some "flamengo") q = true)
                   [cup_question; club_question]
    ∧ startSession "ana" "quiz:1" (Some "flamengo") 1000 1001 (λ i, 0%nat)
        quiz_store
      = (Ok r,
         <[active_session_key "ana" := VStr (StartSessionResult.sessionId r)]>
           (<[StartSessionResult.sessionId r :=
                VSession (new_session "ana" "quiz:1" (Some "flamengo")
                            {| Quiz.id := "quiz:1"; Quiz.name := "World football";
                               Quiz.description := None; Quiz.team := "general";
                               Quiz.questionIds := ["question:1"; "question:2"];
                               Quiz.createdBy := "admin";
                               Quiz.createdAt := "2024-01-03T00:00:00.000Z";
                               Quiz.timeLimit := None |}
                            questions 1000 1001)]>
              quiz_store))
    ∧ StartSessionResult.sessionId r
      = "session:" +:+ "ana" +:+ ":" +:+ "quiz:1" +:+ ":" +:+ toString 1000
    ∧ StartSessionResult.totalQuestions r
      = len (filter (λ q, team_matches (Some "flamengo") q = true)
               [cup_question; club_question])
    ∧ StartSessionResult.quizId r = "quiz:1".
Proof.
  apply (startSession_creates_session quiz_store "ana" "quiz:1"
           (Some "flamengo") 1000 1001 (λ i, 0%nat)).
  - discriminate.
  - by_compute.
  - discriminate.
  - by_compute.
  - discriminate.
  - intros i. lia.
Defined.

(** X5.  [startSession] fails, and writes nothing, with 'Quiz is
    required' for an empty quiz id, 'Quiz not found' when nothing is
    stored under the id, 'No questions available for this quiz' when
    the quiz lists no question, and 'No questions available for this
    team' when none of its stored questions passes the team filter. *)
Theorem startSession_rejects (st : store) (userId quizId : string)
    (team : option string) (now started : Z) (random : nat → nat) :
  (quizId = "" →
     startSession userId quizId team now started random st
     = (Throw (Error "Quiz is required"), st))
  ∧ (quizId ≠ "" → st !! quizId = None →
       startSession userId quizId team now started random st
       = (Throw (Error "Quiz not found"), st))
  ∧ (∀ quiz : Quiz.t,
       quizId ≠ "" → st !! quizId = Some (VQuiz quiz) →
       (Quiz.questionIds quiz = [] →
          startSession userId quizId team now started random st
          = (Throw (Error "No questions available for this quiz"), st))
       ∧ (∀ parsed : list Question.t,
            Quiz.questionIds quiz ≠ [] →
            mapM as_question (omap (λ k, st !! k) (Quiz.questionIds quiz))
              = Some parsed →
            filter (λ q, team_matches team q = true) parsed = [] →
            startSession userId quizId team now started random st
            = (Throw (Error "No questions available for this team"), st))).
Proof.
  unfold startSession, bind, kv.get, kv.mget, kv.set, JSON_parse,
    JSON_parse_all, ret, throw.
  split; [by intros ->|].
  split.
  - intros HquizId Hnone.
    destruct (String.eqb_spec quizId "") as [|_]; [done|]. by rewrite Hnone.
  - intros quiz HquizId Hquiz.
    destruct (String.eqb_spec quizId "") as [|_]; [done|].
    rewrite Hquiz. simpl. split.
    + intros Hids. by rewrite Hids.
    + intros parsed Hids Hparsed Hfiltered.
      rewrite len_zero, bool_decide_eq_false_2 by done.
      rewrite Hparsed. simpl. by rewrite Hfiltered.
Qed.

Lemma startSession_rejects_witness :
  startSession "ana" "quiz:9" None 1000 1001 (λ i, i) quiz_store
  = (Throw (Error "Quiz not found"), quiz_store)
  ∧ startSession "ana" "quiz:1" (Some "santos") 1000 1001 (λ i, i)
      (<["question:1" := VQuestion club_question]> quiz_store)
    = (Throw (Error "No questions available for this team"),
       <["question:1" := VQuestion club_question]> quiz_store).
Proof.
  split.
  - apply (proj1 (proj2 (startSession_rejects quiz_store "ana" "quiz:9" None
                           1000 1001 (λ i, i)))).
    + discriminate.
    + by_compute.
  - refine (proj2 (proj2 (proj2 (startSession_rejects
                     (<["question:1" := VQuestion club_question]> quiz_store)
                     "ana" "quiz:1" (Some "santos") 1000 1001 (λ i, i)))
                     {| Quiz.id := "quiz:1"; Quiz.name := "World football";
                        Quiz.description := None; Quiz.team := "general";
                        Quiz.questionIds := ["question:1"; "question:2"];
                        Quiz.createdBy := "admin";
                        Quiz.createdAt := "2024-01-03T00:00:00.000Z";
                        Quiz.timeLimit := None |} _ _)
                     [club_question; club_question] _ _ _).
    + discriminate.
    + by_compute.
    + discriminate.
    + by_compute.
    + by_compute.
Defined.

Lemma session_id_not_pointer (userId rest : string) :
  active_session_key userId ≠ "session:" +:+ rest.
Proof. intros H. discriminate H. Qed.

(** X6.  Right after a successful [startSession], [getCurrentQuestion]
    succeeds for that user and leaves the store alone: it serves
    question number 1 of as many as passed the filter, with score 0,
    and the question it shows is one of those that passed the filter. *)
Theorem startSession_then_getCurrentQuestion (st : store)
    (userId quizId : string) (team : option string) (now started : Z)
    (random : nat → nat) (quiz : Quiz.t) (parsed : list Question.t) :
  quizId ≠ "" →
  st !! quizId = Some (VQuiz quiz) →
  Quiz.questionIds quiz ≠ [] →
  mapM as_question (omap (λ k, st !! k) (Quiz.questionIds quiz)) = Some parsed →
  filter (λ q, team_matches team q = true) parsed ≠ [] →
  (∀ i, random i ≤ i)%nat →
  let st' := exec (startSession userId quizId team now started random) st in
  ∃ q : Question.t,
    q ∈ filter (λ q, team_matches team q = true) parsed
    ∧ getCurrentQuestion userId st'
      = (Ok {|
           CurrentQuestionResult.question := JObj [
             ("id", JStr (Question.id q));
             ("question", JStr (Question.question q));
             ("options", JArr (JStr <$> Question.options q))
           ];
           CurrentQuestionResult.currentQuestion := 1;
           CurrentQuestionResult.totalQuestions :=
             len (filter (λ q, team_matches team q = true) parsed);
           CurrentQuestionResult.score := 0
         |}, st').
Proof.
  intros HquizId Hquiz Hids Hparsed Hfiltered Hrandom st'.
  pose proof (shuffled_copy_Permutation random
                (filter (λ q, team_matches team q = true) parsed) Hrandom)
    as Hperm.
  unfold st', exec.
  rewrite (startSession_ok st userId quizId team now started random quiz parsed)
    by done.
  simpl.
  destruct (shuffled_copy random
              (filter (λ q, team_matches team q = true) parsed))
    as [|q questions] eqn:Hshuffled.
  { apply Permutation_nil_l in Hperm. by rewrite Hperm in Hfiltered. }
  exists q. split.
  { rewrite <- Hperm. apply list_elem_of_here. }
  rewrite (getCurrentQuestion_ok _ userId
             ("session:" +:+ userId +:+ ":" +:+ quizId +:+ ":" +:+ toString now)
             (new_session userId quizId team quiz (q :: questions) now started)
             q).
  - simpl. do 3 f_equal. unfold len.
    by rewrite <- (Permutation_length Hperm).
  - apply lookup_insert_eq.
  - discriminate.
  - rewrite lookup_insert_ne by apply session_id_not_pointer.
    apply lookup_insert_eq.
  - done.
  - done.
Qed.

Lemma startSession_then_getCurrentQuestion_witness :
  ∃ q : Question.t,
    q ∈ filter (λ q, team_matches (Some "flamengo") q = true)
          [cup_question; club_question]
    ∧ getCurrentQuestion "ana"
        (exec (startSession "ana" "quiz:1" (Some "flamengo") 1000 1001
                 (λ i, 0%nat)) quiz_store)
      = (Ok {|
           CurrentQuestionResult.question := JObj [
             ("id", JStr (Question.id q));
             ("question", JStr (Question.question q));
             ("options", JArr (JStr <$> Question.options q))
           ];
           CurrentQuestionResult.currentQuestion := 1;
           CurrentQuestionResult.totalQuestions :=
             len (filter (λ q, team_matches (Some "flamengo") q = true)
                    [cup_question; club_question]);
           CurrentQuestionResult.score := 0
         |},
         exec (startSession "ana" "quiz:1" (Some "flamengo") 1000 1001
                 (λ i, 0%nat)) quiz_store).
Proof.
  apply (startSession_then_getCurrentQuestion quiz_store "ana" "quiz:1"
           (Some "flamengo") 1000 1001 (λ i, 0%nat)
           {| Quiz.id := "quiz:1"; Quiz.name := "World football";
              Quiz.description := None; Quiz.team := "general";
              Quiz.questionIds := ["question:1"; "question:2"];
              Quiz.createdBy := "admin";
              Quiz.createdAt := "2024-01-03T00:00:00.000Z";
              Quiz.timeLimit := None |}).
  - discriminate.
  - by_compute.
  - discriminate.
  - by_compute.
  - discriminate.
  - intros i. lia.
Defined.

(** What [submitAnswer] does when the pointer leads to a session that
    has a current question. *)
Lemma submitAnswer_run (st : store) (userId answer sessionId : string)
    (s : QuizSession.t) (q : Question.t) :
  st !! active_session_key userId = Some (VStr sessionId) →
  sessionId ≠ "" →
  st !! sessionId = Some (VSession s) →
  index (QuizSession.questions s) (QuizSession.currentQuestion s) = Some q →
  let isCorrect := (answer =? Question.correctAnswer q)%string in
  let record := {|
    Answer.questionId := Question.id q;
    Answer.answer := answer;
    Answer.correct := isCorrect;
    Answer.points := if isCorrect then 100 else 0
  |} in
  submitAnswer userId answer st
  = (Ok {|
       SubmitAnswerResult.correct := isCorrect;
       SubmitAnswerResult.correctAnswer := Question.correctAnswer q;
       SubmitAnswerResult.points := if isCorrect then 100 else 0;
       SubmitAnswerResult.totalScore :=
         QuizSession.score s + (if isCorrect then 100 else 0);
       SubmitAnswerResult.hasMoreQuestions :=
         QuizSession.currentQuestion s + 1 <? len (QuizSession.questions s)
     |},
     <[sessionId := VSession (answered s record)]> st).
Proof.
  intros Hptr Hne Hrec Hq isCorrect record.
  unfold submitAnswer, bind, kv.get, kv.set, raw_string, JSON_parse, ret.
  rewrite Hptr, (truthy_nonempty _ Hne), Hrec. simpl. by rewrite Hq.
Qed.

Lemma submitAnswer_inv (st st' : store) (userId answer : string)
    (r : SubmitAnswerResult.t) :
  submitAnswer userId answer st = (Ok r, st') →
  ∃ sessionId s q,
    st !! active_session_key userId = Some (VStr sessionId)
    ∧ sessionId ≠ ""
    ∧ st !! sessionId = Some (VSession s)
    ∧ index (QuizSession.questions s) (QuizSession.currentQuestion s) = Some q.
Proof.
  unfold submitAnswer, bind, kv.get, kv.set, raw_string, JSON_parse, ret, throw.
  destruct (truthy (st !! active_session_key userId)) as [v|] eqn:Hptr;
    [|done].
  apply truthy_Some in Hptr as [Hptr Hne].
  destruct v as [sessionId| | | | | | |]; try done.
  destruct (truthy (st !! sessionId)) as [v|] eqn:Hrec; [|done].
  apply truthy_Some in Hrec as [Hrec _].
  destruct v as [|? |? |s |? |? |? |?]; try done. simpl.
  destruct (index _ _) as [q|] eqn:Hq; [|done].
  intros _. exists sessionId, s, q. repeat split; try done.
  by intros ->.
Qed.

Lemma index_Some_bounds {A} (l : list A) (i : Z) (x : A) :
  index l i = Some x → 0 ≤ i < len l.
Proof.
  unfold index, len. destruct (Z.ltb_spec i 0); [done|].
  intros Hx. apply lookup_lt_Some in Hx. lia.
Qed.

Lemma index_in_bounds {A} (l : list A) (i : Z) :
  0 ≤ i < len l → is_Some (index l i).
Proof.
  unfold index, len. intros Hi. destruct (Z.ltb_spec i 0); [lia|].
  apply lookup_lt_is_Some. lia.
Qed.

Lemma index_past_end {A} (l : list A) (i : Z) :
  len l ≤ i → index l i = None.
Proof.
  unfold index, len. intros Hi. destruct (Z.ltb_spec i 0); [done|].
  apply lookup_ge_None. lia.
Qed.

(** X7.  For an active session, the [hasMoreQuestions] that
    [submitAnswer] returns tells what the next [getCurrentQuestion]
    does: when it is true, [getCurrentQuestion] serves the following
    question with the number advanced by one and the score that
    [submitAnswer] reported; when it is false, [getCurrentQuestion]
    fails with 'No more questions'. *)
Theorem submitAnswer_then_getCurrentQuestion
    (st st' : store) (userId answer sessionId : string)
    (s : QuizSession.t) (r : SubmitAnswerResult.t) :
  st !! active_session_key userId = Some (VStr sessionId) →
  st !! sessionId = Some (VSession s) →
  QuizSession.status s = active →
  submitAnswer userId answer st = (Ok r, st') →
  (SubmitAnswerResult.hasMoreQuestions r = true →
     ∃ next : Question.t,
       index (QuizSession.questions s) (QuizSession.currentQuestion s + 1)
         = Some next
       ∧ getCurrentQuestion userId st'
         = (Ok {|
              CurrentQuestionResult.question := JObj [
                ("id", JStr (Question.id next));
                ("question", JStr (Question.question next));
                ("options", JArr (JStr <$> Question.options next))
              ];
              CurrentQuestionResult.currentQuestion :=
                QuizSession.currentQuestion s + 2;
              CurrentQuestionResult.totalQuestions :=
                len (QuizSession.questions s);
              CurrentQuestionResult.score := SubmitAnswerResult.totalScore r
            |}, st'))
  ∧ (SubmitAnswerResult.hasMoreQuestions r = false →
       getCurrentQuestion userId st'
       = (Throw (Error "No more questions"), st')).
Proof.
  intros Hptr Hrec Hactive Hsubmit.
  destruct (submitAnswer_inv _ _ _ _ _ Hsubmit)
    as (sessionId' & s' & q & Hptr' & Hne & Hrec' & Hq).
  rewrite Hptr in Hptr'. injection Hptr' as <-.
  rewrite Hrec in Hrec'. injection Hrec' as <-.
  rewrite (submitAnswer_run _ _ _ _ _ _ Hptr Hne Hrec Hq) in Hsubmit.
  injection Hsubmit as <- <-. simpl.
  assert (sessionId ≠ active_session_key userId) as Hkeys.
  { intros ->. rewrite Hptr in Hrec. done. }
  pose proof (index_Some_bounds _ _ _ Hq) as Hbounds.
  split.
  - intros Hmore. apply Z.ltb_lt in Hmore.
    destruct (index_in_bounds (QuizSession.questions s)
                (QuizSession.currentQuestion s + 1) ltac:(lia)) as [next Hnext].
    exists next. split; [done|].
    match goal with
    | |- context [VSession (answered s ?record)] =>
        rewrite (getCurrentQuestion_ok _ userId sessionId
                   (answered s record) next); simpl; try done
    end.
    + do 3 f_equal. lia.
    + by rewrite lookup_insert_ne.
    + apply lookup_insert_eq.
  - intros Hmore. apply Z.ltb_ge in Hmore.
    unfold getCurrentQuestion, bind, kv.get, raw_string, JSON_parse, ret, throw.
    rewrite lookup_insert_ne, Hptr, (truthy_nonempty _ Hne) by done.
    rewrite lookup_insert_eq. simpl. rewrite Hactive.
    by rewrite index_past_end.
Qed.

Lemma submitAnswer_then_getCurrentQuestion_witness :
  (true = true →
     ∃ next : Question.t,
       index [cup_question; club_question] (0 + 1) = Some next
       ∧ getCurrentQuestion "ana" (exec (submitAnswer "ana" "Brazil") playing_store)
         = (Ok {|
              CurrentQuestionResult.question := JObj [
                ("id", JStr (Question.id next));
                ("question", JStr (Question.question next));
                ("options", JArr (JStr <$> Question.options next))
              ];
              CurrentQuestionResult.currentQuestion := 0 + 2;
              CurrentQuestionResult.totalQuestions := 2;
              CurrentQuestionResult.score := 100
            |}, exec (submitAnswer "ana" "Brazil") playing_store))
  ∧ (true = false →
       getCurrentQuestion "ana" (exec (submitAnswer "ana" "Brazil") playing_store)
       = (Throw (Error "No more questions"),
          exec (submitAnswer "ana" "Brazil") playing_store)).
Proof.
  apply (submitAnswer_then_getCurrentQuestion playing_store
           (exec (submitAnswer "ana" "Brazil") playing_store)
           "ana" "Brazil" "session:ana:quiz:1:1000"
           (sample_session "ana" 0 0 active None)
           {| SubmitAnswerResult.correct := true;
              SubmitAnswerResult.correctAnswer := "Brazil";
              SubmitAnswerResult.points := 100;
              SubmitAnswerResult.totalScore := 100;
              SubmitAnswerResult.hasMoreQuestions := true |}).
  - by_compute.
  - by_compute.
  - reflexivity.
  - by_compute.
Defined.

Lemma correct_answers_app (s : QuizSession.t) (record : Answer.t) :
  correct_answers (answered s record)
  = correct_answers s + (if Answer.correct record then 1 else 0).
Proof.
  unfold correct_answers, len. simpl. rewrite filter_app, length_app.
  rewrite filter_cons, filter_nil.
  destruct (decide (Answer.correct record = true)) as [Hcorrect|Hwrong].
  - rewrite Hcorrect. simpl. lia.
  - destruct (Answer.correct record); [done|]. simpl. lia.
Qed.

Lemma correct_answers_bounds (s : QuizSession.t) :
  0 ≤ correct_answers s ≤ len (QuizSession.answers s).
Proof.
  unfold correct_answers, len.
  pose proof (length_filter (λ a, Answer.correct a = true) (QuizSession.answers s)).
  lia.
Qed.

(** X8.  The session [startSession] writes has counters that agree
    with its answers (index = number of answers, index within the
    questions, score = 100 per correct answer), and every successful
    [submitAnswer] on a session whose counters agree leaves under the
    same id a session whose counters agree. *)
Theorem session_counters_stay_consistent :
  (∀ (userId quizId : string) (team : option string) (quiz : Quiz.t)
     (questions : list Question.t) (now started : Z),
     consistent (new_session userId quizId team quiz questions now started))
  ∧ (∀ (st st' : store) (userId answer sessionId : string)
       (s : QuizSession.t) (r : SubmitAnswerResult.t),
       st !! active_session_key userId = Some (VStr sessionId) →
       st !! sessionId = Some (VSession s) →
       consistent s →
       submitAnswer userId answer st = (Ok r, st') →
       ∃ s' : QuizSession.t,
         st' !! sessionId = Some (VSession s')
         ∧ consistent s'
         ∧ QuizSession.score s' = SubmitAnswerResult.totalScore r
         ∧ QuizSession.currentQuestion s' = QuizSession.currentQuestion s + 1).
Proof.
  split.
  - intros. unfold consistent, correct_answers, len. simpl. lia.
  - intros st st' userId answer sessionId s r Hptr Hrec (Hindex & Hend & Hscore)
      Hsubmit.
    destruct (submitAnswer_inv _ _ _ _ _ Hsubmit)
      as (sessionId' & s' & q & Hptr' & Hne & Hrec' & Hq).
    rewrite Hptr in Hptr'. injection Hptr' as <-.
    rewrite Hrec in Hrec'. injection Hrec' as <-.
    rewrite (submitAnswer_run _ _ _ _ _ _ Hptr Hne Hrec Hq) in Hsubmit.
    injection Hsubmit as <- <-.
    eexists. split; [apply lookup_insert_eq|].
    pose proof (index_Some_bounds _ _ _ Hq) as Hbounds.
    split; [|done]. unfold consistent.
    rewrite correct_answers_app. simpl.
    unfold len in *. rewrite length_app. simpl.
    destruct (answer =? Question.correctAnswer q)%string; lia.
Qed.

Lemma session_counters_stay_consistent_witness :
  ∃ s' : QuizSession.t,
    exec (submitAnswer "ana" "Brazil") playing_store !! "session:ana:quiz:1:1000"
      = Some (VSession s')
    ∧ consistent s'
    ∧ QuizSession.score s' = 100
    ∧ QuizSession.currentQuestion s' = 0 + 1.
Proof.
  apply (proj2 session_counters_stay_consistent playing_store
           (exec (submitAnswer "ana" "Brazil") playing_store)
           "ana" "Brazil" "session:ana:quiz:1:1000"
           (sample_session "ana" 0 0 active None)
           {| SubmitAnswerResult.correct := true;
              SubmitAnswerResult.correctAnswer := "Brazil";
              SubmitAnswerResult.points := 100;
              SubmitAnswerResult.totalScore := 100;
              SubmitAnswerResult.hasMoreQuestions := true |}).
  - by_compute.
  - by_compute.
  - unfold consistent, correct_answers, len. simpl. lia.
  - by_compute.
Defined.

(** X9.  After a successful [submitAnswer], [getSessionScore] of the
    session returns the total that [submitAnswer] reported, and
    [getSession] returns the session with the answer appended as its
    last answer record. *)
Theorem submitAnswer_then_getSession
    (st st' : store) (userId answer sessionId : string)
    (s : QuizSession.t) (r : SubmitAnswerResult.t) :
  st !! active_session_key userId = Some (VStr sessionId) →
  st !! sessionId = Some (VSession s) →
  submitAnswer userId answer st = (Ok r, st') →
  getSessionScore sessionId st' = (Ok (SubmitAnswerResult.totalScore r), st')
  ∧ ∃ (s' : QuizSession.t) (questionId : string),
      getSession sessionId st' = (Ok s', st')
      ∧ QuizSession.answers s'
        = (QuizSession.answers s ++ [ {|
            Answer.questionId := questionId;
            Answer.answer := answer;
            Answer.correct := SubmitAnswerResult.correct r;
            Answer.points := SubmitAnswerResult.points r |} ])%list
      ∧ QuizSession.questions s' = QuizSession.questions s
      ∧ QuizSession.status s' = QuizSession.status s.
Proof.
  intros Hptr Hrec Hsubmit.
  destruct (submitAnswer_inv _ _ _ _ _ Hsubmit)
    as (sessionId' & s' & q & Hptr' & Hne & Hrec' & Hq).
  rewrite Hptr in Hptr'. injection Hptr' as <-.
  rewrite Hrec in Hrec'. injection Hrec' as <-.
  rewrite (submitAnswer_run _ _ _ _ _ _ Hptr Hne Hrec Hq) in Hsubmit.
  injection Hsubmit as <- <-.
  unfold getSessionScore, getSession, bind, kv.get, JSON_parse, ret.
  rewrite lookup_insert_eq. simpl. split; [done|].
  eexists _, _. split; [reflexivity|]. simpl. done.
Qed.

Lemma submitAnswer_then_getSession_witness :
  getSessionScore "session:ana:quiz:1:1000"
    (exec (submitAnswer "ana" "Brazil") playing_store)
  = (Ok 100, exec (submitAnswer "ana" "Brazil") playing_store)
  ∧ ∃ (s' : QuizSession.t) (questionId : string),
      getSession "session:ana:quiz:1:1000"
        (exec (submitAnswer "ana" "Brazil") playing_store)
      = (Ok s', exec (submitAnswer "ana" "Brazil") playing_store)
      ∧ QuizSession.answers s'
        = ([] ++ [ {|
            Answer.questionId := questionId;
            Answer.answer := "Brazil";
            Answer.correct := true;
            Answer.points := 100 |} ])%list
      ∧ QuizSession.questions s' = [cup_question; club_question]
      ∧ QuizSession.status s' = active.
Proof.
  apply (submitAnswer_then_getSession playing_store
           (exec (submitAnswer "ana" "Brazil") playing_store)
           "ana" "Brazil" "session:ana:quiz:1:1000"
           (sample_session "ana" 0 0 active None)
           {| SubmitAnswerResult.correct := true;
              SubmitAnswerResult.correctAnswer := "Brazil";
              SubmitAnswerResult.points := 100;
              SubmitAnswerResult.totalScore := 100;
              SubmitAnswerResult.hasMoreQuestions := true |}).
  - by_compute.
  - by_compute.
  - by_compute.
Defined.

(** X10.  [hasActiveSession] answers false exactly when
    [getCurrentQuestion] fails with 'No active quiz session', and then
    [submitAnswer] and [finishQuiz] fail with it too; none of them
    writes in that case. *)
Theorem hasActiveSession_false_iff (st : store) (userId : string) :
  (hasActiveSession userId st = (Ok false, st)
   ↔ getCurrentQuestion userId st
     = (Throw (Error "No active quiz session"), st))
  ∧ (hasActiveSession userId st = (Ok false, st) →
       (∀ answer, submitAnswer userId answer st
                  = (Throw (Error "No active quiz session"), st))
       ∧ (∀ finished today now, finishQuiz userId finished today now st
                  = (Throw (Error "No active quiz session"), st))).
Proof.
  unfold hasActiveSession, getCurrentQuestion, submitAnswer, finishQuiz, bind,
    kv.get, raw_string, JSON_parse, ret, throw.
  destruct (truthy (st !! active_session_key userId)) as [v|] eqn:Hptr.
  - rewrite bool_decide_eq_true_2 by eauto.
    split; [|done]. split; [done|].
    repeat (case_match; simplify_eq/=); done.
  - rewrite bool_decide_eq_false_2 by (by intros [? ?]). done.
Qed.

Lemma hasActiveSession_false_iff_witness :
  (∀ answer, submitAnswer "ana" answer quiz_store
             = (Throw (Error "No active quiz session"), quiz_store))
  ∧ (∀ finished today now, finishQuiz "ana" finished today now quiz_store
             = (Throw (Error "No active quiz session"), quiz_store)).
Proof.
  apply (proj2 (hasActiveSession_false_iff quiz_store "ana")).
  by_compute.
Defined.

(** ** Scoring engine, further *)

Lemma prefix_split (p s : string) :
  String.prefix p s = true → ∃ rest, s = p +:+ rest.
Proof.
  revert s. induction p as [|a p IH]; intros s Hprefix.
  - by exists s.
  - destruct s as [|b s]; simpl in Hprefix; [done|].
    destruct (ascii_dec a b) as [->|]; [|done].
    destruct (IH s Hprefix) as [rest ->]. by exists rest.
Qed.

(** What a successful [finishQuiz] returns. *)
Lemma finishQuiz_inv (st st' : store) (userId : string)
    (finished today now : Z) (r : FinishQuizResult.t) :
  finishQuiz userId finished today now st = (Ok r, st') →
  ∃ sessionId s,
    st !! active_session_key userId = Some (VStr sessionId)
    ∧ st !! sessionId = Some (VSession s)
    ∧ r = {|
        FinishQuizResult.finalScore := QuizSession.score s;
        FinishQuizResult.totalQuestions := len (QuizSession.questions s);
        FinishQuizResult.correctAnswers := correct_answers s;
        FinishQuizResult.durationMs := finished - QuizSession.startedAt s
      |}.
Proof.
  unfold finishQuiz, bind at 1, kv.get at 1.
  destruct (truthy (st !! active_session_key userId)) as [v|] eqn:Hptr;
    [|done].
  apply truthy_Some in Hptr as [Hptr _].
  destruct v as [sessionId| | | | | | |]; try done.
  unfold raw_string, ret at 1, bind at 1, bind at 1, kv.get at 1.
  destruct (truthy (st !! sessionId)) as [v|] eqn:Hrec; [|done].
  apply truthy_Some in Hrec as [Hrec _].
  destruct v as [| | |s| | | |]; try done.
  unfold JSON_parse, as_session, ret at 1, bind at 1, bind at 1, kv.set at 1,
    bind at 1, kv.del at 1, bind at 1.
  destruct (updateUserScore _ _ _) as [[ok | e] st3]; [|done].
  unfold bind at 1.
  destruct (trackFastestPlayer _ _ _) as [[ok2 | e2] st4]; [|done].
  unfold bind, kv.set, ret. simpl.
  intros [= <- <-]. by exists sessionId, s.
Qed.

(** X11.  When the user's pointer leads to a session whose counters
    agree with its answers, a successful [finishQuiz] reports a final
    score of 100 per correct answer, no more correct answers than
    questions, and as duration the completion time minus the start
    time. *)
Theorem finishQuiz_totals_agree (st st' : store) (userId sessionId : string)
    (finished today now : Z) (s : QuizSession.t) (r : FinishQuizResult.t) :
  st !! active_session_key userId = Some (VStr sessionId) →
  st !! sessionId = Some (VSession s) →
  consistent s →
  finishQuiz userId finished today now st = (Ok r, st') →
  FinishQuizResult.finalScore r = 100 * FinishQuizResult.correctAnswers r
  ∧ 0 ≤ FinishQuizResult.correctAnswers r ≤ FinishQuizResult.totalQuestions r
  ∧ FinishQuizResult.totalQuestions r = len (QuizSession.questions s)
  ∧ FinishQuizResult.durationMs r = finished - QuizSession.startedAt s.
Proof.
  intros Hptr Hrec (Hindex & Hend & Hscore) Hfinish.
  destruct (finishQuiz_inv _ _ _ _ _ _ _ Hfinish)
    as (sessionId' & s' & Hptr' & Hrec' & ->).
  rewrite Hptr in Hptr'. injection Hptr' as <-.
  rewrite Hrec in Hrec'. injection Hrec' as <-.
  simpl. pose proof (correct_answers_bounds s). repeat split; lia.
Qed.

Lemma finishQuiz_totals_agree_witness :
  FinishQuizResult.finalScore
    {| FinishQuizResult.finalScore := 0; FinishQuizResult.totalQuestions := 2;
       FinishQuizResult.correctAnswers := 0;
       FinishQuizResult.durationMs := 8000 |}
  = 100 * FinishQuizResult.correctAnswers
            {| FinishQuizResult.finalScore := 0;
               FinishQuizResult.totalQuestions := 2;
               FinishQuizResult.correctAnswers := 0;
               FinishQuizResult.durationMs := 8000 |}
  ∧ 0 ≤ 0 ≤ 2
  ∧ 2 = len (QuizSession.questions (sample_session "ana" 0 0 active None))
  ∧ 8000 = 9000 - QuizSession.startedAt (sample_session "ana" 0 0 active None).
Proof.
  apply (finishQuiz_totals_agree playing_store
           (exec (finishQuiz "ana" 9000 9000 9001) playing_store)
           "ana" "session:ana:quiz:1:1000" 9000 9000 9001
           (sample_session "ana" 0 0 active None)
           {| FinishQuizResult.finalScore := 0;
              FinishQuizResult.totalQuestions := 2;
              FinishQuizResult.correctAnswers := 0;
              FinishQuizResult.durationMs := 8000 |}).
  - by_compute.
  - by_compute.
  - unfold consistent, correct_answers, len. simpl. lia.
  - by_compute.
Defined.

Lemma prefix_append (p rest : string) : String.prefix p (p +:+ rest) = true.
Proof.
  induction p as [|a p IH]; simpl; [by destruct rest|].
  by destruct (ascii_dec a a).
Qed.

Lemma well_keyed_insert (st : store) (key : string) (v : value) :
  well_keyed st →
  (String.prefix "user_profile:" key = true → ∃ p, v = VProfile p) →
  (String.prefix "fastest:" key = true → ∃ e, v = VFastest e) →
  well_keyed (<[key := v]> st).
Proof.
  intros Hst Hprofile Hfastest k w Hk.
  destruct (decide (key = k)) as [<-|Hne].
  - rewrite lookup_insert_eq in Hk. by simplify_eq.
  - rewrite lookup_insert_ne in Hk by done. by apply Hst.
Qed.

Lemma well_keyed_empty : well_keyed ∅.
Proof. intros key v Hkey. by rewrite lookup_empty in Hkey. Qed.

Lemma well_keyed_delete (st : store) (key : string) :
  well_keyed st → well_keyed (delete key st).
Proof.
  intros Hst k w Hk. apply lookup_delete_Some in Hk as [_ Hk]. by apply Hst.
Qed.

Lemma well_keyed_profile (st : store) (userId : string) :
  well_keyed st →
  st !! user_profile_key userId = None
  ∨ ∃ p, st !! user_profile_key userId = Some (VProfile p).
Proof.
  intros Hst. destruct (st !! user_profile_key userId) as [v|] eqn:Hv; [|by left].
  destruct (Hst _ _ Hv) as [Hprofile _].
  destruct (Hprofile (prefix_append "user_profile:" userId)) as [p ->]. eauto.
Qed.

Lemma well_keyed_fastest (st : store) (quizId : string) :
  well_keyed st →
  st !! fastest_key quizId = None
  ∨ ∃ e, st !! fastest_key quizId = Some (VFastest e).
Proof.
  intros Hst. destruct (st !! fastest_key quizId) as [v|] eqn:Hv; [|by left].
  destruct (Hst _ _ Hv) as [_ Hfastest].
  destruct (Hfastest (prefix_append "fastest:" quizId)) as [e ->]. eauto.
Qed.

(** With the key layout respected, [updateUserScore] does not fail. *)
Lemma updateUserScore_run (st : store) (userId : string) (scoreToAdd : Z) :
  well_keyed st →
  updateUserScore userId scoreToAdd st
  = (Ok (),
     match st !! user_profile_key userId with
     | Some (VProfile p) =>
         <[user_profile_key userId := VProfile (scored scoreToAdd p)]> st
     | _ => st
     end).
Proof.
  intros Hst. unfold updateUserScore, bind, kv.get, kv.set, JSON_parse, ret.
  by destruct (well_keyed_profile st userId Hst) as [-> | [p ->]].
Qed.

(** With the key layout respected, [trackFastestPlayer] does not fail,
    keeps the layout and writes at most the record of the quiz. *)
Lemma trackFastestPlayer_run (st : store) (sessionData : QuizSession.t)
    (today : Z) :
  well_keyed st →
  ∃ st',
    trackFastestPlayer sessionData today st = (Ok (), st')
    ∧ well_keyed st'
    ∧ ∀ key, key ≠ fastest_key (QuizSession.quizId sessionData) →
        st' !! key = st !! key.
Proof.
  intros Hst.
  unfold trackFastestPlayer, bind, kv.get, kv.set, JSON_parse, ret.
  destruct (well_keyed_profile st (QuizSession.userId sessionData) Hst)
    as [-> | [p ->]]; simpl; [by eexists|].
  destruct (well_keyed_fastest st (QuizSession.quizId sessionData) Hst)
    as [-> | [e ->]]; simpl.
  - eexists. split; [done|]. split.
    + apply well_keyed_insert; [done | intros H; discriminate H | eauto].
    + intros key Hkey. by rewrite lookup_insert_ne.
  - destruct (_ || _); eexists; (split; [done|]); split; try done.
    + apply well_keyed_insert; [done | intros H; discriminate H | eauto].
    + intros key Hkey. by rewrite lookup_insert_ne.
Qed.

Lemma session_key_layout (sessionId : string) :
  String.prefix "session:" sessionId = true →
  sessionId ≠ ""
  ∧ String.prefix "user_profile:" sessionId = false
  ∧ String.prefix "fastest:" sessionId = false
  ∧ (∀ userId, sessionId ≠ active_session_key userId)
  ∧ (∀ userId, sessionId ≠ user_profile_key userId)
  ∧ (∀ quizId, sessionId ≠ fastest_key quizId)
  ∧ (∀ rest, sessionId ≠ "ranking:" +:+ rest).
Proof.
  intros Hprefix. apply prefix_split in Hprefix as [rest ->].
  repeat split; try done; intros x H; discriminate H.
Qed.

Lemma pointer_key_layout (userId : string) :
  (∀ other, active_session_key userId ≠ user_profile_key other)
  ∧ (∀ quizId, active_session_key userId ≠ fastest_key quizId)
  ∧ (∀ rest, active_session_key userId ≠ "ranking:" +:+ rest).
Proof. repeat split; intros x H; discriminate H. Qed.

(** What [finishQuiz] does when the pointer of the user leads to a
    stored session, in a store that respects the key layout. *)
Lemma finishQuiz_run (st : store) (userId sessionId : string)
    (finished today now : Z) (s : QuizSession.t) :
  well_keyed st →
  st !! active_session_key userId = Some (VStr sessionId) →
  String.prefix "session:" sessionId = true →
  st !! sessionId = Some (VSession s) →
  ∃ st',
    finishQuiz userId finished today now st
    = (Ok {|
         FinishQuizResult.finalScore := QuizSession.score s;
         FinishQuizResult.totalQuestions := len (QuizSession.questions s);
         FinishQuizResult.correctAnswers := correct_answers s;
         FinishQuizResult.durationMs := finished - QuizSession.startedAt s
       |}, st')
    ∧ st' !! active_session_key userId = None
    ∧ st' !! sessionId = Some (VSession (finished_session s finished))
    ∧ (∀ p, st !! user_profile_key userId = Some (VProfile p) →
         st' !! user_profile_key userId
         = Some (VProfile (scored (QuizSession.score s) p)))
    ∧ (∀ p, st !! user_profile_key (QuizSession.userId s) = Some (VProfile p) →
         st !! fastest_key (QuizSession.quizId s) = None →
         st' !! fastest_key (QuizSession.quizId s)
         = Some (VFastest {|
             FastestEntry.userId := QuizSession.userId s;
             FastestEntry.name := UserProfile.name p;
             FastestEntry.quizId := QuizSession.quizId s;
             FastestEntry.durationMs := finished - QuizSession.startedAt s;
             FastestEntry.score := QuizSession.score s;
             FastestEntry.completedAt := finished |})).
Proof.
  intros Hst Hptr Hprefix Hrec.
  destruct (session_key_layout _ Hprefix)
    as (Hne & Hnot_profile & Hnot_fastest & Hnot_ptr & Hnot_pkey & Hnot_fkey
        & Hnot_history).
  destruct (pointer_key_layout userId) as (Hptr_pkey & Hptr_fkey & Hptr_history).
  set (closed := finished_session s finished).
  set (st1 := delete (active_session_key userId)
                (<[sessionId := VSession closed]> st)).
  assert (well_keyed st1) as Hst1.
  { apply well_keyed_delete, well_keyed_insert; [done|..];
      intros H; by rewrite H in *. }
  set (st2 := match st1 !! user_profile_key userId with
              | Some (VProfile p) =>
                  <[user_profile_key userId :=
                      VProfile (scored (QuizSession.score s) p)]> st1
              | _ => st1
              end).
  assert (well_keyed st2) as Hst2.
  { unfold st2. destruct (st1 !! user_profile_key userId) as [[]|]; try done.
    apply well_keyed_insert; [done | eauto | intros H; discriminate H]. }
  assert (∀ key, key ≠ user_profile_key userId → st2 !! key = st1 !! key)
    as Hframe2.
  { intros key Hkey. unfold st2.
    destruct (st1 !! user_profile_key userId) as [[]|]; try done.
    by rewrite lookup_insert_ne. }
  destruct (trackFastestPlayer_run st2 closed today Hst2)
    as (st3 & Htrack & Hst3 & Hframe3).
  set (history := "ranking:" +:+ toString now +:+ ":" +:+ userId).
  exists (<[history := VHistory {|
             HistoryRecord.userId := userId;
             HistoryRecord.sessionId := sessionId;
             HistoryRecord.score := QuizSession.score s;
             HistoryRecord.completedAt := Some finished |}]> st3).
  assert ((<[history := VHistory {|
             HistoryRecord.userId := userId;
             HistoryRecord.sessionId := sessionId;
             HistoryRecord.score := QuizSession.score s;
             HistoryRecord.completedAt := Some finished |}]> st3)
          !! active_session_key userId = None) as Hgone.
  { rewrite lookup_insert_ne by (symmetry; apply Hptr_history).
    rewrite Hframe3 by apply Hptr_fkey.
    rewrite Hframe2 by apply Hptr_pkey.
    unfold st1. by rewrite lookup_delete_eq. }
  split; [|split; [done|split; [|split]]].
  - unfold finishQuiz, bind, kv.get, kv.set, kv.del, raw_string, JSON_parse, ret.
    rewrite Hptr, (truthy_nonempty _ Hne), Hrec.
    cbn -[updateUserScore trackFastestPlayer].
    match goal with
    | |- context [updateUserScore userId _ ?x] => change x with st1
    end.
    rewrite (updateUserScore_run st1 userId (QuizSession.score s) Hst1).
    match goal with
    | |- context [trackFastestPlayer ?c today ?x] =>
        change c with closed; change x with st2
    end.
    by rewrite Htrack.
  - rewrite lookup_insert_ne by (symmetry; apply Hnot_history).
    rewrite Hframe3 by apply Hnot_fkey.
    rewrite Hframe2 by apply Hnot_pkey.
    unfold st1. rewrite lookup_delete_ne by (symmetry; apply Hnot_ptr).
    by rewrite lookup_insert_eq.
  - intros p Hp.
    rewrite lookup_insert_ne by (intros H; discriminate H).
    rewrite Hframe3 by (intros H; discriminate H).
    assert (st1 !! user_profile_key userId = Some (VProfile p)) as Hp1.
    { unfold st1. rewrite lookup_delete_ne by apply Hptr_pkey.
      rewrite lookup_insert_ne by apply Hnot_pkey. done. }
    unfold st2. rewrite Hp1. by rewrite lookup_insert_eq.
  - intros p Hp Hnone.
    rewrite lookup_insert_ne by (intros H; discriminate H).
    assert (st1 !! user_profile_key (QuizSession.userId s)
            = Some (VProfile p)) as Hp1.
    { unfold st1. rewrite lookup_delete_ne by apply Hptr_pkey.
      rewrite lookup_insert_ne by apply Hnot_pkey. done. }
    assert (∃ p2, st2 !! user_profile_key (QuizSession.userId s)
                  = Some (VProfile p2)
                  ∧ UserProfile.name p2 = UserProfile.name p)
      as (p2 & Hp2 & Hname).
    { destruct (decide (QuizSession.userId s = userId)) as [Heq|Hneq].
      - exists (scored (QuizSession.score s) p). split; [|done].
        rewrite Heq in *. unfold st2. rewrite Hp1. apply lookup_insert_eq.
      - exists p. split; [|done]. rewrite Hframe2; [done|].
        intros H. by apply user_profile_key_inj in H. }
    assert (st2 !! fastest_key (QuizSession.quizId s) = None) as Hnone2.
    { rewrite Hframe2 by (intros H; discriminate H).
      unfold st1. rewrite lookup_delete_ne by apply Hptr_fkey.
      rewrite lookup_insert_ne by apply Hnot_fkey. done. }
    unfold trackFastestPlayer, bind, kv.get, kv.set, JSON_parse, ret in Htrack.
    unfold closed, finished_session in Htrack. simpl in Htrack.
    rewrite Hp2 in Htrack. simpl in Htrack.
    rewrite Hnone2 in Htrack. simpl in Htrack.
    injection Htrack as <-.
    rewrite lookup_insert_eq. unfold duration. simpl. by rewrite Hname.
Qed.

(** X12.  [finishQuiz] closes the session for good.  In a store that
    respects the key layout, when the pointer of the user leads to a
    stored session whose id starts with [session:] (as every id made by
    [startSession] does), [finishQuiz] succeeds; afterwards the pointer
    is gone, the session is stored as completed with its completion
    time, a stored profile of the user has one more game and the
    session's score added (when its counters, the score and both sums
    are safe integers), and [getSessionScore] gives the final score.
    From then on [hasActiveSession] answers
    false, and [getCurrentQuestion], [submitAnswer] and a second
    [finishQuiz] all fail with 'No active quiz session' without
    writing. *)
Theorem finishQuiz_closes_session (st : store) (userId sessionId : string)
    (finished today now : Z) (s : QuizSession.t) :
  well_keyed st →
  st !! active_session_key userId = Some (VStr sessionId) →
  String.prefix "session:" sessionId = true →
  st !! sessionId = Some (VSession s) →
  ∃ st',
    finishQuiz userId finished today now st
    = (Ok {|
         FinishQuizResult.finalScore := QuizSession.score s;
         FinishQuizResult.totalQuestions := len (QuizSession.questions s);
         FinishQuizResult.correctAnswers := correct_answers s;
         FinishQuizResult.durationMs := finished - QuizSession.startedAt s
       |}, st')
    ∧ st' !! active_session_key userId = None
    ∧ st' !! sessionId = Some (VSession (finished_session s finished))
    ∧ (∀ p, st !! user_profile_key userId = Some (VProfile p) →
         safe_game (QuizSession.score s) p →
         st' !! user_profile_key userId
         = Some (VProfile (add_game (QuizSession.score s) p)))
    ∧ getSessionScore sessionId st' = (Ok (QuizSession.score s), st')
    ∧ hasActiveSession userId st' = (Ok false, st')
    ∧ getCurrentQuestion userId st'
      = (Throw (Error "No active quiz session"), st')
    ∧ (∀ answer, submitAnswer userId answer st'
                 = (Throw (Error "No active quiz session"), st'))
    ∧ (∀ finished' today' now',
         finishQuiz userId finished' today' now' st'
         = (Throw (Error "No active quiz session"), st')).
Proof.
  intros Hst Hptr Hprefix Hrec.
  destruct (finishQuiz_run st userId sessionId finished today now s
              Hst Hptr Hprefix Hrec)
    as (st' & Hrun & Hgone & Hclosed & Hprofile & _).
  exists st'. repeat split; try done.
  - intros p Hp Hsafe. rewrite (Hprofile p Hp). by rewrite scored_safe.
  - unfold getSessionScore, bind, kv.get, JSON_parse, ret. by rewrite Hclosed.
  - unfold hasActiveSession, bind, kv.get, ret. by rewrite Hgone.
  - unfold getCurrentQuestion, bind, kv.get, throw. by rewrite Hgone.
  - intros answer. unfold submitAnswer, bind, kv.get, throw. by rewrite Hgone.
  - intros finished' today' now'.
    unfold finishQuiz, bind, kv.get, throw. by rewrite Hgone.
Qed.

Ltac layout :=
  lazymatch goal with
  | |- well_keyed ∅ => apply well_keyed_empty
  | |- well_keyed (<[_ := _]> _) =>
      apply well_keyed_insert;
        [layout
        |let H := fresh in
         intros H; first [by eauto | vm_compute in H; discriminate H] ..]
  end.

Lemma well_keyed_playing_store : well_keyed playing_store.
Proof. unfold playing_store. layout. Qed.

Lemma finishQuiz_closes_session_witness :
  ∃ st',
    finishQuiz "ana" 9000 9000 9001 playing_store
    = (Ok {|
         FinishQuizResult.finalScore := 0;
         FinishQuizResult.totalQuestions := 2;
         FinishQuizResult.correctAnswers := 0;
         FinishQuizResult.durationMs := 8000
       |}, st')
    ∧ st' !! active_session_key "ana" = None
    ∧ st' !! "session:ana:quiz:1:1000"
      = Some (VSession (sample_session "ana" 0 0 completed (Some 9000)))
    ∧ st' !! user_profile_key "ana"
      = Some (VProfile (sample_profile "ana" 300 3))
    ∧ hasActiveSession "ana" st' = (Ok false, st').
Proof.
  destruct (finishQuiz_closes_session playing_store "ana"
              "session:ana:quiz:1:1000" 9000 9000 9001
              (sample_session "ana" 0 0 active None))
    as (st' & Hrun & Hgone & Hclosed & Hprofile & _ & Hactive & _).
  - apply well_keyed_playing_store.
  - by_compute.
  - reflexivity.
  - by_compute.
  - assert (playing_store !! user_profile_key "ana"
            = Some (VProfile (sample_profile "ana" 300 2))) as Hp
      by by_compute.
    assert (safe_game 0 (sample_profile "ana" 300 2)) as Hsafe
      by (unfold safe_game, safe_integer, MAX_SAFE_INTEGER; simpl; lia).
    exists st'. split; [exact Hrun|]. split; [exact Hgone|].
    split; [exact Hclosed|]. split; [|exact Hactive].
    exact (Hprofile _ Hp Hsafe).
Defined.

(** X13.  A score update shows in the statistics.  For a user with a
    stored profile, [updateUserScore] succeeds and changes no other
    user's statistics; when the counters of the profile, the score and
    both sums are safe integers, [getUserStats] afterwards reports the
    profile's total plus the added score and one more game. *)
Theorem updateUserScore_then_getUserStats (st : store) (userId : string)
    (scoreToAdd : Z) (p : UserProfile.t) :
  st !! user_profile_key userId = Some (VProfile p) →
  safe_game scoreToAdd p →
  let st' := exec (updateUserScore userId scoreToAdd) st in
  updateUserScore userId scoreToAdd st = (Ok (), st')
  ∧ (∃ r, getUserStats userId st' = (Ok r, st')
          ∧ UserStats.totalScore r = UserProfile.totalScore p + scoreToAdd
          ∧ UserStats.gamesPlayed r = UserProfile.gamesPlayed p + 1)
  ∧ ∀ other, other ≠ userId →
      getUserStats other st' = ((getUserStats other st).1, st').
Proof.
  intros Hp Hsafe st'.
  assert (updateUserScore userId scoreToAdd st
          = (Ok (), <[user_profile_key userId :=
                        VProfile (add_game scoreToAdd p)]> st)) as Hrun.
  { rewrite <- (scored_safe _ _ Hsafe).
    unfold updateUserScore, bind, kv.get, kv.set, JSON_parse, ret.
    by rewrite Hp. }
  assert (st' = <[user_profile_key userId :=
                    VProfile (add_game scoreToAdd p)]> st) as Hst'.
  { unfold st', exec. by rewrite Hrun. }
  split; [by rewrite Hrun, Hst'|]. split.
  - eexists. split.
    + unfold getUserStats, bind, kv.get, JSON_parse, ret.
      rewrite Hst', lookup_insert_eq. simpl. reflexivity.
    + done.
  - intros other Hother.
    unfold getUserStats, bind, kv.get, JSON_parse, ret, throw.
    rewrite Hst', lookup_insert_ne
      by (intros H; apply user_profile_key_inj in H; congruence).
    destruct (truthy (st !! user_profile_key other)) as [v|]; [|done].
    by destruct (as_profile v).
Qed.

Lemma updateUserScore_then_getUserStats_witness :
  updateUserScore "ana" 200 league_store
  = (Ok (), exec (updateUserScore "ana" 200) league_store)
  ∧ (∃ r, getUserStats "ana" (exec (updateUserScore "ana" 200) league_store)
          = (Ok r, exec (updateUserScore "ana" 200) league_store)
          ∧ UserStats.totalScore r = 300 + 200
          ∧ UserStats.gamesPlayed r = 2 + 1)
  ∧ ∀ other, other ≠ "ana" →
      getUserStats other (exec (updateUserScore "ana" 200) league_store)
      = ((getUserStats other league_store).1,
         exec (updateUserScore "ana" 200) league_store).
Proof.
  apply (updateUserScore_then_getUserStats league_store "ana" 200
           (sample_profile "ana" 300 2)).
  - by_compute.
  - unfold safe_game, safe_integer, MAX_SAFE_INTEGER. simpl. lia.
Defined.

Lemma foldr_delete_lookup (keys : list string) (st : store) (key : string) :
  foldr delete st keys !! key
  = if decide (key ∈ keys) then None else st !! key.
Proof.
  induction keys as [|k keys IH]; simpl; [done|].
  destruct (decide (k = key)) as [->|Hne].
  - rewrite lookup_delete_eq. rewrite decide_True; [done|]. apply elem_of_cons. auto.
  - rewrite lookup_delete_ne by done. rewrite IH.
    destruct (decide (key ∈ keys)) as [Hin|Hout].
    + rewrite decide_True; [done|]. apply elem_of_cons. auto.
    + rewrite decide_False; [done|]. rewrite elem_of_cons.
      intros [Heq | Hin]; [by subst | done].
Qed.

Lemma scan_keys_elem_of (prefix : string) (st : store) (key : string) :
  key ∈ (kv.scan prefix st).*1
  ↔ String.prefix prefix key = true ∧ is_Some (st !! key).
Proof.
  unfold kv.scan. rewrite list_elem_of_fmap. split.
  - intros ([k v] & -> & Hin). apply elem_of_map_to_list in Hin.
    apply map_lookup_filter_Some in Hin as [Hv Hprefix]. simpl in *. eauto.
  - intros [Hprefix [v Hv]]. exists (key, v). split; [done|].
    apply elem_of_map_to_list, map_lookup_filter_Some. done.
Qed.

(** X14.  [resetAllFastest] removes every record and nothing else: it
    never fails, afterwards [getFastestByQuiz] gives no record for any
    quiz, and every key that does not start with [fastest:] holds what
    it held. *)
Theorem resetAllFastest_clears_records (st : store) :
  let st' := exec resetAllFastest st in
  resetAllFastest st = (Ok (), st')
  ∧ (∀ quizId, getFastestByQuiz quizId st' = (Ok None, st'))
  ∧ (∀ key, String.prefix "fastest:" key = false → st' !! key = st !! key).
Proof.
  intros st'.
  assert (resetAllFastest st
          = (Ok (), foldr delete st (kv.scan "fastest:" st).*1)) as Hrun.
  { unfold resetAllFastest, bind, kv.getKeysByPrefix, kv.mdel, ret.
    destruct (0 <? len (kv.scan "fastest:" st).*1) eqn:Hlen; [done|].
    apply Z.ltb_ge in Hlen. unfold len in Hlen.
    by destruct ((kv.scan "fastest:" st).*1). }
  assert (st' = foldr delete st (kv.scan "fastest:" st).*1) as Hst'.
  { unfold st', exec. by rewrite Hrun. }
  split; [by rewrite Hrun, Hst'|]. split.
  - intros quizId.
    assert (st' !! fastest_key quizId = None) as Hnone.
    { rewrite Hst', foldr_delete_lookup.
      destruct (decide _) as [Hin|Hout]; [done|].
      destruct (st !! fastest_key quizId) as [v|] eqn:Hv; [|done].
      destruct Hout. apply scan_keys_elem_of. split; [|by eauto].
      apply prefix_append. }
    unfold getFastestByQuiz, bind, kv.get, ret. by rewrite Hnone.
  - intros key Hkey. rewrite Hst', foldr_delete_lookup.
    destruct (decide _) as [Hin|Hout]; [|done].
    apply scan_keys_elem_of in Hin as [Hprefix _]. congruence.
Qed.

(** ** What the queries leave behind *)

(** [getGlobalRanking] either leaves the store alone or caches the
    ranking it has just computed. *)
Lemma getGlobalRanking_footprint (st : store) (now later : Z) :
  exec (getGlobalRanking now later) st = st
  ∨ ∃ ranking,
      (calculateRanking st).1 = Ok ranking
      ∧ getGlobalRanking now later st
        = (Ok ranking,
           <[CACHE_TIMESTAMP_KEY := VStr (toString later)]>
             (<[CACHE_KEY := VRanking ranking]> st)).
Proof.
  pose proof (getRankingFromCache_reads now st) as Hcache.
  unfold exec in Hcache.
  unfold exec, getGlobalRanking, bind.
  destruct (getRankingFromCache now st) as [[[cached|]|e] st1];
    simpl in Hcache; subst st1; [by left| |by left].
  rewrite (calculateRanking_outcome st).
  destruct (calculateRanking st).1 as [ranking|e]; [|by left].
  right. by exists ranking.
Qed.

Lemma getGlobalRanking_frame (st : store) (now later : Z) (key : string) :
  key ≠ CACHE_KEY → key ≠ CACHE_TIMESTAMP_KEY →
  exec (getGlobalRanking now later) st !! key = st !! key.
Proof.
  intros Hkey Htime.
  destruct (getGlobalRanking_footprint st now later) as [-> | (r & _ & Hrun)];
    [done|].
  unfold exec. rewrite Hrun. simpl.
  by rewrite !lookup_insert_ne.
Qed.

Lemma exec_bind_pure {A B} (c : M A) (f : A → B) (st : store) :
  exec (let* a := c in ret (f a)) st = exec c st.
Proof. unfold exec, bind, ret. by destruct (c st) as [[a|e] st']. Qed.

(** X15.  The queries never write.  Whatever the store holds, and
    whether they succeed or throw, [getCurrentQuestion], [getSession],
    [hasActiveSession], [getUserStats], [getSessionScore],
    [getFastestByQuiz], [calculateRanking] and [getRankingFromCache]
    leave every key as it was. *)
Theorem queries_never_write (o : operation) (st : store) :
  is_query o = true → run o st = st.
Proof.
  destruct o; simpl; try discriminate; intros _.
  - apply getCurrentQuestion_reads.
  - apply getSession_reads.
  - apply hasActiveSession_reads.
  - apply getUserStats_reads.
  - apply getSessionScore_reads.
  - apply getFastestByQuiz_reads.
  - apply calculateRanking_reads.
  - apply getRankingFromCache_reads.
Qed.

Lemma queries_never_write_witness :
  run (GetCurrentQuestion "bia") stale_store = stale_store.
Proof. apply queries_never_write. reflexivity. Defined.

(** X16.  The ranking queries write nothing but the cache.
    [getGlobalRanking], [getUserPosition], [getTopPlayers] and
    [getRankingStats] leave every key other than [ranking:cache] and
    [ranking:cache:timestamp] as it was, whether they hit the cache,
    recompute, or throw. *)
Theorem ranking_queries_write_only_the_cache (o : operation) (st : store)
    (key : string) :
  is_ranking_query o = true →
  key ≠ CACHE_KEY → key ≠ CACHE_TIMESTAMP_KEY →
  run o st !! key = st !! key.
Proof.
  destruct o; simpl; try discriminate; intros _ Hkey Htime.
  - by apply getGlobalRanking_frame.
  - unfold getUserPosition. rewrite exec_bind_pure.
    by apply getGlobalRanking_frame.
  - unfold getTopPlayers. rewrite exec_bind_pure.
    by apply getGlobalRanking_frame.
  - unfold getRankingStats.
    replace (exec _ st) with (exec (getGlobalRanking now later) st);
      [by apply getGlobalRanking_frame|].
    unfold exec, bind, ret.
    destruct (getGlobalRanking now later st) as [[ranking|e] st']; [|done].
    by destruct (len ranking =? 0).
Qed.

Lemma ranking_queries_write_only_the_cache_witness :
  run (GetTopPlayers (Some 2) 80000 80001) league_store
    !! user_profile_key "ana"
  = league_store !! user_profile_key "ana".
Proof.
  apply ranking_queries_write_only_the_cache; [reflexivity | done | done].
Defined.

(** ** The ranking queries *)

Lemma find_first {A} (f : A → bool) (l : list A) :
  match find f l with
  | Some x =>
      f x = true
      ∧ ∃ i : nat, l !! i = Some x
          ∧ ∀ (j : nat) (y : A), (j < i)%nat → l !! j = Some y → f y = false
  | None => ∀ y, y ∈ l → f y = false
  end.
Proof.
  induction l as [|a l IH]; simpl.
  - intros y Hy. by apply elem_of_nil in Hy.
  - destruct (f a) eqn:Ha.
    + split; [done|]. exists 0%nat. split; [done|]. intros j y Hj. lia.
    + destruct (find f l) as [x|].
      * destruct IH as (Hx & i & Hi & Hbefore). split; [done|].
        exists (S i). split; [done|].
        intros [|j] y Hj Hy; simpl in Hy; [by simplify_eq|].
        apply (Hbefore j); [lia | done].
      * intros y [-> | Hy]%elem_of_cons; [done | by apply IH].
Qed.

(** X17.  [getUserPosition] answers from the first entry of the user.
    Whenever [getGlobalRanking] gives a ranking, [getUserPosition]
    succeeds and leaves the same store; it gives null exactly when no
    entry of the ranking carries the user's id, and otherwise the
    position field of the first entry that does. *)
Theorem getUserPosition_finds_first_entry (st st' : store) (userId : string)
    (now later : Z) (ranking : list RankingEntry.t) :
  getGlobalRanking now later st = (Ok ranking, st') →
  ∃ r,
    getUserPosition userId now later st = (Ok r, st')
    ∧ match r with
      | None => ∀ e, e ∈ ranking → RankingEntry.userId e ≠ userId
      | Some position =>
          ∃ (i : nat) (e : RankingEntry.t),
            ranking !! i = Some e
            ∧ RankingEntry.userId e = userId
            ∧ RankingEntry.position e = position
            ∧ ∀ (j : nat) (e' : RankingEntry.t),
                (j < i)%nat → ranking !! j = Some e' →
                RankingEntry.userId e' ≠ userId
      end.
Proof.
  intros Hranking. unfold getUserPosition, bind, ret. rewrite Hranking.
  eexists. split; [done|].
  pose proof (find_first (λ r, (RankingEntry.userId r =? userId)%string)
                ranking) as Hfind.
  destruct (find _ ranking) as [e|]; simpl.
  - destruct Hfind as (He & i & Hi & Hbefore).
    exists i, e. split; [done|]. split; [by apply String.eqb_eq|].
    split; [done|]. intros j e' Hj He'.
    apply String.eqb_neq. by apply (Hbefore j).
  - intros e He. apply String.eqb_neq. by apply Hfind.
Qed.

Lemma getUserPosition_finds_first_entry_witness :
  ∃ r,
    getUserPosition "ana" 80000 80001 league_store
    = (Ok r, exec (getGlobalRanking 80000 80001) league_store)
    ∧ match r with
      | None => ∀ e, e ∈ league_ranking → RankingEntry.userId e ≠ "ana"
      | Some position =>
          ∃ (i : nat) (e : RankingEntry.t),
            league_ranking !! i = Some e
            ∧ RankingEntry.userId e = "ana"
            ∧ RankingEntry.position e = position
            ∧ ∀ (j : nat) (e' : RankingEntry.t),
                (j < i)%nat → league_ranking !! j = Some e' →
                RankingEntry.userId e' ≠ "ana"
      end.
Proof.
  apply (getUserPosition_finds_first_entry league_store
           (exec (getGlobalRanking 80000 80001) league_store)
           "ana" 80000 80001 league_ranking).
  by_compute.
Defined.

Lemma calculateRanking_inv (st st' : store) (ranking : list RankingEntry.t) :
  calculateRanking st = (Ok ranking, st') →
  ∃ profiles,
    mapM as_profile ((kv.scan "user_profile:" st).*2) = Some profiles
    ∧ ranking
      = imap ranking_entry
          (sort by_score_descending
             (filter (λ p, 0 < UserProfile.gamesPlayed p) profiles)).
Proof.
  unfold calculateRanking, bind, kv.getByPrefix, JSON_parse_all, ret, throw.
  destruct (mapM _ _) as [profiles|]; intros H; simplify_eq/=.
  by exists profiles.
Qed.

Lemma imap_entry_scores (f : nat → UserProfile.t → RankingEntry.t)
    (ranked : list UserProfile.t) :
  (∀ i p, RankingEntry.totalScore (f i p) = UserProfile.totalScore p) →
  RankingEntry.totalScore <$> imap f ranked
  = UserProfile.totalScore <$> ranked.
Proof.
  revert f. induction ranked as [|p ranked IH]; intros f Hf; [done|].
  simpl. rewrite Hf. f_equal. apply IH. intros i q. apply Hf.
Qed.

Lemma sorted_head_highest (p : UserProfile.t) (ranked : list UserProfile.t) :
  StronglySorted
    (λ a b, UserProfile.totalScore b ≤ UserProfile.totalScore a)
    (p :: ranked) →
  ∀ q, q ∈ p :: ranked → UserProfile.totalScore q ≤ UserProfile.totalScore p.
Proof.
  intros Hsorted q [-> | Hq]%elem_of_cons; [lia|].
  apply StronglySorted_inv in Hsorted as [_ Hp].
  rewrite List.Forall_forall in Hp. apply Hp. by apply list_elem_of_In.
Qed.

(** X18.  The statistics of a freshly computed ranking.  On a cache
    miss, when [calculateRanking] gives a ranking, [getRankingStats]
    succeeds and leaves the ranking cached; totalPlayers is the number
    of ranked players, no ranked player has more than highestScore, a
    non-empty ranking has a player with exactly highestScore, and an
    empty ranking gives zero for all three figures. *)
Theorem getRankingStats_of_fresh_ranking (st : store) (now later : Z)
    (ranking : list RankingEntry.t) :
  getRankingFromCache now st = (Ok None, st) →
  calculateRanking st = (Ok ranking, st) →
  ∃ r,
    getRankingStats now later st
    = (Ok r, exec (cacheRanking ranking later) st)
    ∧ RankingStats.totalPlayers r = len ranking
    ∧ (∀ e, e ∈ ranking →
         RankingEntry.totalScore e ≤ RankingStats.highestScore r)
    ∧ (ranking ≠ [] →
         ∃ e, e ∈ ranking
              ∧ RankingEntry.totalScore e = RankingStats.highestScore r)
    ∧ (ranking = [] →
         RankingStats.highestScore r = 0
         ∧ RankingStats.averageScore r = 0%float).
Proof.
  intros Hmiss Hcomputed.
  pose proof (getGlobalRanking_miss st now later Hmiss) as Hglobal.
  rewrite Hcomputed in Hglobal. simpl in Hglobal.
  unfold getRankingStats, bind, ret. rewrite Hglobal.
  destruct ranking as [|first rest].
  - simpl. eexists. split; [done|]. repeat split; try done.
    intros e He. by apply elem_of_nil in He.
  - replace (len (first :: rest) =? 0) with false
      by (symmetry; apply Z.eqb_neq; unfold len; simpl; lia).
    eexists. split; [done|]. simpl. split; [done|]. split; [|split; [|done]].
    + apply calculateRanking_inv in Hcomputed as (profiles & _ & Hranking).
      pose proof (sort_descending
                    (filter (λ p, 0 < UserProfile.gamesPlayed p) profiles))
        as Hsorted.
      pose proof (imap_entry_scores ranking_entry
                    (sort by_score_descending
                       (filter (λ p, 0 < UserProfile.gamesPlayed p) profiles))
                    (λ _ _, eq_refl)) as Hscores.
      rewrite <- Hranking in Hscores.
      destruct (sort _ _) as [|p ranked]; [done|].
      pose proof Hscores as Hhead. simpl in Hhead.
      injection Hhead as Hfirst _.
      intros e He.
      assert (RankingEntry.totalScore e
              ∈ RankingEntry.totalScore <$> first :: rest) as Hscore
        by (by apply list_elem_of_fmap_2).
      rewrite Hscores in Hscore.
      apply list_elem_of_fmap in Hscore as (q & -> & Hq).
      rewrite Hfirst. by apply (sorted_head_highest p ranked).
    + intros _. exists first. split; [apply elem_of_cons; by left | done].
Qed.

Lemma getRankingStats_of_fresh_ranking_witness :
  ∃ r,
    getRankingStats 80000 80001 league_store
    = (Ok r, exec (cacheRanking league_ranking 80001) league_store)
    ∧ RankingStats.totalPlayers r = len league_ranking
    ∧ (∀ e, e ∈ league_ranking →
         RankingEntry.totalScore e ≤ RankingStats.highestScore r)
    ∧ (league_ranking ≠ [] →
         ∃ e, e ∈ league_ranking
              ∧ RankingEntry.totalScore e = RankingStats.highestScore r)
    ∧ (league_ranking = [] →
         RankingStats.highestScore r = 0
         ∧ RankingStats.averageScore r = 0%float).
Proof.
  apply (getRankingStats_of_fresh_ranking league_store 80000 80001
           league_ranking); by_compute.
Defined.

(** What the loop of [resetAllRankings] leaves under a key. *)
Lemma for_each_reset_lookup (profiles : list UserProfile.t) (st : store) :
  ∃ st',
    for_each profiles reset_profile st = (Ok (), st')
    ∧ (∀ key,
         (∀ p, p ∈ profiles → key ≠ user_profile_key (UserProfile.id p)) →
         st' !! key = st !! key)
    ∧ (∀ p, p ∈ profiles →
         ∃ p', st' !! user_profile_key (UserProfile.id p) = Some (VProfile p')
               ∧ UserProfile.gamesPlayed p' = 0).
Proof.
  revert st. induction profiles as [|q profiles IH]; intros st; simpl.
  - exists st. split; [done|]. split; [done|].
    intros p Hp. by apply elem_of_nil in Hp.
  - unfold bind, reset_profile at 1, kv.set.
    match goal with
    | |- context [for_each profiles reset_profile ?x] =>
        destruct (IH x) as (st' & -> & Hframe & Hzero)
    end.
    exists st'. split; [done|]. split.
    + intros key Hkey. rewrite Hframe.
      * apply lookup_insert_ne. symmetry. apply Hkey, elem_of_cons. by left.
      * intros p Hp. apply Hkey, elem_of_cons. by right.
    + intros p Hp.
      destruct (decide (Exists (λ p', user_profile_key (UserProfile.id p)
                                      = user_profile_key (UserProfile.id p'))
                          profiles)) as [Hlater|Hnot].
      * apply Exists_exists in Hlater as (p' & Hp' & ->). by apply Hzero.
      * apply elem_of_cons in Hp as [-> | Hp];
          [|destruct Hnot; apply Exists_exists; by exists p].
        rewrite Hframe.
        -- rewrite lookup_insert_eq. by eexists.
        -- intros p' Hp' Heq. apply Hnot, Exists_exists. by exists p'.
Qed.

Lemma mapM_as_profile_elem_of (vs : list value) (profiles : list UserProfile.t)
    (p : UserProfile.t) :
  mapM as_profile vs = Some profiles → VProfile p ∈ vs → p ∈ profiles.
Proof.
  intros Hparsed Hp. apply mapM_Some in Hparsed.
  apply list_elem_of_lookup in Hp as [i Hi].
  destruct (Forall2_lookup_l _ _ _ _ _ Hparsed Hi) as (q & Hq & Heq).
  simpl in Heq. simplify_eq. by apply list_elem_of_lookup_2 in Hq.
Qed.

Lemma mapM_as_profile_idle (vs : list value) :
  Forall (λ v, ∃ p, v = VProfile p ∧ UserProfile.gamesPlayed p = 0) vs →
  ∃ profiles,
    mapM as_profile vs = Some profiles
    ∧ filter (λ p, 0 < UserProfile.gamesPlayed p) profiles = [].
Proof.
  induction 1 as [|v vs (p & -> & Hp) _ (profiles & Hparsed & Hidle)].
  - by exists [].
  - exists (p :: profiles). split.
    + simpl. by rewrite Hparsed.
    + rewrite filter_cons_False by lia. done.
Qed.

Lemma scan_elem_of (prefix : string) (st : store) (v : value) :
  v ∈ (kv.scan prefix st).*2
  ↔ ∃ key, String.prefix prefix key = true ∧ st !! key = Some v.
Proof.
  unfold kv.scan. rewrite list_elem_of_fmap. split.
  - intros ([k w] & -> & Hin). apply elem_of_map_to_list in Hin.
    apply map_lookup_filter_Some in Hin as [Hv Hprefix]. simpl in *. eauto.
  - intros (key & Hprefix & Hv). exists (key, v). split; [done|].
    apply elem_of_map_to_list, map_lookup_filter_Some. done.
Qed.

(** What [resetAllRankings] leaves behind in a store that respects the
    key layout and keeps every profile under the key of its own id. *)
Lemma resetAllRankings_run (st : store) :
  well_keyed st → keyed_by_id st →
  ∃ st',
    resetAllRankings st = (Ok (), st')
    ∧ calculateRanking st' = (Ok [], st')
    ∧ st' !! CACHE_KEY = None
    ∧ st' !! CACHE_TIMESTAMP_KEY = None.
Proof.
  intros Hlayout Hkeys.
  set (st' := exec resetAllRankings st).
  assert (∃ profiles,
            mapM as_profile (kv.scan "user_profile:" st).*2 = Some profiles)
    as [profiles Hparsed].
  { apply mapM_is_Some, Forall_forall. intros v Hv.
    apply scan_elem_of in Hv as (key & Hprefix & Hv).
    destruct (Hlayout _ _ Hv) as [Hprofile _].
    destruct (Hprofile Hprefix) as [p ->]. by eexists. }
  destruct (for_each_reset_lookup profiles st) as (st1 & Hloop & Hframe & Hzero).
  assert (resetAllRankings st
          = (Ok (), delete CACHE_TIMESTAMP_KEY (delete CACHE_KEY st1))) as Hrun.
  { unfold resetAllRankings, bind, kv.getByPrefix, JSON_parse_all, ret.
    rewrite Hparsed, Hloop. done. }
  assert (st' = delete CACHE_TIMESTAMP_KEY (delete CACHE_KEY st1)) as Hst'.
  { unfold st', exec. by rewrite Hrun. }
  assert (calculateRanking st' = (Ok [], st')) as Hempty.
  { destruct (mapM_as_profile_idle (kv.scan "user_profile:" st').*2)
      as (idle & Hidle & Hnone).
    - apply Forall_forall. intros v Hv.
      rewrite Hst', !scan_delete_other in Hv by done.
      apply scan_elem_of in Hv as (key & Hprefix & Hv).
      destruct (decide (Exists (λ p, key = user_profile_key (UserProfile.id p))
                          profiles)) as [Hwritten|Hnot].
      + apply Exists_exists in Hwritten as (p & Hp & ->).
        destruct (Hzero p Hp) as (p' & Hp' & Hgames).
        exists p'. split; [congruence | done].
      + rewrite Hframe in Hv
          by (intros p Hp Heq; apply Hnot, Exists_exists; by exists p).
        destruct (Hlayout _ _ Hv) as [Hprofile _].
        destruct (Hprofile Hprefix) as [p ->].
        destruct Hnot. apply Exists_exists. exists p. split.
        * apply (mapM_as_profile_elem_of _ _ _ Hparsed).
          apply scan_elem_of. by exists key.
        * by apply Hkeys.
    - unfold calculateRanking, bind, kv.getByPrefix, JSON_parse_all, ret.
      rewrite Hidle. simpl. by rewrite Hnone. }
  exists st'. split; [by rewrite Hrun, Hst'|]. split; [done|].
  rewrite Hst'. split.
  - rewrite lookup_delete_ne by done. apply lookup_delete_eq.
  - apply lookup_delete_eq.
Qed.

(** X19.  After [resetAllRankings] nobody is ranked.  In a store that
    respects the key layout and keeps every profile under the key of
    its own id, [resetAllRankings] succeeds, and afterwards
    [calculateRanking] and [getGlobalRanking] give the empty ranking
    and [getUserPosition] gives null for every user, at any time. *)
Theorem resetAllRankings_empties_ranking (st : store) :
  well_keyed st → keyed_by_id st →
  let st' := exec resetAllRankings st in
  resetAllRankings st = (Ok (), st')
  ∧ calculateRanking st' = (Ok [], st')
  ∧ (∀ now later,
       getGlobalRanking now later st'
       = (Ok [], exec (cacheRanking [] later) st'))
  ∧ (∀ userId now later,
       getUserPosition userId now later st'
       = (Ok None, exec (cacheRanking [] later) st')).
Proof.
  intros Hlayout Hkeys st'.
  destruct (resetAllRankings_run st Hlayout Hkeys)
    as (st1 & Hrun & Hempty & Hcache & _).
  assert (st' = st1) as -> by (unfold st', exec; by rewrite Hrun).
  assert (∀ now later,
            getGlobalRanking now later st1
            = (Ok [], exec (cacheRanking [] later) st1)) as Hglobal.
  { intros now later.
    rewrite (getGlobalRanking_miss st1 now later).
    - by rewrite Hempty.
    - apply getRankingFromCache_miss. by left. }
  split; [done|]. split; [done|]. split; [done|].
  intros userId now later. unfold getUserPosition, bind, ret.
  by rewrite Hglobal.
Qed.

Lemma keyed_by_id_empty : keyed_by_id ∅.
Proof. intros key p Hkey. by rewrite lookup_empty in Hkey. Qed.

Lemma keyed_by_id_insert (st : store) (key : string) (v : value) :
  keyed_by_id st →
  (∀ p, v = VProfile p → String.prefix "user_profile:" key = true →
        key = user_profile_key (UserProfile.id p)) →
  keyed_by_id (<[key := v]> st).
Proof.
  intros Hst Hv k p Hk Hprefix.
  destruct (decide (key = k)) as [<-|Hne].
  - rewrite lookup_insert_eq in Hk. apply Hv; [congruence | done].
  - rewrite lookup_insert_ne in Hk by done. by apply Hst.
Qed.

Lemma cached_store_layout : well_keyed cached_store ∧ keyed_by_id cached_store.
Proof.
  unfold cached_store, league_store. split.
  - layout.
  - repeat (apply keyed_by_id_insert;
              [|intros p Hp Hprefix; by first [discriminate Hp | simplify_eq]]).
    apply keyed_by_id_empty.
Qed.

Lemma resetAllRankings_empties_ranking_witness :
  resetAllRankings cached_store = (Ok (), exec resetAllRankings cached_store)
  ∧ calculateRanking (exec resetAllRankings cached_store)
    = (Ok [], exec resetAllRankings cached_store)
  ∧ (∀ now later,
       getGlobalRanking now later (exec resetAllRankings cached_store)
       = (Ok [], exec (cacheRanking [] later)
                   (exec resetAllRankings cached_store)))
  ∧ (∀ userId now later,
       getUserPosition userId now later (exec resetAllRankings cached_store)
       = (Ok None, exec (cacheRanking [] later)
                     (exec resetAllRankings cached_store))).
Proof.
  apply (resetAllRankings_empties_ranking cached_store);
    apply cached_store_layout.
Defined.

Lemma sort_insert_stable (score : Z) (x : UserProfile.t)
    (l : list UserProfile.t) :
  filter (λ p, UserProfile.totalScore p = score)
    (sort_insert by_score_descending x l)
  = filter (λ p, UserProfile.totalScore p = score) (x :: l).
Proof.
  induction l as [|y l IH]; simpl; [done|].
  unfold by_score_descending at 1.
  destruct (Z.leb_spec (UserProfile.totalScore y - UserProfile.totalScore x) 0)
    as [Hle|Hgt]; [done|].
  rewrite (filter_cons _ y (sort_insert _ _ _)), IH, !filter_cons.
  repeat case_decide; try done; lia.
Qed.

Lemma sort_stable (score : Z) (l : list UserProfile.t) :
  filter (λ p, UserProfile.totalScore p = score) (sort by_score_descending l)
  = filter (λ p, UserProfile.totalScore p = score) l.
Proof.
  induction l as [|x l IH]; simpl; [done|].
  by rewrite sort_insert_stable, !filter_cons, IH.
Qed.

Lemma imap_entry_ties (score : Z)
    (f : nat → UserProfile.t → RankingEntry.t) (ranked : list UserProfile.t) :
  (∀ i p, RankingEntry.totalScore (f i p) = UserProfile.totalScore p
          ∧ RankingEntry.userId (f i p) = UserProfile.id p) →
  RankingEntry.userId
    <$> filter (λ e, RankingEntry.totalScore e = score) (imap f ranked)
  = UserProfile.id
    <$> filter (λ p, UserProfile.totalScore p = score) ranked.
Proof.
  revert f. induction ranked as [|p ranked IH]; intros f Hf; [done|].
  simpl. rewrite !filter_cons. destruct (Hf 0%nat p) as [Hscore Hid].
  rewrite Hscore. case_decide; simpl.
  - rewrite Hid. f_equal. apply IH. intros i q. apply Hf.
  - apply IH. intros i q. apply Hf.
Qed.

(** X20.  Ties keep the order of the scan.  When the entries under
    [user_profile:] are profiles, the players [calculateRanking] ranks
    with one and the same totalScore appear in the order in which the
    prefix scan returned their profiles. *)
Theorem calculateRanking_ties_keep_scan_order
    (st : store) (profiles : list UserProfile.t) :
  mapM as_profile ((kv.scan "user_profile:" st).*2) = Some profiles →
  ∃ ranking,
    calculateRanking st = (Ok ranking, st)
    ∧ ∀ score,
        RankingEntry.userId
          <$> filter (λ e, RankingEntry.totalScore e = score) ranking
        = UserProfile.id
          <$> filter (λ p, UserProfile.totalScore p = score)
                (filter (λ p, 0 < UserProfile.gamesPlayed p) profiles).
Proof.
  intros Hparsed. eexists. split.
  - unfold calculateRanking, bind, kv.getByPrefix, JSON_parse_all, ret.
    by rewrite Hparsed.
  - intros score. simpl.
    rewrite (imap_entry_ties score ranking_entry) by done.
    by rewrite sort_stable.
Qed.

Lemma calculateRanking_ties_keep_scan_order_witness :
  ∃ ranking,
    calculateRanking league_store = (Ok ranking, league_store)
    ∧ ∀ score,
        RankingEntry.userId
          <$> filter (λ e, RankingEntry.totalScore e = score) ranking
        = UserProfile.id
          <$> filter (λ p, UserProfile.totalScore p = score)
                (filter (λ p, 0 < UserProfile.gamesPlayed p)
                   [sample_profile "caio" 100 1; sample_profile "ana" 300 2;
                    sample_profile "bia" 500 6; sample_profile "duda" 0 0]).
Proof.
  apply (calculateRanking_ties_keep_scan_order league_store
           [sample_profile "caio" 100 1; sample_profile "ana" 300 2;
            sample_profile "bia" 500 6; sample_profile "duda" 0 0]).
  by_compute.
Defined.

(** ** The route handlers *)

Lemma scan_agree (prefix : string) (st st' : store) :
  (∀ key, String.prefix prefix key = true → st' !! key = st !! key) →
  kv.scan prefix st' = kv.scan prefix st.
Proof.
  intros Hagree. unfold kv.scan. f_equal. apply map_eq. intros key.
  apply option_eq. intros v. rewrite !map_lookup_filter_Some. simpl.
  split; intros [Hv Hprefix]; (split; [|done]).
  - by rewrite <- Hagree.
  - by rewrite Hagree.
Qed.

Lemma resetAllFastest_run (st : store) :
  ∃ st',
    resetAllFastest st = (Ok (), st')
    ∧ (∀ quizId, st' !! fastest_key quizId = None)
    ∧ (∀ key, String.prefix "fastest:" key = false → st' !! key = st !! key).
Proof.
  exists (foldr delete st (kv.scan "fastest:" st).*1). split; [|split].
  - unfold resetAllFastest, bind, kv.getKeysByPrefix, kv.mdel, ret.
    destruct (0 <? len (kv.scan "fastest:" st).*1) eqn:Hlen; [done|].
    apply Z.ltb_ge in Hlen. unfold len in Hlen.
    by destruct ((kv.scan "fastest:" st).*1).
  - intros quizId. rewrite foldr_delete_lookup.
    destruct (decide _) as [Hin|Hout]; [done|].
    destruct (st !! fastest_key quizId) as [v|] eqn:Hv; [|done].
    destruct Hout. apply scan_keys_elem_of. split; [|by eauto].
    apply prefix_append.
  - intros key Hkey. rewrite foldr_delete_lookup.
    destruct (decide _) as [Hin|Hout]; [|done].
    apply scan_keys_elem_of in Hin as [Hprefix _]. congruence.
Qed.

(** X21.  Finishing a quiz through its route refreshes the ranking.
    In a store that respects the key layout, when the pointer of the
    user leads to a stored session whose id starts with [session:], the
    handler of [POST /quiz/finish] succeeds with the result of
    [finishQuiz]; afterwards the user has no active session, a stored
    profile of the user counts the finished game (when its counters,
    the score and both sums are safe integers), no ranking is cached,
    and the next [getGlobalRanking] computes the ranking from the
    profiles and caches it. *)
Theorem quiz_finish_refreshes_ranking (st : store) (userId sessionId : string)
    (finished today now : Z) (s : QuizSession.t) :
  well_keyed st →
  st !! active_session_key userId = Some (VStr sessionId) →
  String.prefix "session:" sessionId = true →
  st !! sessionId = Some (VSession s) →
  ∃ st',
    quiz_finish userId finished today now st
    = (Ok {|
         FinishQuizResult.finalScore := QuizSession.score s;
         FinishQuizResult.totalQuestions := len (QuizSession.questions s);
         FinishQuizResult.correctAnswers := correct_answers s;
         FinishQuizResult.durationMs := finished - QuizSession.startedAt s
       |}, st')
    ∧ hasActiveSession userId st' = (Ok false, st')
    ∧ (∀ p, st !! user_profile_key userId = Some (VProfile p) →
         safe_game (QuizSession.score s) p →
         st' !! user_profile_key userId
         = Some (VProfile (add_game (QuizSession.score s) p)))
    ∧ st' !! CACHE_KEY = None
    ∧ ∀ now' later',
        getGlobalRanking now' later' st'
        = match (calculateRanking st').1 with
          | Ok computed =>
              (Ok computed, exec (cacheRanking computed later') st')
          | Throw e => (Throw e, st')
          end.
Proof.
  intros Hst Hptr Hprefix Hrec.
  destruct (finishQuiz_run st userId sessionId finished today now s
              Hst Hptr Hprefix Hrec)
    as (st1 & Hrun & Hgone & _ & Hprofile & _).
  exists (delete CACHE_TIMESTAMP_KEY (delete CACHE_KEY st1)).
  assert (delete CACHE_TIMESTAMP_KEY (delete CACHE_KEY st1) !! CACHE_KEY = None)
    as Hcache.
  { rewrite lookup_delete_ne by done. apply lookup_delete_eq. }
  split; [|split; [|split; [|split; [done|]]]].
  - unfold quiz_finish, bind, invalidateCache, kv.del, ret.
    by rewrite Hrun.
  - unfold hasActiveSession, bind, kv.get, ret.
    rewrite !lookup_delete_ne by (intros H; discriminate H).
    by rewrite Hgone.
  - intros p Hp Hsafe.
    rewrite !lookup_delete_ne by (intros H; discriminate H).
    rewrite (Hprofile p Hp). by rewrite scored_safe.
  - intros now' later'. apply getGlobalRanking_miss.
    apply getRankingFromCache_miss. by left.
Qed.

Lemma quiz_finish_refreshes_ranking_witness :
  ∃ st',
    quiz_finish "ana" 9000 9000 9001 playing_store
    = (Ok {|
         FinishQuizResult.finalScore := 0;
         FinishQuizResult.totalQuestions := 2;
         FinishQuizResult.correctAnswers := 0;
         FinishQuizResult.durationMs := 8000
       |}, st')
    ∧ hasActiveSession "ana" st' = (Ok false, st')
    ∧ st' !! user_profile_key "ana"
      = Some (VProfile (sample_profile "ana" 300 3))
    ∧ st' !! CACHE_KEY = None.
Proof.
  destruct (quiz_finish_refreshes_ranking playing_store "ana"
              "session:ana:quiz:1:1000" 9000 9000 9001
              (sample_session "ana" 0 0 active None))
    as (st' & Hrun & Hactive & Hprofile & Hcache & _).
  - apply well_keyed_playing_store.
  - by_compute.
  - reflexivity.
  - by_compute.
  - assert (playing_store !! user_profile_key "ana"
            = Some (VProfile (sample_profile "ana" 300 2))) as Hp
      by by_compute.
    assert (safe_game 0 (sample_profile "ana" 300 2)) as Hsafe
      by (unfold safe_game, safe_integer, MAX_SAFE_INTEGER; simpl; lia).
    exists st'. split; [exact Hrun|]. split; [exact Hactive|].
    split; [|exact Hcache].
    exact (Hprofile _ Hp Hsafe).
Defined.

(** X22.  The reset route leaves no ranking and no record.  In a store
    that respects the key layout and keeps every profile under the key
    of its own id, the handler of [POST /ranking/reset] succeeds;
    afterwards [getGlobalRanking] gives the empty ranking at any time
    and [getFastestByQuiz] gives no record for any quiz. *)
Theorem ranking_reset_clears_ranking_and_records (st : store) :
  well_keyed st → keyed_by_id st →
  ∃ st',
    ranking_reset st = (Ok (), st')
    ∧ (∀ now later,
         getGlobalRanking now later st'
         = (Ok [], exec (cacheRanking [] later) st'))
    ∧ (∀ quizId, getFastestByQuiz quizId st' = (Ok None, st')).
Proof.
  intros Hlayout Hkeys.
  destruct (resetAllRankings_run st Hlayout Hkeys)
    as (st1 & Hrankings & Hempty & Hcache & _).
  destruct (resetAllFastest_run st1) as (st2 & Hfastest & Hnone & Hframe).
  exists st2. split; [|split].
  - unfold ranking_reset, bind. by rewrite Hrankings.
  - intros now later. rewrite (getGlobalRanking_miss st2 now later).
    + rewrite (calculateRanking_scan st1 st2), Hempty; [done|].
      symmetry. apply scan_agree. intros key Hprefix. symmetry. apply Hframe.
      apply prefix_split in Hprefix as [rest ->]. reflexivity.
    + apply getRankingFromCache_miss. left. by rewrite Hframe.
  - intros quizId. unfold getFastestByQuiz, bind, kv.get, ret.
    by rewrite Hnone.
Qed.

Lemma ranking_reset_clears_ranking_and_records_witness :
  ∃ st',
    ranking_reset cached_store = (Ok (), st')
    ∧ (∀ now later,
         getGlobalRanking now later st'
         = (Ok [], exec (cacheRanking [] later) st'))
    ∧ (∀ quizId, getFastestByQuiz quizId st' = (Ok None, st')).
Proof.
  apply (ranking_reset_clears_ranking_and_records cached_store);
    apply cached_store_layout.
Defined.

(** X23.  The limit of the top-players route.  When [getGlobalRanking]
    gives a ranking, the handler of [GET /ranking/top/:limit], asked
    with the decimal text of an integer [n], answers with
    [ranking.slice(0, n)] when [n] is not 0 and with the first ten
    entries when [n] is 0; it leaves the store [getGlobalRanking]
    leaves. *)
Theorem ranking_top_limit (st st' : store) (n now later : Z)
    (ranking : list RankingEntry.t) :
  getGlobalRanking now later st = (Ok ranking, st') →
  ranking_top (toString n) now later st
  = (Ok (slice0 ranking (if bool_decide (n = 0) then 10 else n)), st').
Proof.
  intros Hranking.
  unfold ranking_top, top_limit, getTopPlayers, bind, ret.
  rewrite parseInt_toString, Hranking. simpl.
  case_bool_decide as Hn; [by subst|]. by destruct n.
Qed.

Lemma ranking_top_limit_witness :
  ranking_top (toString 0) 80000 80001 league_store
  = (Ok (slice0 league_ranking (if bool_decide (0 = 0) then 10 else 0)),
     exec (getGlobalRanking 80000 80001) league_store).
Proof.
  apply (ranking_top_limit league_store
           (exec (getGlobalRanking 80000 80001) league_store)
           0 80000 80001 league_ranking).
  by_compute.
Defined.

(** ** The record of a quiz after [finishQuiz] *)

(** X24.  The first to finish a quiz holds its record.  In a store that
    respects the key layout, when the pointer of the user leads to a
    stored session whose id starts with [session:], the user of the
    session has a stored profile and the quiz of the session has no
    record yet, then after [finishQuiz] [getFastestByQuiz] of that quiz
    gives the user of the session, with the name of the profile, the
    score of the session, the time from [startedAt] to the completion
    as durationMs, and the completion time. *)
Theorem finishQuiz_first_finisher_holds_record
    (st : store) (userId sessionId : string) (finished today now : Z)
    (s : QuizSession.t) (p : UserProfile.t) :
  well_keyed st →
  st !! active_session_key userId = Some (VStr sessionId) →
  String.prefix "session:" sessionId = true →
  st !! sessionId = Some (VSession s) →
  st !! user_profile_key (QuizSession.userId s) = Some (VProfile p) →
  st !! fastest_key (QuizSession.quizId s) = None →
  let st' := exec (finishQuiz userId finished today now) st in
  getFastestByQuiz (QuizSession.quizId s) st'
  = (Ok (Some {|
       FastestEntry.userId := QuizSession.userId s;
       FastestEntry.name := UserProfile.name p;
       FastestEntry.quizId := QuizSession.quizId s;
       FastestEntry.durationMs := finished - QuizSession.startedAt s;
       FastestEntry.score := QuizSession.score s;
       FastestEntry.completedAt := finished |}), st').
Proof.
  intros Hst Hptr Hprefix Hrec Hp Hnone st'.
  destruct (finishQuiz_run st userId sessionId finished today now s
              Hst Hptr Hprefix Hrec)
    as (st1 & Hrun & _ & _ & _ & Hrecord).
  assert (st' = st1) as -> by (unfold st', exec; by rewrite Hrun).
  unfold getFastestByQuiz, bind, kv.get, JSON_parse, ret.
  by rewrite (Hrecord p Hp Hnone).
Qed.

Lemma finishQuiz_first_finisher_holds_record_witness :
  getFastestByQuiz "quiz:1" (exec (finishQuiz "ana" 9000 9000 9001) playing_store)
  = (Ok (Some {|
       FastestEntry.userId := "ana";
       FastestEntry.name := "ana";
       FastestEntry.quizId := "quiz:1";
       FastestEntry.durationMs := 9000 - 1000;
       FastestEntry.score := 0;
       FastestEntry.completedAt := 9000 |}),
     exec (finishQuiz "ana" 9000 9000 9001) playing_store).
Proof.
  apply (finishQuiz_first_finisher_holds_record playing_store "ana"
           "session:ana:quiz:1:1000" 9000 9000 9001
           (sample_session "ana" 0 0 active None)
           (sample_profile "ana" 300 2)).
  - apply well_keyed_playing_store.
  - by_compute.
  - reflexivity.
  - by_compute.
  - by_compute.
  - by_compute.
Defined.
